(** * PhotographyBooking: the Express application of [server/index.js]

    A shallow embedding of the booking/message server and the proofs of
    the properties its specification states.

    What is modelled: the two in-memory collections, the route table in
    registration order (Express visits layers in that order and the
    first one that answers ends the request), the authentication guard,
    the CSRF middleware with its error handler, and every route handler.

    What is taken from the environment: the libraries' own functions
    ([Platform]), the process configuration ([Config]) and, per request,
    the clock and the fate of the mail relay ([Env]).

    What is outside the model: helmet, morgan, the body parsers, static
    files, the session store's expiry and the rate limiter.  A [Request]
    is a request that those layers have passed on, with its body already
    parsed.  Handlers run to completion: the only [await] of a handler
    comes after its last access to the collections. *)

From stdpp Require Import gmap strings list fin_maps pretty.
From Stdlib Require Import ZArith Sorted Permutation.

Set Warnings "-register-all".
#[local] Open Scope Z_scope.

(** ** JavaScript values *)

(** Values of parsed bodies, query strings and JSON responses.  [JUndef] is
    what reading an absent property gives; [JDate None] is an Invalid Date.
    Numbers are integers; the key order of objects is kept. *)
Inductive Json :=
| JUndef
| JNull
| JBool (b : bool)
| JNum (z : Z)
| JStr (s : string)
| JDate (t : option Z)
| JArr (l : list Json)
| JObj (l : list (string * Json)).

(** [!!v] *)
Definition truthy (v : Json) : bool :=
  match v with
  | JUndef | JNull => false
  | JBool b => b
  | JNum z => negb (z =? 0)
  | JStr s => negb (String.eqb s "")
  | JDate _ | JArr _ | JObj _ => true
  end.

(** [a || b] *)
Definition js_or (a b : Json) : Json := if truthy a then a else b.

(** [o.k] on a parsed object: own properties only, [undefined] when absent. *)
Definition field (o : gmap string Json) (k : string) : Json :=
  default JUndef (o !! k).

(** [v === s] for a string [s]. *)
Definition strict_eq_str (v : Json) (s : string) : bool :=
  match v with
  | JStr s' => String.eqb s' s
  | _ => false
  end.

(** [v === e] where [e] is an environment variable, [undefined] when unset. *)
Definition strict_eq_env (v : Json) (e : option string) : bool :=
  match e, v with
  | Some s, _ => strict_eq_str v s
  | None, JUndef => true
  | None, _ => false
  end.

Definition has_key (k : string) (l : list (string * Json)) : bool :=
  existsb (fun kv => String.eqb (fst kv) k) l.

Fixpoint join (sep : string) (l : list string) : string :=
  match l with
  | [] => ""
  | [x] => x
  | x :: rest => x +:+ sep +:+ join sep rest
  end.

(** Library functions the server calls; their results are not computed here.
    [uuidv4 n] is the identifier the [n]-th call of the generator returns. *)
Record Platform := {
  uuidv4 : nat → string;
  trim : string → string;
  toLowerCase : string → string;
  Date_parse : string → option Z;
  Date_toString : option Z → string;
  toLocaleDateString : option Z → string;
  decodeURIComponent : string → option string;
  tokens_verify : string → string → bool;
  tokens_create : string → string → string
}.

(** [process.env] *)
Record Config := {
  NODE_ENV : option string;
  ADMIN_USERNAME : option string;
  ADMIN_PASSWORD : option string
}.

(** What the outside world decides during one request. *)
Record Env := {
  now : Z;
  mail_ok : bool;
  session_store_ok : bool;
  salt : string;
  fresh_secret : string;
  db_connected : bool;
  uptime : Z;
  stack : string
}.

(** ** The data model *)

Record Booking := {
  b_id : string;
  b_clientName : Json;
  b_clientEmail : Json;
  b_clientPhone : Json;
  b_eventType : Json;
  b_eventDate : option Z;
  b_package : Json;
  b_startTime : Json;
  b_endTime : Json;
  b_location : Json;
  b_additionalNotes : Json;
  b_status : string;
  b_createdAt : Z;
  b_updatedAt : option Z
}.

Record Message := {
  m_id : string;
  m_name : string;
  m_email : string;
  m_phone : Json;
  m_subject : Json;
  m_message : string;
  m_date : Z;
  m_read : bool;
  m_archived : bool;
  m_readAt : option Z
}.

(** [let bookings], [let messages], and how often [uuidv4] has been called. *)
Record Store := {
  bookings : list Booking;
  messages : list Message;
  uuid_calls : nat
}.

Record Session := {
  admin : bool;
  csrfSecret : option string
}.

Definition empty_session : Session := {| admin := false; csrfSecret := None |}.

Inductive Method := GET | HEAD | POST | OPTIONS | OTHER.

Record Request := {
  method : Method;
  path : list string;
  query : gmap string Json;
  x_csrf_token : option string;
  body : gmap string Json
}.

Inductive Body :=
| BJson (v : Json)
| BText (v : Json) (indent : nat)
| BFile (name : string)
| BDefault
| BEmpty.

Record Response := {
  status : nat;
  headers : list (string * string);
  payload : Body
}.

(** Keys of a JSON response body. *)
Definition body_field (k : string) (b : Body) : option Json :=
  match b with
  | BJson (JObj l) => snd <$> List.find (fun kv => String.eqb (fst kv) k) l
  | _ => None
  end.

Definition day : Z := 24 * 60 * 60 * 1000.

Definition opt_json (o : option Z) : Json :=
  match o with
  | Some t => JDate (Some t)
  | None => JUndef
  end.

Definition booking_json (b : Booking) : list (string * Json) :=
  [("id", JStr (b_id b));
   ("clientName", b_clientName b);
   ("clientEmail", b_clientEmail b);
   ("clientPhone", b_clientPhone b);
   ("eventType", b_eventType b);
   ("eventDate", JDate (b_eventDate b));
   ("package", b_package b);
   ("startTime", b_startTime b);
   ("endTime", b_endTime b);
   ("location", b_location b);
   ("additionalNotes", b_additionalNotes b);
   ("status", JStr (b_status b));
   ("createdAt", JDate (Some (b_createdAt b)));
   ("updatedAt", opt_json (b_updatedAt b))].

Definition message_json (m : Message) : list (string * Json) :=
  [("id", JStr (m_id m));
   ("name", JStr (m_name m));
   ("email", JStr (m_email m));
   ("phone", m_phone m);
   ("subject", m_subject m);
   ("message", JStr (m_message m));
   ("date", JDate (Some (m_date m)));
   ("read", JBool (m_read m));
   ("archived", JBool (m_archived m));
   ("readAt", opt_json (m_readAt m))].

(** ** Generic helpers *)

(** [Array.prototype.findIndex]; [None] is the [-1] of the source. *)
Fixpoint findIndex {A : Type} (p : A → bool) (l : list A) : option nat :=
  match l with
  | [] => None
  | x :: rest => if p x then Some 0%nat else S <$> findIndex p rest
  end.

(** [Array.prototype.sort] with a comparator: the sort is stable, so with a
    consistent comparator its result is the one computed here.  [cmp a b] is
    the comparator's number, an undefined difference counting as zero. *)
Section Sort.
Context {A : Type} (cmp : A → A → Z).

Fixpoint insert_sorted (x : A) (l : list A) : list A :=
  match l with
  | [] => [x]
  | y :: rest => if cmp x y <=? 0 then x :: y :: rest else y :: insert_sorted x rest
  end.

Definition js_sort (l : list A) : list A := foldr insert_sorted [] l.

End Sort.

(** Route paths are matched without regard to the case of ASCII letters. *)
Definition lower_ascii (a : Ascii.ascii) : Ascii.ascii :=
  let n := Ascii.N_of_ascii a in
  if ((65 <=? n) && (n <=? 90))%N then Ascii.ascii_of_N (n + 32) else a.

Fixpoint lower (s : string) : string :=
  match s with
  | EmptyString => EmptyString
  | String a rest => String (lower_ascii a) (lower rest)
  end.

Definition ci_eqb (a b : string) : bool := String.eqb (lower a) (lower b).

(** The percent sign starts every escape of a URL. *)
Fixpoint has_percent (s : string) : bool :=
  match s with
  | String a rest => Ascii.eqb a (Ascii.ascii_of_nat 37) || has_percent rest
  | EmptyString => false
  end.

(** The URL path a list of segments stands for. *)
Definition path_string (p : list string) : string :=
  match p with
  | [] => "/"
  | _ => foldr (λ seg rest, "/" +:+ seg +:+ rest) "" p
  end.

(** ** Exceptions inside a [try] block

    A computation over the store that may throw; what it did to the store
    before throwing stays done. *)
Definition Try (A : Type) : Type := Store → Store * option A.

#[global] Instance Try_ret : MRet Try := λ A a st, (st, Some a).
#[global] Instance Try_bind : MBind Try := λ A B k m st,
  match m st with
  | (st', Some a) => k a st'
  | (st', None) => (st', None)
  end.

(** A call that throws a TypeError when its result is [None]. *)
Definition lift {A : Type} (o : option A) : Try A := λ st, (st, o).

(** [try { body } catch (error) { handler }] *)
Definition try_catch {A : Type} (body : Try A) (handler : A) (st : Store) : Store * A :=
  match body st with
  | (st', Some r) => (st', r)
  | (st', None) => (st', handler)
  end.

(** ** Requests on their way through the middleware chain *)

(** What travels with a request: the parameters of the matched route, the
    headers set on the response so far, and the token [req.csrfToken()]
    returns once the CSRF middleware has installed it. *)
Record Ctx := {
  req : Request;
  params : list string;
  out_headers : list (string * string);
  csrf_token : option string
}.

Record Error := {
  err_code : option string;
  err_status : option nat;
  err_message : string
}.

Record Result := {
  store_after : Store;
  session_after : Session;
  response : Response
}.

(** A middleware calls [next()], answers, or calls [next(err)]. *)
Inductive Outcome :=
| Next (c : Ctx) (sess : Session) (st : Store)
| Done (r : Result)
| Raise (e : Error) (c : Ctx) (sess : Session) (st : Store).

Definition Middleware : Type := Env → Ctx → Session → Store → Outcome.

Definition with_header (h : string * string) (c : Ctx) : Ctx :=
  {| req := req c; params := params c;
     out_headers := out_headers c ++ [h]; csrf_token := csrf_token c |}.

Definition with_params (ps : list string) (c : Ctx) : Ctx :=
  {| req := req c; params := ps;
     out_headers := out_headers c; csrf_token := csrf_token c |}.

Definition with_token (t : string) (c : Ctx) : Ctx :=
  {| req := req c; params := params c;
     out_headers := out_headers c; csrf_token := Some t |}.

(** [res.status(code).json(fields)] *)
Definition json (c : Ctx) (code : nat) (fields : list (string * Json)) : Response :=
  {| status := code; headers := out_headers c; payload := BJson (JObj fields) |}.

(** [res.json(array)] *)
Definition json_array (c : Ctx) (items : list Json) : Response :=
  {| status := 200; headers := out_headers c; payload := BJson (JArr items) |}.

Definition answer (sess : Session) (st : Store) (r : Response) : Outcome :=
  Done {| store_after := st; session_after := sess; response := r |}.

(** [req.csrfToken()] *)
Definition csrfToken (c : Ctx) : Json :=
  match csrf_token c with
  | Some t => JStr t
  | None => JUndef
  end.

(** [req.params.id] *)
Definition param_id (c : Ctx) : Json :=
  match params c with
  | i :: _ => JStr i
  | [] => JUndef
  end.

(** ** Route patterns *)

Inductive Seg := Lit (s : string) | Param.

Inductive Pattern :=
| Exact (segs : list Seg)
| Under (prefix : list string)
| Star.

(** The request path is the URL path split at its slashes; one trailing
    slash is allowed, and a parameter is a non-empty segment. *)
Fixpoint match_exact (segs : list Seg) (p : list string) : option (list string) :=
  match segs, p with
  | [], [] => Some []
  | [], [s] => if String.eqb s "" then Some [] else None
  | Lit s :: segs', x :: p' => if ci_eqb s x then match_exact segs' p' else None
  | Param :: segs', x :: p' =>
      if String.eqb x "" then None else cons x <$> match_exact segs' p'
  | _, _ => None
  end.

Fixpoint match_under (prefix p : list string) : bool :=
  match prefix, p with
  | [], _ => true
  | s :: prefix', x :: p' => ci_eqb s x && match_under prefix' p'
  | _ :: _, [] => false
  end.

Definition match_pattern (pat : Pattern) (p : list string) : option (list string) :=
  match pat with
  | Exact segs => match_exact segs p
  | Under prefix => if match_under prefix p then Some [] else None
  | Star => Some []
  end.

(** [app.get] routes also serve HEAD; [app.use] layers serve every method. *)
Definition method_ok (m : option Method) (r : Method) : bool :=
  match m, r with
  | None, _ => true
  | Some GET, (GET | HEAD) => true
  | Some POST, POST => true
  | Some OPTIONS, OPTIONS => true
  | Some HEAD, HEAD => true
  | _, _ => false
  end.

Record Layer := {
  l_method : option Method;
  l_pattern : Pattern;
  l_stack : list Middleware
}.

Inductive Match :=
| NoMatch
| BadParam (raw : string)
| Matched (ps : list string).

(** First raw parameter the decoder rejects, or all of them decoded. *)
Fixpoint decode_params (decode : string → option string) (raw : list string)
  : string + list string :=
  match raw with
  | [] => inr []
  | x :: rest =>
      match decode x with
      | None => inl x
      | Some d =>
          match decode_params decode rest with
          | inl bad => inl bad
          | inr ds => inr (d :: ds)
          end
      end
  end.

(** A segment the decoder accepts.  [decodeURIComponent] rewrites escapes
    and nothing else, so a segment without a percent sign is not its
    business. *)
Definition decodes (decode : string → option string) (seg : string) : bool :=
  negb (has_percent seg) || bool_decide (is_Some (decode seg)).

(** The path is matched and its parameters decoded before the method is
    looked at.  The parameter of the pattern ['*'] is the whole path: no
    escape contains a slash, so the path is decoded exactly when each of its
    segments is, and the error names the path.  The handlers registered
    under ['*'] read no parameter. *)
Definition match_layer (decode : string → option string) (L : Layer) (r : Request) : Match :=
  match l_pattern L with
  | Star =>
      if forallb (decodes decode) (path r)
      then if method_ok (l_method L) (method r) then Matched [] else NoMatch
      else BadParam (path_string (path r))
  | pat =>
      match match_pattern pat (path r) with
      | None => NoMatch
      | Some raw =>
          match decode_params decode raw with
          | inl bad => BadParam bad
          | inr ps => if method_ok (l_method L) (method r) then Matched ps else NoMatch
          end
      end
  end.

Fixpoint run_stack (mws : list Middleware) (env : Env) (c : Ctx) (sess : Session) (st : Store)
  : Outcome :=
  match mws with
  | [] => Next c sess st
  | mw :: rest =>
      match mw env c sess st with
      | Next c' sess' st' => run_stack rest env c' sess' st'
      | out => out
      end
  end.

(** ** The server *)

Section Server.

Context (P : Platform) (cfg : Config).

(** String conversion inside a template literal.  A parsed object carries
    no functions, so one with an own [toString] key cannot be converted and
    the conversion throws. *)
Fixpoint to_string (v : Json) : option string :=
  match v with
  | JUndef => Some "undefined"
  | JNull => Some "null"
  | JBool b => Some (if b then "true" else "false")
  | JNum z => Some (pretty z)
  | JStr s => Some s
  | JDate t => Some (Date_toString P t)
  | JArr l =>
      join "," <$>
        (fix elems (l : list Json) : option (list string) :=
           match l with
           | [] => Some []
           | x :: rest =>
               s ← match x with
                   | JUndef | JNull => Some ""
                   | _ => to_string x
                   end;
               ss ← elems rest;
               Some (s :: ss)
           end) l
  | JObj l => if has_key "toString" l then None else Some "[object Object]"
  end.

(** [v.trim()]: only strings have the method. *)
Definition js_trim (v : Json) : option string :=
  match v with
  | JStr s => Some (trim P s)
  | _ => None
  end.

(** [new Date(v)]; the outer [None] is a conversion that throws. *)
Definition new_Date (v : Json) : option (option Z) :=
  match v with
  | JUndef => Some None
  | JNull => Some (Some 0)
  | JBool b => Some (Some (if b then 1 else 0))
  | JNum z => Some (if Z.abs z <=? 8640000000000000 then Some z else None)
  | JStr s => Some (Date_parse P s)
  | JDate t => Some t
  | JArr _ | JObj _ => Date_parse P <$> to_string v
  end.

(** [uuidv4()] *)
Definition call_uuidv4 : Try string := λ st,
  ({| bookings := bookings st; messages := messages st;
      uuid_calls := S (uuid_calls st) |},
   Some (uuidv4 P (uuid_calls st))).

(** *** Sample data *)

Definition initializeSampleData (t0 : Z) : Store :=
  {| bookings :=
       [ {| b_id := uuidv4 P 0;
            b_clientName := JStr "John Doe";
            b_clientEmail := JStr "john@example.com";
            b_clientPhone := JStr "555-0101";
            b_eventType := JStr "Wedding";
            b_eventDate := Some (t0 + 7 * day);
            b_package := JStr "Premium";
            b_startTime := JUndef;
            b_endTime := JUndef;
            b_location := JUndef;
            b_additionalNotes := JStr "Outdoor ceremony requested";
            b_status := "pending";
            b_createdAt := t0;
            b_updatedAt := None |};
         {| b_id := uuidv4 P 1;
            b_clientName := JStr "Jane Smith";
            b_clientEmail := JStr "jane@example.com";
            b_clientPhone := JStr "555-0202";
            b_eventType := JStr "Portrait";
            b_eventDate := Some (t0 + 14 * day);
            b_package := JStr "Basic";
            b_startTime := JUndef;
            b_endTime := JUndef;
            b_location := JUndef;
            b_additionalNotes := JStr "";
            b_status := "confirmed";
            b_createdAt := t0;
            b_updatedAt := None |} ];
     messages :=
       [ {| m_id := uuidv4 P 2;
            m_name := "Sarah Johnson";
            m_email := "sarah@example.com";
            m_phone := JUndef;
            m_subject := JStr "Wedding Inquiry";
            m_message := "I would like information about your wedding packages.";
            m_date := t0;
            m_read := false;
            m_archived := false;
            m_readAt := None |};
         {| m_id := uuidv4 P 3;
            m_name := "Mike Brown";
            m_email := "mike@example.com";
            m_phone := JUndef;
            m_subject := JStr "Availability Question";
            m_message := "Are you available for a corporate event on June 15th?";
            m_date := t0 - 2 * day;
            m_read := true;
            m_archived := false;
            m_readAt := None |} ];
     uuid_calls := 4 |}.

(** *** Middleware *)

(** The [cors] middleware answers every preflight request itself. *)
Definition cors : Middleware := λ env c sess st,
  match method (req c) with
  | OPTIONS => answer sess st {| status := 204; headers := out_headers c; payload := BEmpty |}
  | _ => Next c sess st
  end.

(** The [value] option given to [csrf]: header first, then the body field. *)
Definition csrf_value (r : Request) : Json :=
  match x_csrf_token r with
  | Some s => if String.eqb s "" then field (body r) "_csrf" else JStr s
  | None => field (body r) "_csrf"
  end.

Definition verifytoken (secret : string) (v : Json) : bool :=
  match v with
  | JStr s => negb (String.eqb s "") && tokens_verify P secret s
  | _ => false
  end.

Definition ignored_method (m : Method) : bool :=
  match m with
  | GET | HEAD | OPTIONS => true
  | _ => false
  end.

(** [csurf] with the session as its store: it makes sure the session has a
    secret, installs [req.csrfToken] and then checks the presented token. *)
Definition csrfProtection : Middleware := λ env c sess st,
  let secret := default (fresh_secret env) (csrfSecret sess) in
  let sess' := {| admin := admin sess; csrfSecret := Some secret |} in
  let c' := with_token (tokens_create P secret (salt env)) c in
  if ignored_method (method (req c)) || verifytoken secret (csrf_value (req c))
  then Next c' sess' st
  else Raise {| err_code := Some "EBADCSRFTOKEN"; err_status := Some 403%nat;
                err_message := "invalid csrf token" |} c' sess' st.

Definition noCache : Middleware := λ env c sess st,
  Next (with_header ("Cache-Control", "no-store") c) sess st.

Definition authenticate : Middleware := λ env c sess st,
  if negb (admin sess)
  then answer sess st (json c 401 [("error", JStr "Authentication required");
                                   ("authenticated", JBool false)])
  else Next c sess st.

(** The last layer: [app.use((err, req, res, next) => ...)] *)
Definition error_handler (e : Error) (env : Env) (c : Ctx) (sess : Session) (st : Store)
  : Result :=
  {| store_after := st;
     session_after := sess;
     response :=
       if bool_decide (err_code e = Some "EBADCSRFTOKEN")
       then json c 403 [("error", JStr "Invalid CSRF token"); ("csrfToken", csrfToken c)]
       else json c (match err_status e with
                    | Some (S n) => S n
                    | _ => 500%nat
                    end)
                   ([("error", JStr (if String.eqb (err_message e) ""
                                     then "Internal server error" else err_message e))]
                    ++ (if bool_decide (NODE_ENV cfg = Some "development")
                        then [("details", JStr (stack env))] else [])) |}.

(** *** Token, health and login routes *)

Definition get_csrf_token : Middleware := λ env c sess st,
  answer sess st (json c 200 [("token", csrfToken c);
                              ("expires", JDate (Some (now env + day)))]).

Definition get_health : Middleware := λ env c sess st,
  answer sess st
    (json c 200 [("status", JStr "healthy");
                 ("database", JStr (if db_connected env then "connected" else "disconnected"));
                 ("sessionStore", JStr "active");
                 ("uptime", JNum (uptime env));
                 ("timestamp", JDate (Some (now env)))]).

Definition env_json (e : option string) : Json :=
  match e with
  | Some s => JStr s
  | None => JUndef
  end.

Definition get_check_auth : Middleware := λ env c sess st,
  answer sess st
    (json c 200 [("authenticated", JBool (admin sess));
                 ("username", if admin sess then env_json (ADMIN_USERNAME cfg) else JNull);
                 ("csrfValid", JBool true)]).

(** [req.session.regenerate] replaces the session whether or not the store
    reports an error. *)
Definition post_login : Middleware := λ env c sess st,
  let username := field (body (req c)) "username" in
  let password := field (body (req c)) "password" in
  if strict_eq_env username (ADMIN_USERNAME cfg) && strict_eq_env password (ADMIN_PASSWORD cfg)
  then
    if session_store_ok env
    then answer {| admin := true; csrfSecret := None |} st
           (json c 200 [("success", JBool true);
                        ("expires", JDate (Some (now env + day)))])
    else answer empty_session st (json c 500 [("error", JStr "Session error")])
  else answer sess st (json c 401 [("error", JStr "Invalid credentials");
                                   ("authenticated", JBool false)]).

Definition post_logout : Middleware := λ env c sess st,
  if session_store_ok env
  then answer empty_session st (json c 200 [("success", JBool true)])
  else answer sess st (json c 500 [("error", JStr "Logout failed")]).

(** *** Bookings *)

Definition date_diff (x y : option Z) : Z :=
  match x, y with
  | Some a, Some b => a - b
  | _, _ => 0
  end.

(** [(a, b) => new Date(b.eventDate) - new Date(a.eventDate)] *)
Definition by_eventDate_desc (a b : Booking) : Z :=
  date_diff (b_eventDate b) (b_eventDate a).

Definition bookings_array (l : list Booking) : list Json :=
  (λ b, JObj (booking_json b)) <$> l.

Definition get_bookings : Middleware := λ env c sess st,
  let q := field (query (req c)) "status" in
  let '(st', r) :=
    try_catch
      (filteredBookings ←
         (if truthy q
          then match q, bookings st with
               | JStr s, all =>
                   mret (List.filter
                           (λ b, String.eqb (toLowerCase P (b_status b)) (toLowerCase P s))
                           all)
               | _, [] => mret []
               | _, _ :: _ => lift None
               end
          else mret (bookings st)) : Try (list Booking);
       mret (json_array c (bookings_array (js_sort by_eventDate_desc filteredBookings))))
      (json c 500 [("error", JStr "Failed to fetch bookings")]) st in
  answer sess st' r.

Definition get_booking_by_id : Middleware := λ env c sess st,
  match List.find (λ b, strict_eq_str (param_id c) (b_id b)) (bookings st) with
  | None => answer sess st (json c 404 [("error", JStr "Booking not found")])
  | Some booking => answer sess st (json c 200 (booking_json booking))
  end.

(** [{ ...booking, status: 'confirmed', updatedAt: new Date() }] *)
Definition confirm (t : Z) (b : Booking) : Booking :=
  {| b_id := b_id b;
     b_clientName := b_clientName b;
     b_clientEmail := b_clientEmail b;
     b_clientPhone := b_clientPhone b;
     b_eventType := b_eventType b;
     b_eventDate := b_eventDate b;
     b_package := b_package b;
     b_startTime := b_startTime b;
     b_endTime := b_endTime b;
     b_location := b_location b;
     b_additionalNotes := b_additionalNotes b;
     b_status := "confirmed";
     b_createdAt := b_createdAt b;
     b_updatedAt := Some t |}.

Definition post_booking_confirm : Middleware := λ env c sess st,
  match findIndex (λ b, strict_eq_str (param_id c) (b_id b)) (bookings st) with
  | None => answer sess st (json c 404 [("error", JStr "Booking not found")])
  | Some index =>
      match bookings st !! index with
      | None => answer sess st (json c 500 [("error", JStr "Failed to confirm booking");
                                            ("csrfToken", csrfToken c)])
      | Some b =>
          let b' := confirm (now env) b in
          answer sess
            {| bookings := <[index := b']> (bookings st);
               messages := messages st;
               uuid_calls := uuid_calls st |}
            (json c 200 (booking_json b' ++ [("csrfToken", csrfToken c)]))
      end
  end.

Definition get_bookings_export : Middleware := λ env c sess st,
  let id := field (query (req c)) "id" in
  let failed := json c 500 [("error", JStr "Export failed")] in
  if truthy id
  then match List.find (λ b, strict_eq_str id (b_id b)) (bookings st) with
       | None => answer sess st (json c 404 [("error", JStr "Booking not found")])
       | Some booking =>
           match to_string id with
           | None => answer sess st failed
           | Some s =>
               answer sess st
                 {| status := 200;
                    headers := out_headers c ++
                      [("Content-Type", "application/json");
                       ("Content-Disposition",
                        "attachment; filename=booking" +:+ ("-" +:+ s) +:+ ".json")];
                    payload := BText (JObj (booking_json booking)) 2 |}
           end
       end
  else answer sess st
         {| status := 200;
            headers := out_headers c ++
              [("Content-Type", "application/json");
               ("Content-Disposition", "attachment; filename=booking" +:+ "s" +:+ ".json")];
            payload := BText (JArr (bookings_array (bookings st))) 2 |}.

(** *** Messages *)

(** [(a, b) => new Date(b.date) - new Date(a.date)] *)
Definition by_date_desc (a b : Message) : Z := m_date b - m_date a.

Definition messages_array (l : list Message) : list Json :=
  (λ m, JObj (message_json m)) <$> l.

Definition filter_messages (q : gmap string Json) (l : list Message) : list Message :=
  let l1 := if negb (strict_eq_str (field q "includeArchived") "true")
            then List.filter (λ m, negb (m_archived m)) l else l in
  if strict_eq_str (field q "unread") "true"
  then List.filter (λ m, negb (m_read m)) l1 else l1.

Definition get_messages : Middleware := λ env c sess st,
  answer sess st
    (json_array c
       (messages_array (js_sort by_date_desc (filter_messages (query (req c)) (messages st))))).

(** [{ ...message, read: true, readAt: new Date() }] *)
Definition mark_read (t : Z) (m : Message) : Message :=
  {| m_id := m_id m;
     m_name := m_name m;
     m_email := m_email m;
     m_phone := m_phone m;
     m_subject := m_subject m;
     m_message := m_message m;
     m_date := m_date m;
     m_read := true;
     m_archived := m_archived m;
     m_readAt := Some t |}.

Definition get_message_by_id : Middleware := λ env c sess st,
  match findIndex (λ m, strict_eq_str (param_id c) (m_id m)) (messages st) with
  | None => answer sess st (json c 404 [("error", JStr "Message not found")])
  | Some index =>
      match messages st !! index with
      | None => answer sess st (json c 500 [("error", JStr "Failed to fetch message")])
      | Some m =>
          let m' := mark_read (now env) m in
          answer sess
            {| bookings := bookings st;
               messages := <[index := m']> (messages st);
               uuid_calls := uuid_calls st |}
            (json c 200 (message_json m'))
      end
  end.

Definition post_message_mark_read : Middleware := λ env c sess st,
  match findIndex (λ m, strict_eq_str (param_id c) (m_id m)) (messages st) with
  | None => answer sess st (json c 404 [("error", JStr "Message not found")])
  | Some index =>
      match messages st !! index with
      | None => answer sess st (json c 500 [("error", JStr "Failed to mark message as read");
                                            ("csrfToken", csrfToken c)])
      | Some m =>
          let m' := mark_read (now env) m in
          answer sess
            {| bookings := bookings st;
               messages := <[index := m']> (messages st);
               uuid_calls := uuid_calls st |}
            (json c 200 [("success", JBool true);
                         ("message", JStr "Message marked as read");
                         ("data", JObj (message_json m'));
                         ("csrfToken", csrfToken c)])
      end
  end.

(** *** Confirmation email *)

Record Template := {
  t_subject : string;
  t_html : list string
}.

(** The interpolated pieces of the HTML, in order; the fixed text between
    them is left out. *)
Definition getContactEmailTemplate (t : Z) (name subject message : Json) : option Template :=
  n ← to_string name;
  s ← to_string subject;
  m ← to_string message;
  Some {| t_subject := "Thank you for contacting Ami Photography!";
          t_html := [n; s; m; toLocaleDateString P (Some t)] |}.

Definition getBookingEmailTemplate
  (name eventType date startTime endTime location package details : Json) : option Template :=
  n ← to_string name;
  e ← to_string eventType;
  d ← new_Date date;
  s ← to_string startTime;
  f ← to_string endTime;
  l ← to_string location;
  p ← to_string package;
  x ← to_string (js_or details (JStr "None"));
  Some {| t_subject := "Booking Request Confirmation - Ami Photography";
          t_html := [n; e; toLocaleDateString P d; s; f; l; p; x] |}.

Record EmailResult := {
  success : bool
}.

(** The relay's failure is caught inside the function and reported in the
    result. *)
Definition sendConfirmationEmail (env : Env) (email : Json) (template : Template)
  : EmailResult :=
  {| success := mail_ok env |}.

(** *** Public submissions *)

Definition push_message (m : Message) : Try unit := λ st,
  ({| bookings := bookings st; messages := messages st ++ [m];
      uuid_calls := uuid_calls st |}, Some tt).

Definition push_booking (b : Booking) : Try unit := λ st,
  ({| bookings := bookings st ++ [b]; messages := messages st;
      uuid_calls := uuid_calls st |}, Some tt).

Definition post_submit_contact : Middleware := λ env c sess st,
  let name := field (body (req c)) "name" in
  let email := field (body (req c)) "email" in
  let phone := field (body (req c)) "phone" in
  let subject := field (body (req c)) "subject" in
  let message := field (body (req c)) "message" in
  let '(st', r) :=
    try_catch
      (if negb (truthy name) || negb (truthy email) || negb (truthy message)
       then mret (json c 400 [("success", JBool false);
                              ("message", JStr "Missing required fields (name, email, message)");
                              ("csrfToken", csrfToken c)])
       else
         id ← call_uuidv4;
         name' ← lift (js_trim name);
         email' ← lift (js_trim email);
         phone' ← lift (if truthy phone then JStr <$> js_trim phone else Some (JStr ""));
         message' ← lift (js_trim message);
         let newMessage :=
           {| m_id := id;
              m_name := name';
              m_email := email';
              m_phone := phone';
              m_subject := js_or subject (JStr "General Inquiry");
              m_message := message';
              m_date := now env;
              m_read := false;
              m_archived := false;
              m_readAt := None |} in
         _ ← push_message newMessage;
         emailTemplate ← lift (getContactEmailTemplate (now env) name
                                 (js_or subject (JStr "General Inquiry")) message);
         let emailResult := sendConfirmationEmail env email emailTemplate in
         mret (json c 201 [("success", JBool true);
                           ("message", JStr "Message sent successfully!");
                           ("messageId", JStr (m_id newMessage));
                           ("emailSent", JBool (success emailResult));
                           ("csrfToken", csrfToken c)]))
      (json c 500 [("success", JBool false);
                   ("message", JStr "Failed to send message");
                   ("csrfToken", csrfToken c)]) st in
  answer sess st' r.

Definition post_submit_booking : Middleware := λ env c sess st,
  let name := field (body (req c)) "name" in
  let email := field (body (req c)) "email" in
  let phone := field (body (req c)) "phone" in
  let eventType := field (body (req c)) "eventType" in
  let date := field (body (req c)) "date" in
  let packageType := field (body (req c)) "package" in
  let startTime := field (body (req c)) "startTime" in
  let endTime := field (body (req c)) "endTime" in
  let location := field (body (req c)) "location" in
  let details := field (body (req c)) "details" in
  let '(st', r) :=
    try_catch
      (if negb (truthy name) || negb (truthy email) || negb (truthy phone)
          || negb (truthy eventType) || negb (truthy date) || negb (truthy packageType)
          || negb (truthy startTime) || negb (truthy endTime) || negb (truthy location)
       then mret (json c 400 [("success", JBool false);
                              ("message", JStr "Missing required fields");
                              ("csrfToken", csrfToken c)])
       else
         id ← call_uuidv4;
         d ← lift (to_string date);
         s ← lift (to_string startTime);
         let newBooking :=
           {| b_id := id;
              b_clientName := name;
              b_clientEmail := email;
              b_clientPhone := phone;
              b_eventType := eventType;
              b_eventDate := Date_parse P (d +:+ " " +:+ s);
              b_package := packageType;
              b_startTime := startTime;
              b_endTime := endTime;
              b_location := location;
              b_additionalNotes := js_or details (JStr "");
              b_status := "pending";
              b_createdAt := now env;
              b_updatedAt := None |} in
         _ ← push_booking newBooking;
         emailTemplate ← lift (getBookingEmailTemplate name eventType date startTime
                                 endTime location packageType details);
         let emailResult := sendConfirmationEmail env email emailTemplate in
         mret (json c 201 [("success", JBool true);
                           ("message", JStr "Booking request received successfully!");
                           ("bookingId", JStr (b_id newBooking));
                           ("emailSent", JBool (success emailResult));
                           ("csrfToken", csrfToken c)]))
      (json c 500 [("success", JBool false);
                   ("message", JStr "Failed to process booking");
                   ("csrfToken", csrfToken c)]) st in
  answer sess st' r.

(** *** The last layers *)

(** [res.sendFile] adds its own [Cache-Control] unless the response has
    one already. *)
Definition sent_file_headers (hs : list (string * string)) : list (string * string) :=
  if existsb (λ h, String.eqb (fst h) "Cache-Control") hs then hs
  else hs ++ [("Cache-Control", "public, max-age=0")].

Definition serve_index : Middleware := λ env c sess st,
  answer sess st
    {| status := 200; headers := sent_file_headers (out_headers c);
       payload := BFile "index.html" |}.

Definition api_not_found : Middleware := λ env c sess st,
  answer sess st (json c 404 [("error", JStr "Endpoint not found")]).

(** *** The application: its layers in the order of registration *)

Definition route (m : Method) (segs : list Seg) (stack : list Middleware) : Layer :=
  {| l_method := Some m; l_pattern := Exact segs; l_stack := stack |}.

Definition use (prefix : list string) (stack : list Middleware) : Layer :=
  {| l_method := None; l_pattern := Under prefix; l_stack := stack |}.

Definition app : list Layer :=
  [ use [] [cors];
    (* app.options('*', cors()) *)
    {| l_method := Some OPTIONS; l_pattern := Star; l_stack := [cors] |};
    route GET [Lit "api"; Lit "csrf-token"] [csrfProtection; get_csrf_token];
    route GET [Lit "csrf-token"] [csrfProtection; get_csrf_token];
    route GET [Lit "api"; Lit "admin"; Lit "health"] [get_health];
    route GET [Lit "api"; Lit "admin"; Lit "check-auth"] [noCache; get_check_auth];
    route POST [Lit "api"; Lit "admin"; Lit "login"] [noCache; post_login];
    use ["api"; "admin"] [authenticate; noCache];
    route GET [Lit "api"; Lit "admin"; Lit "bookings"] [get_bookings];
    route GET [Lit "api"; Lit "admin"; Lit "bookings"; Param] [get_booking_by_id];
    route POST [Lit "api"; Lit "admin"; Lit "bookings"; Param; Lit "confirm"]
      [csrfProtection; post_booking_confirm];
    route GET [Lit "api"; Lit "admin"; Lit "bookings"; Lit "export"] [get_bookings_export];
    route GET [Lit "api"; Lit "admin"; Lit "messages"] [get_messages];
    route GET [Lit "api"; Lit "admin"; Lit "messages"; Param] [get_message_by_id];
    route POST [Lit "api"; Lit "admin"; Lit "messages"; Param; Lit "mark-read"]
      [csrfProtection; post_message_mark_read];
    route POST [Lit "api"; Lit "admin"; Lit "logout"] [post_logout];
    route POST [Lit "api"; Lit "submit-contact"] [csrfProtection; post_submit_contact];
    route POST [Lit "submit-booking"] [csrfProtection; post_submit_booking] ]
  ++ (if bool_decide (NODE_ENV cfg = Some "production")
      then [ {| l_method := Some GET; l_pattern := Star; l_stack := [serve_index] |} ]
      else [])
  ++ [ use ["api"] [api_not_found] ].

(** No layer answered: Express's own 404 page. *)
Definition default_404 (c : Ctx) (sess : Session) (st : Store) : Result :=
  {| store_after := st; session_after := sess;
     response := {| status := 404; headers := out_headers c; payload := BDefault |} |}.

Definition decode_error (raw : string) : Error :=
  {| err_code := None; err_status := Some 400%nat;
     err_message := "Failed to decode param '" +:+ raw +:+ "'" |}.

(** Layers are tried in order.  An error skips every remaining layer but
    the error handler, which is the last one. *)
Fixpoint dispatch (layers : list Layer) (env : Env) (c : Ctx) (sess : Session) (st : Store)
  : Result :=
  match layers with
  | [] => default_404 c sess st
  | L :: rest =>
      match match_layer (decodeURIComponent P) L (req c) with
      | NoMatch => dispatch rest env c sess st
      | BadParam raw => error_handler (decode_error raw) env c sess st
      | Matched ps =>
          match run_stack (l_stack L) env (with_params ps c) sess st with
          | Next c' sess' st' => dispatch rest env c' sess' st'
          | Done r => r
          | Raise e c' sess' st' => error_handler e env c' sess' st'
          end
      end
  end.

(** One request, from the first layer to the response. *)
Definition handle (env : Env) (r : Request) (sess : Session) (st : Store) : Result :=
  dispatch app env {| req := r; params := []; out_headers := []; csrf_token := None |} sess st.

End Server.

Arguments handle P cfg env r sess st : assert.

(** ** A concrete platform to run the model on

    Stand-ins for the libraries, used only to evaluate the server on
    concrete requests. *)

Definition is_space (a : Ascii.ascii) : bool :=
  let n := Ascii.N_of_ascii a in
  ((n =? 32) || ((9 <=? n) && (n <=? 13)))%N.

Fixpoint trim_start (s : string) : string :=
  match s with
  | String a rest => if is_space a then trim_start rest else s
  | EmptyString => EmptyString
  end.

Fixpoint trim_end (s : string) : string :=
  match s with
  | String a rest =>
      match trim_end rest with
      | EmptyString => if is_space a then EmptyString else String a EmptyString
      | rest' => String a rest'
      end
  | EmptyString => EmptyString
  end.

Definition ends_with (suffix s : string) : bool :=
  let n := String.length s in
  let k := String.length suffix in
  (k <=? n)%nat && String.eqb (String.substring (n - k) k s) suffix.

Definition show_date (t : option Z) : string :=
  match t with
  | Some z => pretty z
  | None => "Invalid Date"
  end.

Definition sample_platform : Platform :=
  {| uuidv4 := λ n, "uuid-" +:+ pretty n;
     trim := λ s, trim_end (trim_start s);
     toLowerCase := lower;
     Date_parse := λ _, None;
     Date_toString := show_date;
     toLocaleDateString := show_date;
     decodeURIComponent := λ s, if has_percent s then None else Some s;
     tokens_verify := λ secret token, ends_with ("-" +:+ secret) token;
     tokens_create := λ secret salt, salt +:+ "-" +:+ secret |}.

Definition sample_config : Config :=
  {| NODE_ENV := Some "development";
     ADMIN_USERNAME := Some "admin";
     ADMIN_PASSWORD := Some "secret" |}.

Definition sample_env : Env :=
  {| now := 1000; mail_ok := true; session_store_ok := true; salt := "salt";
     fresh_secret := "fresh"; db_connected := false; uptime := 5; stack := "trace" |}.

Definition sample_store : Store := initializeSampleData sample_platform 0.

Definition admin_session : Session := {| admin := true; csrfSecret := Some "s3" |}.

Definition visitor_session : Session := {| admin := false; csrfSecret := Some "s3" |}.

Definition request (m : Method) (p : list string) (q : list (string * Json))
  (token : option string) (b : list (string * Json)) : Request :=
  {| method := m; path := p; query := list_to_map q; x_csrf_token := token;
     body := list_to_map b |}.

(** ** Vocabulary of the properties *)

(** The token a request presents passes the CSRF middleware's check. *)
Definition csrf_ok (P : Platform) (env : Env) (r : Request) (sess : Session) : bool :=
  verifytoken P (default (fresh_secret env) (csrfSecret sess)) (csrf_value r).

(** The four POST endpoints that change a collection; [seg] is the path
    segment that carries the identifier. *)
Inductive Endpoint :=
| ConfirmBooking (seg : string)
| MarkRead (seg : string)
| SubmitContact
| SubmitBooking.

Definition endpoint_path (e : Endpoint) : list string :=
  match e with
  | ConfirmBooking seg => ["api"; "admin"; "bookings"; seg; "confirm"]
  | MarkRead seg => ["api"; "admin"; "messages"; seg; "mark-read"]
  | SubmitContact => ["api"; "submit-contact"]
  | SubmitBooking => ["submit-booking"]
  end.

Definition admin_only (e : Endpoint) : bool :=
  match e with
  | ConfirmBooking _ | MarkRead _ => true
  | SubmitContact | SubmitBooking => false
  end.

(** [r] is a POST to endpoint [e]; an identifier segment is non-empty and
    can be decoded. *)
Definition addressed (P : Platform) (e : Endpoint) (r : Request) : Prop :=
  method r = POST ∧ path r = endpoint_path e ∧
  match e with
  | ConfirmBooking seg | MarkRead seg => seg ≠ "" ∧ is_Some (decodeURIComponent P seg)
  | SubmitContact | SubmitBooking => True
  end.

(** Every message of [st] is still at its place in [st'], with the same
    identifier, and still read if it was. *)
Definition grows (st st' : Store) : Prop :=
  ∀ i m, messages st !! i = Some m →
    ∃ m', messages st' !! i = Some m' ∧ m_id m' = m_id m ∧
          (m_read m = true → m_read m' = true).

(** The stores a running server can be in. *)
Inductive reachable (P : Platform) (cfg : Config) : Store → Prop :=
| reachable_start (t0 : Z) : reachable P cfg (initializeSampleData P t0)
| reachable_step (env : Env) (r : Request) (sess : Session) (st : Store) :
    reachable P cfg st → reachable P cfg (store_after (handle P cfg env r sess st)).

(** Every identifier in the store was drawn from the generator, and no two
    records of a collection share one. *)
Definition drawn (P : Platform) (st : Store) (i : string) : Prop :=
  ∃ k, (k < uuid_calls st)%nat ∧ i = uuidv4 P k.

Definition ids_ok (P : Platform) (st : Store) : Prop :=
  Forall (drawn P st) (b_id <$> bookings st) ∧
  Forall (drawn P st) (m_id <$> messages st) ∧
  NoDup (b_id <$> bookings st) ∧
  NoDup (m_id <$> messages st).

(** A property of stores that a middleware maintains, whatever it answers. *)
Definition respects (R : Store → Store → Prop) (mw : Middleware) : Prop :=
  ∀ env c sess st,
    match mw env c sess st with
    | Next _ _ st' => R st st'
    | Done r => R st (store_after r)
    | Raise _ _ _ st' => R st st'
    end.

Definition is_str (v : Json) : bool :=
  match v with
  | JStr _ => true
  | _ => false
  end.

Definition nonempty_str (v : Json) : bool := is_str v && truthy v.

Definition printable (P : Platform) (v : Json) : bool :=
  match to_string P v with
  | Some _ => true
  | None => false
  end.

(** A contact form the handler accepts: the three required fields are
    non-empty strings, the phone is empty or a string, and the subject can
    be written into the email. *)
Definition valid_contact (P : Platform) (b : gmap string Json) : bool :=
  nonempty_str (field b "name") && nonempty_str (field b "email")
  && nonempty_str (field b "message")
  && (negb (truthy (field b "phone")) || is_str (field b "phone"))
  && printable P (js_or (field b "subject") (JStr "General Inquiry")).

Definition booking_required : list string :=
  ["name"; "email"; "phone"; "eventType"; "date"; "package"; "startTime"; "endTime";
   "location"].

Definition booking_printed : list string :=
  ["name"; "eventType"; "date"; "package"; "startTime"; "endTime"; "location"].

(** A booking form the handler accepts: the nine required fields are truthy
    and what goes into the email can be written there. *)
Definition valid_booking (P : Platform) (b : gmap string Json) : bool :=
  forallb (λ k, truthy (field b k)) booking_required
  && forallb (λ k, printable P (field b k)) booking_printed
  && printable P (js_or (field b "details") (JStr "None")).

Definition with_mail (ok : bool) (env : Env) : Env :=
  {| now := now env; mail_ok := ok; session_store_ok := session_store_ok env;
     salt := salt env; fresh_secret := fresh_secret env;
     db_connected := db_connected env; uptime := uptime env; stack := stack env |}.

(** What the message list shows for a query, in the words of the
    specification: archived records only on request, read records unless
    only unread ones are asked for. *)
Definition listed (q : gmap string Json) (m : Message) : bool :=
  (strict_eq_str (field q "includeArchived") "true" || negb (m_archived m))
  && (negb (strict_eq_str (field q "unread") "true") || negb (m_read m)).

(** The handler behind each of the four endpoints, its route parameters,
    and the request as it reaches the CSRF middleware of the route. *)
Definition endpoint_handler (P : Platform) (e : Endpoint) : Middleware :=
  match e with
  | ConfirmBooking _ => post_booking_confirm
  | MarkRead _ => post_message_mark_read
  | SubmitContact => post_submit_contact P
  | SubmitBooking => post_submit_booking P
  end.

Definition endpoint_params (P : Platform) (e : Endpoint) : list string :=
  match e with
  | ConfirmBooking seg | MarkRead seg => option_list (decodeURIComponent P seg)
  | SubmitContact | SubmitBooking => []
  end.

Definition arrived (P : Platform) (e : Endpoint) (r : Request) : Ctx :=
  {| req := r;
     params := endpoint_params P e;
     out_headers := if admin_only e then [("Cache-Control", "no-store")] else [];
     csrf_token := None |}.

(** What becomes of a request once a route's stack has run. *)
Definition conclude (cfg : Config) (env : Env) (o : Outcome) : Result :=
  match o with
  | Done r => r
  | Raise e c sess st => error_handler cfg e env c sess st
  | Next c sess st => default_404 c sess st
  end.

Definition unauthenticated (sess : Session) (st : Store) : Result :=
  {| store_after := st; session_after := sess;
     response := {| status := 401; headers := [];
                    payload := BJson (JObj [("error", JStr "Authentication required");
                                            ("authenticated", JBool false)]) |} |}.

(** The request and the session as the CSRF middleware hands them on. *)
Definition entered (P : Platform) (env : Env) (e : Endpoint) (r : Request) (sess : Session)
  : Ctx :=
  with_token (tokens_create P (default (fresh_secret env) (csrfSecret sess)) (salt env))
    (arrived P e r).

Definition settled (env : Env) (sess : Session) : Session :=
  {| admin := admin sess;
     csrfSecret := Some (default (fresh_secret env) (csrfSecret sess)) |}.

Definition csrf_error : Error :=
  {| err_code := Some "EBADCSRFTOKEN"; err_status := Some 403%nat;
     err_message := "invalid csrf token" |}.

(** The fields each public form must carry. *)
Definition required (e : Endpoint) : list string :=
  match e with
  | SubmitContact => ["name"; "email"; "message"]
  | SubmitBooking => booking_required
  | ConfirmBooking _ | MarkRead _ => []
  end.

(** The same request with one body field left out. *)
Definition without (k : string) (r : Request) : Request :=
  {| method := method r; path := path r; query := query r;
     x_csrf_token := x_csrf_token r; body := delete k (body r) |}.

(** The relation "if the identifiers were in order before, they still are". *)
Definition keeps_ids (P : Platform) (st st' : Store) : Prop :=
  ids_ok P st → ids_ok P st'.

(** A public form its handler accepts. *)
Definition valid_form (P : Platform) (e : Endpoint) (b : gmap string Json) : bool :=
  match e with
  | SubmitContact => valid_contact P b
  | SubmitBooking => valid_booking P b
  | ConfirmBooking _ | MarkRead _ => false
  end.

(** The form's collection has one more record at its end and the other
    collection is as it was. *)
Definition one_more (e : Endpoint) (st st' : Store) : Prop :=
  match e with
  | SubmitContact =>
      (∃ m, messages st' = messages st ++ [m]) ∧ bookings st' = bookings st
  | SubmitBooking =>
      (∃ b, bookings st' = bookings st ++ [b]) ∧ messages st' = messages st
  | ConfirmBooking _ | MarkRead _ => False
  end.

(** Two bookings that differ at most in status and update time. *)
Definition same_details (b b' : Booking) : Prop :=
  b_id b' = b_id b
  ∧ b_clientName b' = b_clientName b
  ∧ b_clientEmail b' = b_clientEmail b
  ∧ b_clientPhone b' = b_clientPhone b
  ∧ b_eventType b' = b_eventType b
  ∧ b_eventDate b' = b_eventDate b
  ∧ b_package b' = b_package b
  ∧ b_startTime b' = b_startTime b
  ∧ b_endTime b' = b_endTime b
  ∧ b_location b' = b_location b
  ∧ b_additionalNotes b' = b_additionalNotes b
  ∧ b_createdAt b' = b_createdAt b.

(** The first booking of the sample data, and a later moment. *)
Definition john_doe : Booking :=
  {| b_id := "uuid-0";
     b_clientName := JStr "John Doe";
     b_clientEmail := JStr "john@example.com";
     b_clientPhone := JStr "555-0101";
     b_eventType := JStr "Wedding";
     b_eventDate := Some (7 * day);
     b_package := JStr "Premium";
     b_startTime := JUndef;
     b_endTime := JUndef;
     b_location := JUndef;
     b_additionalNotes := JStr "Outdoor ceremony requested";
     b_status := "pending";
     b_createdAt := 0;
     b_updatedAt := None |}.

Definition later_env : Env :=
  {| now := 2000; mail_ok := false; session_store_ok := true; salt := "pepper";
     fresh_secret := "fresh"; db_connected := false; uptime := 6; stack := "trace" |}.

(** A store whose records are neither in date order nor all alike, to run
    the two lists on: one message is archived, two are unread; two bookings
    are pending. *)
Definition note (i : string) (t : Z) (read archived : bool) : Message :=
  {| m_id := i;
     m_name := "Ann";
     m_email := "ann@example.com";
     m_phone := JStr "";
     m_subject := JStr "General Inquiry";
     m_message := "Hello";
     m_date := t;
     m_read := read;
     m_archived := archived;
     m_readAt := None |}.

Definition event (i : string) (t : Z) (status : string) : Booking :=
  {| b_id := i;
     b_clientName := JStr "Ann";
     b_clientEmail := JStr "ann@example.com";
     b_clientPhone := JStr "555-0303";
     b_eventType := JStr "Portrait";
     b_eventDate := Some t;
     b_package := JStr "Basic";
     b_startTime := JStr "10:00";
     b_endTime := JStr "11:00";
     b_location := JStr "Park";
     b_additionalNotes := JStr "";
     b_status := status;
     b_createdAt := 0;
     b_updatedAt := None |}.

Definition busy_store : Store :=
  {| bookings := [event "b1" 5 "pending"; event "b2" 25 "confirmed"; event "b3" 15 "pending"];
     messages := [note "m1" 10 false false; note "m2" 30 true false;
                  note "m3" 20 false true; note "m4" 40 false false];
     uuid_calls := 7 |}.

(** The form of the failing submission: every required field is there and
    the subject is an object that cannot be converted to a string. *)
Definition odd_subject_form : list (string * Json) :=
  [("name", JStr "A"); ("email", JStr "a@b.com"); ("message", JStr "Hello");
   ("subject", JObj [("toString", JNum 1)])].

(** ** Vocabulary of the further properties *)

(** The request matches the path of a route and its method. *)
Definition hit (m : Method) (segs : list Seg) (r : Request) : bool :=
  match match_exact segs (path r) with
  | Some _ => method_ok (Some m) (method r)
  | None => false
  end.

(** The submitted credentials are the configured ones. *)
Definition credentials_match (cfg : Config) (r : Request) : bool :=
  strict_eq_env (field (body r) "username") (ADMIN_USERNAME cfg)
  && strict_eq_env (field (body r) "password") (ADMIN_PASSWORD cfg).

Definition admin_fresh : Session := {| admin := true; csrfSecret := None |}.

Definition unconfigured : Config :=
  {| NODE_ENV := None; ADMIN_USERNAME := None; ADMIN_PASSWORD := None |}.

(** What the token library promises: a token it creates is not empty and
    verifies against the secret it was created from. *)
Definition tokens_sound (P : Platform) : Prop :=
  ∀ secret salt,
    tokens_create P secret salt ≠ ""
    ∧ tokens_verify P secret (tokens_create P secret salt) = true.

(** The request presents token [t], in the header or in the body. *)
Definition presents (t : string) (r : Request) : Prop :=
  x_csrf_token r = Some t
  ∨ (x_csrf_token r = None ∧ body r !! "_csrf" = Some (JStr t)).

(** A property [J] of the request, the admin flag of the session and the
    store, at the moment a layer is tried. *)
Definition holds (J : Request → bool → Store → Prop) (c : Ctx) (sess : Session) (st : Store)
  : Prop :=
  J (req c) (admin sess) st.

(** Layer [L], tried while [J] holds, either lets the request through with
    [J'] holding or ends it with a result that satisfies [Q]. *)
Definition layer_ok (P : Platform) (cfg : Config) (env : Env)
  (J J' : Request → bool → Store → Prop) (Q : Result → Prop) (L : Layer) : Prop :=
  ∀ c sess st, holds J c sess st →
    match match_layer (decodeURIComponent P) L (req c) with
    | NoMatch => holds J' c sess st
    | BadParam raw => Q (error_handler cfg (decode_error raw) env c sess st)
    | Matched ps =>
        match run_stack (l_stack L) env (with_params ps c) sess st with
        | Next c' sess' st' => holds J' c' sess' st'
        | Done r => Q r
        | Raise e c' sess' st' => Q (error_handler cfg e env c' sess' st')
        end
    end.

(** What a handler does, whatever the request: it answers, leaves a store
    related to the one it found by [R] and a session related to the one it
    found by [V], and sends a response that satisfies [Φ]. *)
Definition profile (R : Store → Store → Prop) (V : Session → Session → Prop)
  (Φ : Response → Prop) (h : Middleware) : Prop :=
  ∀ env c sess st,
    ∃ sess' st' r, h env c sess st = answer sess' st' r ∧ R st st' ∧ V sess sess' ∧ Φ r.

(** The same for a computation inside a [try] block. *)
Definition try_keeps {A : Type} (R : Store → Store → Prop) (m : Try A) : Prop :=
  ∀ st, R st (m st).1.

Definition try_returns {A : Type} (Φ : A → Prop) (m : Try A) : Prop :=
  ∀ st a, (m st).2 = Some a → Φ a.

(** Both collections of [st'] begin with those of [st]. *)
Definition extends (st st' : Store) : Prop :=
  bookings st `prefix_of` bookings st' ∧ messages st `prefix_of` messages st'.

Definition is_json (r : Response) : Prop :=
  match payload r with
  | BJson _ => True
  | _ => False
  end.

Definition no_document (r : Response) : Prop :=
  match payload r with
  | BText _ _ => False
  | _ => True
  end.

(** While a request from a session that is not an admin's travels down the
    layers: it is still request [r], the store is still [st], and once the
    authentication guard is behind ([guarded]) the path is not under
    [/api/admin]. *)
Definition anonymous_at (r : Request) (st : Store) (guarded : bool)
  : Request → bool → Store → Prop :=
  λ r' a st',
    r' = r ∧ a = false ∧ st' = st
    ∧ (guarded = true → match_under ["api"; "admin"] (path r) = false).

(** The conditions under which the login route makes a session an admin's. *)
Definition logs_in (cfg : Config) (env : Env) (r : Request) : Prop :=
  hit POST [Lit "api"; Lit "admin"; Lit "login"] r = true
  ∧ credentials_match cfg r = true
  ∧ session_store_ok env = true.

Definition not_promoted (s s' : Session) : Prop := admin s' = true → admin s = true.

(** Past the route [GET /api/admin/bookings/:id] without a match. *)
Definition past_booking_by_id (after : bool) : Request → bool → Store → Prop :=
  λ r _ _,
    after = true →
    hit GET [Lit "api"; Lit "admin"; Lit "bookings"; Param] r = false.

(** What a public form must satisfy for its handler to reach the [push]:
    the checks and conversions the handler makes before it. *)
Definition stored_form (P : Platform) (e : Endpoint) (b : gmap string Json) : bool :=
  match e with
  | SubmitContact =>
      nonempty_str (field b "name") && nonempty_str (field b "email")
      && nonempty_str (field b "message")
      && (negb (truthy (field b "phone")) || is_str (field b "phone"))
  | SubmitBooking =>
      forallb (λ k, truthy (field b k)) booking_required
      && printable P (field b "date") && printable P (field b "startTime")
  | ConfirmBooking _ | MarkRead _ => false
  end.

Definition unchanged (st st' : Store) : Prop :=
  bookings st' = bookings st ∧ messages st' = messages st.

(** Two messages that differ at most in the read flag and the read time. *)
Definition same_message (m m' : Message) : Prop :=
  m_id m' = m_id m
  ∧ m_name m' = m_name m
  ∧ m_email m' = m_email m
  ∧ m_phone m' = m_phone m
  ∧ m_subject m' = m_subject m
  ∧ m_message m' = m_message m
  ∧ m_date m' = m_date m
  ∧ m_archived m' = m_archived m.

(** Every record of [st] is still at its place in [st'] with the details it
    had; a booking's status is the same or has become [confirmed]. *)
Definition persists (st st' : Store) : Prop :=
  (∀ i b, bookings st !! i = Some b →
     ∃ b', bookings st' !! i = Some b' ∧ same_details b b'
           ∧ (b_status b' = b_status b ∨ b_status b' = "confirmed"))
  ∧ (∀ i m, messages st !! i = Some m →
       ∃ m', messages st' !! i = Some m' ∧ same_message m m').

(** The shape of the records of a running server. *)
Definition well_formed (st : Store) : Prop :=
  (∀ b, b ∈ bookings st → b_status b = "pending" ∨ b_status b = "confirmed")
  ∧ (∀ b, b ∈ bookings st → b_updatedAt b ≠ None → b_status b = "confirmed")
  ∧ (∀ m, m ∈ messages st → m_archived m = false)
  ∧ (∀ m, m ∈ messages st → m_readAt m ≠ None → m_read m = true).

Definition keeps_form (st st' : Store) : Prop := well_formed st → well_formed st'.

(** Of two bookings with valid event dates the first is not the earlier. *)
Definition later_event_first (a b : Booking) : Prop :=
  match b_eventDate a, b_eventDate b with
  | Some x, Some y => y ≤ x
  | _, _ => True
  end.

(** * Properties *)

(** ** Lists *)

Lemma findIndex_Some {A : Type} (p : A → bool) (l : list A) (i : nat) :
  findIndex p l = Some i →
  ∃ x, l !! i = Some x ∧ p x = true ∧
       ∀ j y, (j < i)%nat → l !! j = Some y → p y = false.
Proof.
  revert i. induction l as [|a l IH]; intros i; simpl; [done|].
  destruct (p a) eqn:Ha.
  - intros [= <-]. exists a. repeat split; [done|]. intros j y Hj. lia.
  - destruct (findIndex p l) as [k|]; simpl; [|done].
    intros [= <-]. destruct (IH k eq_refl) as (x & Hx & Hpx & Hlt).
    exists x. repeat split; [done..|].
    intros [|j] y Hj; simpl.
    + by intros [= <-].
    + apply Hlt. lia.
Qed.

Section SortFacts.

Context {A : Type} (cmp : A → A → Z) (R : A → A → Prop).
Hypothesis cmp_le : ∀ x y, cmp x y ≤ 0 → R x y.
Hypothesis cmp_gt : ∀ x y, 0 < cmp x y → R y x.
Hypothesis R_trans : ∀ x y z, R x y → R y z → R x z.

Lemma insert_sorted_perm (x : A) (l : list A) : insert_sorted cmp x l ≡ₚ x :: l.
Proof.
  induction l as [|y l IH]; simpl; [done|].
  destruct (cmp x y <=? 0); [done|].
  rewrite IH. apply Permutation_swap.
Qed.

Lemma js_sort_perm (l : list A) : js_sort cmp l ≡ₚ l.
Proof.
  induction l as [|x l IH]; simpl; [done|].
  by rewrite insert_sorted_perm, IH.
Qed.

Lemma insert_sorted_sorted (x : A) (l : list A) :
  StronglySorted R l → StronglySorted R (insert_sorted cmp x l).
Proof.
  induction 1 as [|y l Hl IH Hy]; simpl.
  - repeat constructor.
  - destruct (cmp x y <=? 0) eqn:Hc.
    + apply Z.leb_le in Hc. constructor; [by constructor|].
      constructor; [by apply cmp_le|].
      eapply Forall_impl; [exact Hy|]. intros z Hz. eapply R_trans; eauto.
    + apply Z.leb_gt in Hc. constructor; [done|].
      rewrite insert_sorted_perm. constructor; [by apply cmp_gt|done].
Qed.

Lemma js_sort_sorted (l : list A) : StronglySorted R (js_sort cmp l).
Proof.
  induction l as [|x l IH]; simpl; [constructor|].
  by apply insert_sorted_sorted.
Qed.

End SortFacts.

(** ** What every request maintains

    A reflexive and transitive relation between stores that each middleware
    of each layer maintains is maintained by the whole application. *)

(** Case analysis on what a middleware did. *)
Ltac settle unfolding :=
  intros env c sess st; unfold unfolding, try_catch, answer;
  cbv [mbind mret Try_bind Try_ret lift];
  repeat (case_match; simplify_eq/=); auto.

Section Preservation.

Context (P : Platform) (cfg : Config) (R : Store → Store → Prop).
Hypothesis R_refl : ∀ st, R st st.
Hypothesis R_trans : ∀ a b c, R a b → R b c → R a c.

Lemma run_stack_respects (mws : list Middleware) :
  Forall (respects R) mws → respects R (run_stack mws).
Proof.
  induction 1 as [|mw mws Hmw _ IH]; intros env c sess st; simpl; [done|].
  specialize (Hmw env c sess st).
  destruct (mw env c sess st) as [c' sess' st'| |]; [|done..].
  specialize (IH env c' sess' st').
  destruct (run_stack mws env c' sess' st'); eauto.
Qed.

Lemma dispatch_respects (layers : list Layer) env c sess st :
  Forall (λ L, Forall (respects R) (l_stack L)) layers →
  R st (store_after (dispatch P cfg layers env c sess st)).
Proof.
  intros H. revert c sess st.
  induction H as [|L layers HL _ IH]; intros c sess st; simpl; [done|].
  destruct (match_layer _ L (req c)) as [| |ps]; [done..|].
  pose proof (run_stack_respects _ HL env (with_params ps c) sess st) as Hs.
  destruct (run_stack (l_stack L) env (with_params ps c) sess st); simpl; eauto.
Qed.

Lemma respects_cors : respects R cors.
Proof. settle cors. Qed.

Lemma respects_csrfProtection : respects R (csrfProtection P).
Proof. settle csrfProtection. Qed.

Lemma respects_noCache : respects R noCache.
Proof. settle noCache. Qed.

Lemma respects_authenticate : respects R authenticate.
Proof. settle authenticate. Qed.

Lemma respects_get_csrf_token : respects R get_csrf_token.
Proof. settle get_csrf_token. Qed.

Lemma respects_get_health : respects R get_health.
Proof. settle get_health. Qed.

Lemma respects_get_check_auth : respects R (get_check_auth cfg).
Proof. settle get_check_auth. Qed.

Lemma respects_post_login : respects R (post_login cfg).
Proof. settle post_login. Qed.

Lemma respects_post_logout : respects R post_logout.
Proof. settle post_logout. Qed.

Lemma respects_get_bookings : respects R (get_bookings P).
Proof. settle get_bookings. Qed.

Lemma respects_get_booking_by_id : respects R get_booking_by_id.
Proof. settle get_booking_by_id. Qed.

Lemma respects_get_bookings_export : respects R (get_bookings_export P).
Proof. settle get_bookings_export. Qed.

Lemma respects_get_messages : respects R get_messages.
Proof. settle get_messages. Qed.

Lemma respects_serve_index : respects R serve_index.
Proof. settle serve_index. Qed.

Lemma respects_api_not_found : respects R api_not_found.
Proof. settle api_not_found. Qed.

(** The five handlers that write to a collection are the only ones left to
    check. *)
Lemma handle_respects env r sess st :
  respects R post_booking_confirm →
  respects R get_message_by_id →
  respects R post_message_mark_read →
  respects R (post_submit_contact P) →
  respects R (post_submit_booking P) →
  R st (store_after (handle P cfg env r sess st)).
Proof.
  intros H1 H2 H3 H4 H5. apply dispatch_respects. unfold app.
  rewrite !Forall_app. split_and!.
  - repeat (apply Forall_cons; split; [repeat (apply Forall_cons; split); try apply Forall_nil|]);
      try apply Forall_nil;
      auto using respects_cors, respects_csrfProtection, respects_noCache,
        respects_authenticate, respects_get_csrf_token, respects_get_health,
        respects_get_check_auth, respects_post_login, respects_post_logout,
        respects_get_bookings, respects_get_booking_by_id, respects_get_bookings_export,
        respects_get_messages.
  - case_bool_decide; repeat constructor. apply respects_serve_index.
  - repeat constructor. apply respects_api_not_found.
Qed.

End Preservation.

(** ** Messages are never removed, renamed or marked unread *)

Lemma grows_refl (st : Store) : grows st st.
Proof. intros i m Hm. by exists m. Qed.

Lemma grows_trans (a b c : Store) : grows a b → grows b c → grows a c.
Proof.
  intros Hab Hbc i m Hm.
  destruct (Hab i m Hm) as (m1 & H1 & Hid1 & Hr1).
  destruct (Hbc i m1 H1) as (m2 & H2 & Hid2 & Hr2).
  exists m2. split_and!; [done|congruence|auto].
Qed.

Lemma grows_same (st st' : Store) : messages st' = messages st → grows st st'.
Proof. intros E i m Hm. exists m. by rewrite E. Qed.

Lemma grows_push (st st' : Store) (m : Message) :
  messages st' = messages st ++ [m] → grows st st'.
Proof.
  intros E i x Hx. exists x. rewrite E.
  split; [|done]. by apply lookup_app_l_Some.
Qed.

Lemma grows_mark_read (st st' : Store) (k : nat) (t : Z) (m : Message) :
  messages st !! k = Some m →
  messages st' = <[k := mark_read t m]> (messages st) →
  grows st st'.
Proof.
  intros Hk E i x Hx. rewrite E.
  destruct (decide (i = k)) as [->|Hne].
  - exists (mark_read t m). simplify_eq.
    split; [|done]. apply list_lookup_insert_eq. by eapply lookup_lt_Some.
  - exists x. by rewrite list_lookup_insert_ne.
Qed.

Lemma grows_post_booking_confirm : respects grows post_booking_confirm.
Proof. settle post_booking_confirm; by apply grows_same. Qed.

Lemma grows_get_message_by_id : respects grows get_message_by_id.
Proof.
  settle get_message_by_id; try (by apply grows_same).
  by eapply grows_mark_read.
Qed.

Lemma grows_post_message_mark_read : respects grows post_message_mark_read.
Proof.
  settle post_message_mark_read; try (by apply grows_same).
  by eapply grows_mark_read.
Qed.

Lemma grows_post_submit_contact (P : Platform) : respects grows (post_submit_contact P).
Proof.
  settle post_submit_contact; unfold call_uuidv4, push_message in *; simplify_eq/=;
    try (by apply grows_same); by eapply grows_push.
Qed.

Lemma grows_post_submit_booking (P : Platform) : respects grows (post_submit_booking P).
Proof.
  settle post_submit_booking; unfold call_uuidv4, push_booking in *; simplify_eq/=;
    by apply grows_same.
Qed.

Lemma handle_grows (P : Platform) (cfg : Config) env r sess st :
  grows st (store_after (handle P cfg env r sess st)).
Proof.
  apply handle_respects;
    auto using grows_refl, grows_post_booking_confirm, grows_get_message_by_id,
      grows_post_message_mark_read, grows_post_submit_contact, grows_post_submit_booking.
  apply grows_trans.
Qed.

(** C7.  Whatever the request, a message that is in the collection before
    it is still there afterwards, at the same place and under the same
    identifier, and if it was read it is still read. *)
Theorem read_flag_monotonic (P : Platform) (cfg : Config) (env : Env) (r : Request)
  (sess : Session) (st : Store) (i : nat) (m : Message) :
  messages st !! i = Some m →
  ∃ m', messages (store_after (handle P cfg env r sess st)) !! i = Some m'
        ∧ m_id m' = m_id m
        ∧ (m_read m = true → m_read m' = true).
Proof. apply handle_grows. Qed.

(** ** Which layer answers a request *)

Lemma dispatch_skip P cfg L rest env c sess st :
  match_layer (decodeURIComponent P) L (req c) = NoMatch →
  dispatch P cfg (L :: rest) env c sess st = dispatch P cfg rest env c sess st.
Proof. intros H. simpl. by rewrite H. Qed.

Lemma dispatch_enter P cfg L rest env c sess st ps :
  match_layer (decodeURIComponent P) L (req c) = Matched ps →
  dispatch P cfg (L :: rest) env c sess st =
    match run_stack (l_stack L) env (with_params ps c) sess st with
    | Next c' sess' st' => dispatch P cfg rest env c' sess' st'
    | Done r => r
    | Raise e c' sess' st' => error_handler cfg e env c' sess' st'
    end.
Proof. intros H. simpl. by rewrite H. Qed.

(** The layer of [app.options('*')] lets every other method through once
    the path is decoded. *)
Lemma star_passed decode m stack r :
  method_ok (Some m) (method r) = false →
  Forall (λ seg, has_percent seg = false ∨ is_Some (decode seg)) (path r) →
  match_layer decode {| l_method := Some m; l_pattern := Star; l_stack := stack |} r = NoMatch.
Proof.
  intros Hm Hp. unfold match_layer. cbn [l_pattern l_method]. rewrite Hm.
  replace (forallb (decodes decode) (path r)) with true; [done|].
  symmetry. apply forallb_forall. intros seg Hseg%list_elem_of_In.
  rewrite Forall_forall in Hp. unfold decodes.
  destruct (Hp seg Hseg) as [->|H]; [done|].
  rewrite (bool_decide_eq_true_2 _ H). apply orb_true_r.
Qed.

Ltac pass_star :=
  apply star_passed;
  [ reflexivity
  | repeat first [apply List.Forall_nil | apply List.Forall_cons];
    first [left; reflexivity | left; assumption | right; eauto] ].

Ltac skip := rewrite dispatch_skip by first [vm_compute; reflexivity | pass_star].

Ltac enter ps :=
  rewrite (dispatch_enter _ _ _ _ _ _ _ _ ps) by (vm_compute; reflexivity).

Ltac enter_param H :=
  erewrite dispatch_enter by (cbv -[decodeURIComponent]; rewrite H; reflexivity).

Lemma endpoint_handler_answers P e env c sess st :
  ∃ res, endpoint_handler P e env c sess st = Done res.
Proof.
  destruct e; simpl;
    unfold post_booking_confirm, post_message_mark_read, post_submit_contact,
      post_submit_booking, answer;
    repeat case_match; eauto.
Qed.

Lemma conclude_stack P cfg e env c sess st rest :
  match run_stack [csrfProtection P; endpoint_handler P e] env c sess st with
  | Next c' sess' st' => dispatch P cfg rest env c' sess' st'
  | Done r => r
  | Raise err c' sess' st' => error_handler cfg err env c' sess' st'
  end = conclude cfg env (run_stack [csrfProtection P; endpoint_handler P e] env c sess st).
Proof.
  cbn [run_stack]. destruct (csrfProtection P env c sess st) as [c' sess' st'| |]; [|done..].
  by destruct (endpoint_handler_answers P e env c' sess' st') as [res ->].
Qed.

Lemma handle_endpoint P cfg env e r sess st :
  addressed P e r →
  handle P cfg env r sess st =
    if admin_only e && negb (admin sess) then unauthenticated sess st
    else conclude cfg env
           (run_stack [csrfProtection P; endpoint_handler P e] env (arrived P e r) sess st).
Proof.
  intros (Hm & Hp & He). destruct r as [m p q h b]; simpl in Hm, Hp; subst.
  unfold handle, app, arrived. cbn [List.app].
  destruct e as [seg|seg| |]; simpl in He.
  - destruct He as [Hne [i Hi]]. destruct seg as [|a seg]; [done|].
    enter (@nil string).
    cbn [run_stack l_stack use route cors method req with_params].
    skip.
    do 5 skip. enter (@nil string).
    cbn [run_stack l_stack use route noCache method req with_params admin_only andb].
    unfold authenticate. destruct (admin sess); cbn [negb]; [|done].
    do 2 skip. enter_param Hi.
    cbn [endpoint_params]. rewrite Hi.
    apply (conclude_stack P cfg (ConfirmBooking (String a seg))).
  - destruct He as [Hne [i Hi]]. destruct seg as [|a seg]; [done|].
    enter (@nil string).
    cbn [run_stack l_stack use route cors method req with_params].
    skip.
    do 5 skip. enter (@nil string).
    cbn [run_stack l_stack use route noCache method req with_params admin_only andb].
    unfold authenticate. destruct (admin sess); cbn [negb]; [|done].
    do 6 skip. enter_param Hi.
    cbn [endpoint_params]. rewrite Hi.
    apply (conclude_stack P cfg (MarkRead (String a seg))).
  - enter (@nil string).
    cbn [run_stack l_stack use route cors method req with_params].
    skip.
    do 14 skip. enter (@nil string).
    apply (conclude_stack P cfg SubmitContact).
  - enter (@nil string).
    cbn [run_stack l_stack use route cors method req with_params].
    skip.
    do 15 skip. enter (@nil string).
    apply (conclude_stack P cfg SubmitBooking).
Qed.

Lemma handle_endpoint_cases P cfg env e r sess st :
  addressed P e r →
  handle P cfg env r sess st =
    if admin_only e && negb (admin sess) then unauthenticated sess st
    else if csrf_ok P env r sess
         then conclude cfg env
                (endpoint_handler P e env (entered P env e r sess) (settled env sess) st)
         else error_handler cfg csrf_error env (entered P env e r sess) (settled env sess) st.
Proof.
  intros H. rewrite (handle_endpoint P cfg env e r sess st H).
  destruct (admin_only e && negb (admin sess)); [done|].
  destruct H as (Hm & _). cbn [run_stack]. unfold csrfProtection.
  change (req (arrived P e r)) with r. rewrite Hm. cbn [ignored_method orb].
  fold (csrf_ok P env r sess). fold (entered P env e r sess). fold (settled env sess).
  destruct (csrf_ok P env r sess); [|done].
  by destruct (endpoint_handler_answers P e env (entered P env e r sess) (settled env sess) st)
    as [res ->].
Qed.

(** ** Requests without a valid CSRF token *)

(** C3, as the code has it.  A POST to one of the four endpoints that
    presents no valid CSRF token leaves both collections as they were.  It
    is answered with 403, except on the two admin endpoints when the session
    is not an admin's: the authentication guard comes first and answers
    401. *)
Theorem csrf_rejection (P : Platform) (cfg : Config) (env : Env) (e : Endpoint)
  (r : Request) (sess : Session) (st : Store) :
  addressed P e r →
  csrf_ok P env r sess = false →
  bookings (store_after (handle P cfg env r sess st)) = bookings st
  ∧ messages (store_after (handle P cfg env r sess st)) = messages st
  ∧ status (response (handle P cfg env r sess st)) =
      (if admin_only e && negb (admin sess) then 401 else 403)%nat.
Proof.
  intros H Hbad. rewrite (handle_endpoint_cases P cfg env e r sess st H), Hbad.
  by destruct (admin_only e && negb (admin sess)).
Qed.

Lemma csrf_rejection_witness :
  let r := request POST (endpoint_path SubmitBooking) [] None [] in
  let res := handle sample_platform sample_config sample_env r visitor_session sample_store in
  bookings (store_after res) = bookings sample_store
  ∧ messages (store_after res) = messages sample_store
  ∧ status (response res) = 403%nat.
Proof.
  apply (csrf_rejection sample_platform sample_config sample_env SubmitBooking).
  - repeat split.
  - vm_compute. reflexivity.
Defined.

(** C3 as the specification words it fails: without an admin session, a
    POST to the confirm endpoint that carries no token is answered 401. *)
Lemma csrf_rejection_not_always_403 :
  let r := request POST (endpoint_path (ConfirmBooking "uuid-0")) [] None [] in
  let res := handle sample_platform sample_config sample_env r visitor_session sample_store in
  addressed sample_platform (ConfirmBooking "uuid-0") r
  ∧ csrf_ok sample_platform sample_env r visitor_session = false
  ∧ status (response res) = 401%nat
  ∧ status (response res) ≠ 403%nat.
Proof.
  split_and!; [repeat split; [done|by eexists]| | |]; vm_compute; congruence.
Qed.

(** ** Validation of the public forms *)

Lemma contact_rejects P env c sess st :
  (∃ k, k ∈ required SubmitContact ∧ truthy (field (body (req c)) k) = false) →
  post_submit_contact P env c sess st =
    answer sess st
      (json c 400 [("success", JBool false);
                   ("message", JStr "Missing required fields (name, email, message)");
                   ("csrfToken", csrfToken c)]).
Proof.
  intros (k & Hk & Hf). unfold post_submit_contact.
  assert (negb (truthy (field (body (req c)) "name"))
          || negb (truthy (field (body (req c)) "email"))
          || negb (truthy (field (body (req c)) "message")) = true) as ->; [|done].
  simpl in Hk. repeat (apply elem_of_cons in Hk as [->|Hk]);
    [..|by apply not_elem_of_nil in Hk]; rewrite Hf; simpl; by rewrite ?orb_true_r.
Qed.

Lemma booking_rejects P env c sess st :
  (∃ k, k ∈ required SubmitBooking ∧ truthy (field (body (req c)) k) = false) →
  post_submit_booking P env c sess st =
    answer sess st
      (json c 400 [("success", JBool false);
                   ("message", JStr "Missing required fields");
                   ("csrfToken", csrfToken c)]).
Proof.
  intros (k & Hk & Hf). unfold post_submit_booking.
  assert (negb (truthy (field (body (req c)) "name"))
          || negb (truthy (field (body (req c)) "email"))
          || negb (truthy (field (body (req c)) "phone"))
          || negb (truthy (field (body (req c)) "eventType"))
          || negb (truthy (field (body (req c)) "date"))
          || negb (truthy (field (body (req c)) "package"))
          || negb (truthy (field (body (req c)) "startTime"))
          || negb (truthy (field (body (req c)) "endTime"))
          || negb (truthy (field (body (req c)) "location")) = true) as ->; [|done].
  simpl in Hk. repeat (apply elem_of_cons in Hk as [->|Hk]);
    [..|by apply not_elem_of_nil in Hk]; rewrite Hf; simpl; by rewrite ?orb_true_r.
Qed.

(** A public form with a falsy required field changes nothing; with a valid
    token the answer is 400, without one it is 403. *)
Lemma falsy_field_rejected P cfg env e r sess st k :
  addressed P e r →
  k ∈ required e →
  truthy (field (body r) k) = false →
  handle P cfg env r sess st =
    {| store_after := st;
       session_after := settled env sess;
       response :=
         if csrf_ok P env r sess
         then json (entered P env e r sess) 400
                [("success", JBool false);
                 ("message", JStr (match e with
                                   | SubmitContact =>
                                       "Missing required fields (name, email, message)"
                                   | _ => "Missing required fields"
                                   end));
                 ("csrfToken", csrfToken (entered P env e r sess))]
         else json (entered P env e r sess) 403
                [("error", JStr "Invalid CSRF token");
                 ("csrfToken", csrfToken (entered P env e r sess))] |}.
Proof.
  intros H Hk Hf. rewrite (handle_endpoint_cases P cfg env e r sess st H).
  destruct e as [seg|seg| |]; try (by apply not_elem_of_nil in Hk); cbn [admin_only andb].
  - destruct (csrf_ok P env r sess); [|done].
    cbn [endpoint_handler]. rewrite contact_rejects; [done|]. by exists k.
  - destruct (csrf_ok P env r sess); [|done].
    cbn [endpoint_handler]. rewrite booking_rejects; [done|]. by exists k.
Qed.

(** C4, as the code has it.  A contact form in which name, email or message
    is missing appends no record.  It is answered with 400 when its CSRF
    token is valid; without a valid token the CSRF middleware answers 403
    before the form is looked at. *)
Theorem contact_missing_field (P : Platform) (cfg : Config) (env : Env) (r : Request)
  (sess : Session) (st : Store) :
  addressed P SubmitContact r →
  body r !! "name" = None ∨ body r !! "email" = None ∨ body r !! "message" = None →
  messages (store_after (handle P cfg env r sess st)) = messages st
  ∧ status (response (handle P cfg env r sess st)) =
      (if csrf_ok P env r sess then 400 else 403)%nat.
Proof.
  intros H Hmiss.
  assert (∃ k, k ∈ required SubmitContact ∧ truthy (field (body r) k) = false)
    as (k & Hk & Hf).
  { unfold field. destruct Hmiss as [E|[E|E]];
      [exists "name"|exists "email"|exists "message"]; rewrite E;
      split; try done; simpl; set_solver. }
  rewrite (falsy_field_rejected P cfg env SubmitContact r sess st k H Hk Hf). simpl.
  by destruct (csrf_ok P env r sess).
Qed.

Lemma contact_missing_field_witness :
  let r := request POST ["api"; "submit-contact"] [] (Some "salt-s3")
             [("email", JStr "a@b.c"); ("message", JStr "hello")] in
  let res := handle sample_platform sample_config sample_env r visitor_session sample_store in
  messages (store_after res) = messages sample_store
  ∧ status (response res) =
      (if csrf_ok sample_platform sample_env r visitor_session then 400 else 403)%nat.
Proof.
  apply (contact_missing_field sample_platform sample_config sample_env).
  - repeat split.
  - left. vm_compute. reflexivity.
Defined.

(** C4 as the specification words it fails: a contact form without a name
    and without a CSRF token is answered 403, not 400. *)
Lemma contact_missing_field_not_always_400 :
  let r := request POST ["api"; "submit-contact"] [] None
             [("email", JStr "a@b.c"); ("message", JStr "hello")] in
  let res := handle sample_platform sample_config sample_env r visitor_session sample_store in
  body r !! "name" = None
  ∧ status (response res) = 403%nat
  ∧ status (response res) ≠ 400%nat.
Proof. split_and!; vm_compute; congruence. Qed.

Lemma addressed_without P e r k : addressed P e r → addressed P e (without k r).
Proof. by intros (? & ? & ?). Qed.

Lemma csrf_value_without r k : k ≠ "_csrf" → csrf_value (without k r) = csrf_value r.
Proof.
  intros Hk. unfold csrf_value, field. simpl. by rewrite lookup_delete_ne.
Qed.

Lemma required_not_csrf e k : k ∈ required e → k ≠ "_csrf".
Proof.
  intros Hk ->. destruct e; simpl in Hk;
    repeat (apply elem_of_cons in Hk as [Hk|Hk]; [done|]); by apply not_elem_of_nil in Hk.
Qed.

(** C10, as the code has it.  A required field of a public form that holds
    the empty string is treated as an absent one: the request is answered
    exactly as the same request without the field, and neither collection
    changes.  With a valid CSRF token that answer is 400; without one the
    CSRF middleware answers 403 first. *)
Theorem empty_field_is_missing (P : Platform) (cfg : Config) (env : Env) (e : Endpoint)
  (r : Request) (sess : Session) (st : Store) (k : string) :
  addressed P e r →
  k ∈ required e →
  body r !! k = Some (JStr "") →
  handle P cfg env r sess st = handle P cfg env (without k r) sess st
  ∧ bookings (store_after (handle P cfg env r sess st)) = bookings st
  ∧ messages (store_after (handle P cfg env r sess st)) = messages st
  ∧ status (response (handle P cfg env r sess st)) =
      (if csrf_ok P env r sess then 400 else 403)%nat.
Proof.
  intros H Hk Hb.
  assert (truthy (field (body r) k) = false) as Hf by (unfold field; by rewrite Hb).
  assert (truthy (field (body (without k r)) k) = false) as Hf'.
  { unfold field. simpl. by rewrite lookup_delete_eq. }
  rewrite (falsy_field_rejected P cfg env e r sess st k H Hk Hf).
  rewrite (falsy_field_rejected P cfg env e (without k r) sess st k
             (addressed_without P e r k H) Hk Hf').
  unfold csrf_ok. rewrite (csrf_value_without r k (required_not_csrf e k Hk)).
  split_and!; try done. simpl. by case_match.
Qed.

Lemma empty_field_is_missing_witness :
  let r := request POST ["submit-booking"] [] (Some "salt-s3")
             [("name", JStr "A"); ("email", JStr "a@b.com"); ("phone", JStr "")] in
  let res := handle sample_platform sample_config sample_env r visitor_session sample_store in
  res = handle sample_platform sample_config sample_env (without "phone" r)
          visitor_session sample_store
  ∧ bookings (store_after res) = bookings sample_store
  ∧ messages (store_after res) = messages sample_store
  ∧ status (response res) =
      (if csrf_ok sample_platform sample_env r visitor_session then 400 else 403)%nat.
Proof.
  apply (empty_field_is_missing sample_platform sample_config sample_env SubmitBooking).
  - repeat split.
  - vm_compute. set_solver.
  - vm_compute. reflexivity.
Defined.

(** C10 as it is worded fails: with an empty name and no CSRF token the
    contact endpoint answers 403, not 400. *)
Lemma empty_field_not_always_400 :
  let r := request POST ["api"; "submit-contact"] [] None
             [("name", JStr ""); ("email", JStr "a@b.c"); ("message", JStr "hello")] in
  let res := handle sample_platform sample_config sample_env r visitor_session sample_store in
  body r !! "name" = Some (JStr "")
  ∧ status (response res) = 403%nat
  ∧ status (response res) ≠ 400%nat.
Proof. split_and!; vm_compute; congruence. Qed.

(** ** Accepted submissions *)

Ltac member := repeat first [apply list_elem_of_here | apply list_elem_of_further].

(** The record a valid form adds does not depend on the mail relay. *)
Lemma contact_accepts P env c sess st :
  valid_contact P (body (req c)) = true →
  ∃ m, (∀ env', now env' = now env →
          post_submit_contact P env' c sess st =
            answer sess
              {| bookings := bookings st; messages := messages st ++ [m];
                 uuid_calls := S (uuid_calls st) |}
              (json c 201 [("success", JBool true);
                           ("message", JStr "Message sent successfully!");
                           ("messageId", JStr (m_id m));
                           ("emailSent", JBool (mail_ok env'));
                           ("csrfToken", csrfToken c)]))
       ∧ m_id m = uuidv4 P (uuid_calls st)
       ∧ m_read m = false ∧ m_archived m = false.
Proof.
  unfold valid_contact, nonempty_str, printable. rewrite !andb_true_iff.
  intros (((([Hn1 Hn2] & [He1 He2]) & [Hm1 Hm2]) & Hp) & Hs).
  destruct (field (body (req c)) "name") as [| | | |name| | |] eqn:En; try done.
  destruct (field (body (req c)) "email") as [| | | |email| | |] eqn:Ee; try done.
  destruct (field (body (req c)) "message") as [| | | |message| | |] eqn:Em; try done.
  destruct (to_string P (js_or (field (body (req c)) "subject") (JStr "General Inquiry")))
    as [subj|] eqn:Es; [|done].
  assert (∃ a, (if truthy (field (body (req c)) "phone")
                then JStr <$> js_trim P (field (body (req c)) "phone")
                else Some (JStr "")) = Some a) as [a Ea].
  { destruct (truthy (field (body (req c)) "phone")); [|by eauto].
    destruct (field (body (req c)) "phone"); try done. simpl. eauto. }
  eexists. split_and!.
  - intros env' Hnow. unfold post_submit_contact.
    rewrite En, Ee, Em, Hn2, He2, Hm2. cbn [negb orb].
    unfold getContactEmailTemplate, try_catch, call_uuidv4, push_message,
      sendConfirmationEmail.
    cbv [mbind mret Try_bind Try_ret lift option_bind].
    cbn [js_trim to_string]. rewrite Ea, Es, Hnow. reflexivity.
  - done.
  - done.
  - done.
Qed.

Lemma forallb_elem {A : Type} (f : A → bool) (l : list A) (x : A) :
  forallb f l = true → x ∈ l → f x = true.
Proof. rewrite forallb_forall. intros H Hx. apply H. by apply list_elem_of_In. Qed.

Lemma new_Date_printable P v s : to_string P v = Some s → ∃ d, new_Date P v = Some d.
Proof.
  intros H. destruct v; try (simpl; by eauto).
  - unfold new_Date. rewrite H. simpl. eauto.
  - unfold new_Date. rewrite H. simpl. eauto.
Qed.

Lemma booking_accepts P env c sess st :
  valid_booking P (body (req c)) = true →
  ∃ b, (∀ env', now env' = now env →
          post_submit_booking P env' c sess st =
            answer sess
              {| bookings := bookings st ++ [b]; messages := messages st;
                 uuid_calls := S (uuid_calls st) |}
              (json c 201 [("success", JBool true);
                           ("message", JStr "Booking request received successfully!");
                           ("bookingId", JStr (b_id b));
                           ("emailSent", JBool (mail_ok env'));
                           ("csrfToken", csrfToken c)]))
       ∧ b_id b = uuidv4 P (uuid_calls st)
       ∧ b_status b = "pending".
Proof.
  unfold valid_booking. rewrite !andb_true_iff. intros [[Ht Hp] Hd].
  pose proof (λ k, forallb_elem _ _ k Ht) as Ht'.
  unfold booking_required in Ht'.
  assert (∀ k, k ∈ booking_printed → ∃ s, to_string P (field (body (req c)) k) = Some s)
    as Hs.
  { intros k Hk. pose proof (forallb_elem _ _ k Hp Hk) as H. unfold printable in H.
    destruct (to_string P (field (body (req c)) k)); [eauto|done]. }
  unfold booking_printed in Hs. unfold printable in Hd.
  destruct (Hs "name" ltac:(member)) as [s1 E1].
  destruct (Hs "eventType" ltac:(member)) as [s2 E2].
  destruct (Hs "date" ltac:(member)) as [s3 E3].
  destruct (Hs "package" ltac:(member)) as [s4 E4].
  destruct (Hs "startTime" ltac:(member)) as [s5 E5].
  destruct (Hs "endTime" ltac:(member)) as [s6 E6].
  destruct (Hs "location" ltac:(member)) as [s7 E7].
  destruct (new_Date_printable P _ _ E3) as [d Ed].
  destruct (to_string P (js_or (field (body (req c)) "details") (JStr "None")))
    as [s8|] eqn:E8; [|done].
  eexists. split_and!.
  - intros env' Hnow. unfold post_submit_booking.
    rewrite !Ht' by member. cbn [negb orb].
    unfold getBookingEmailTemplate, try_catch, call_uuidv4, push_booking,
      sendConfirmationEmail.
    cbv [mbind mret Try_bind Try_ret lift option_bind].
    rewrite E1, E2, E3, E4, E5, E6, E7, E8, Ed, Hnow. reflexivity.
  - done.
  - done.
Qed.

(** Conversely, only a valid form is answered 201: the conditions above are
    the ones the handlers impose, no more. *)
Lemma contact_201_valid P env c sess st res :
  post_submit_contact P env c sess st = Done res →
  status (response res) = 201%nat →
  valid_contact P (body (req c)) = true.
Proof.
  unfold post_submit_contact, valid_contact, nonempty_str, printable, try_catch, answer,
    getContactEmailTemplate, call_uuidv4, push_message, js_trim.
  cbv [mbind mret Try_bind Try_ret lift option_bind].
  destruct (truthy (field (body (req c)) "name")) eqn:Tn; cbn [negb orb];
    [|intros [= <-]; done].
  destruct (truthy (field (body (req c)) "email")) eqn:Te; cbn [negb orb];
    [|intros [= <-]; done].
  destruct (truthy (field (body (req c)) "message")) eqn:Tm; cbn [negb orb];
    [|intros [= <-]; done].
  destruct (field (body (req c)) "name") as [| | | |name| | |]; try (intros [= <-]; done).
  destruct (field (body (req c)) "email") as [| | | |email| | |]; try (intros [= <-]; done).
  destruct (truthy (field (body (req c)) "phone")) eqn:Tp;
    [destruct (field (body (req c)) "phone") as [| | | |phone| | |];
       try (intros [= <-]; done)|];
    (destruct (field (body (req c)) "message") as [| | | |message| | |];
       try (intros [= <-]; done));
    cbn [to_string fmap option_fmap option_map];
    (destruct (to_string P (js_or (field (body (req c)) "subject") (JStr "General Inquiry")));
       [|intros [= <-]; done]); by rewrite ?Tn, ?Te, ?Tm.
Qed.

Lemma booking_201_valid P env c sess st res :
  post_submit_booking P env c sess st = Done res →
  status (response res) = 201%nat →
  valid_booking P (body (req c)) = true.
Proof.
  unfold post_submit_booking, valid_booking, booking_required, booking_printed, printable,
    try_catch, answer, getBookingEmailTemplate, call_uuidv4, push_booking.
  cbv [mbind mret Try_bind Try_ret lift option_bind forallb].
  destruct (truthy (field (body (req c)) "name")); cbn [negb orb andb];
    [|intros [= <-]; done].
  destruct (truthy (field (body (req c)) "email")); cbn [negb orb andb];
    [|intros [= <-]; done].
  destruct (truthy (field (body (req c)) "phone")); cbn [negb orb andb];
    [|intros [= <-]; done].
  destruct (truthy (field (body (req c)) "eventType")); cbn [negb orb andb];
    [|intros [= <-]; done].
  destruct (truthy (field (body (req c)) "date")); cbn [negb orb andb];
    [|intros [= <-]; done].
  destruct (truthy (field (body (req c)) "package")); cbn [negb orb andb];
    [|intros [= <-]; done].
  destruct (truthy (field (body (req c)) "startTime")); cbn [negb orb andb];
    [|intros [= <-]; done].
  destruct (truthy (field (body (req c)) "endTime")); cbn [negb orb andb];
    [|intros [= <-]; done].
  destruct (truthy (field (body (req c)) "location")); cbn [negb orb andb];
    [|intros [= <-]; done].
  destruct (to_string P (field (body (req c)) "date")); [|intros [= <-]; done].
  destruct (to_string P (field (body (req c)) "startTime")); [|intros [= <-]; done].
  destruct (to_string P (field (body (req c)) "name")); [|intros [= <-]; done].
  destruct (to_string P (field (body (req c)) "eventType")); [|intros [= <-]; done].
  destruct (new_Date P (field (body (req c)) "date")); [|intros [= <-]; done].
  destruct (to_string P (field (body (req c)) "endTime")); [|intros [= <-]; done].
  destruct (to_string P (field (body (req c)) "location")); [|intros [= <-]; done].
  destruct (to_string P (field (body (req c)) "package")); [|intros [= <-]; done].
  destruct (to_string P (js_or (field (body (req c)) "details") (JStr "None")));
    [|intros [= <-]; done].
  done.
Qed.

(** ** Identifiers

    As long as the generator never returns the same identifier twice, the
    identifiers of each collection are pairwise distinct in every store the
    server can reach. *)

Section Identifiers.

Context (P : Platform) (cfg : Config).
Hypothesis uuid_inj : ∀ j k, uuidv4 P j = uuidv4 P k → j = k.

Lemma drawn_mono st st' i :
  (uuid_calls st ≤ uuid_calls st')%nat → drawn P st i → drawn P st' i.
Proof. intros Hle (k & Hk & ->). exists k. split; [lia|done]. Qed.

Lemma ids_ok_same st st' :
  b_id <$> bookings st' = b_id <$> bookings st →
  m_id <$> messages st' = m_id <$> messages st →
  (uuid_calls st ≤ uuid_calls st')%nat →
  keeps_ids P st st'.
Proof.
  intros Eb Em Hle (Hb & Hm & Nb & Nm). unfold ids_ok. rewrite Eb, Em.
  split_and!; [| |done..]; (eapply Forall_impl; [eassumption|]);
    intros i; by apply drawn_mono.
Qed.

Lemma fresh_not_drawn st l :
  Forall (drawn P st) l → uuidv4 P (uuid_calls st) ∉ l.
Proof.
  intros Hl Hin. rewrite Forall_forall in Hl.
  destruct (Hl _ Hin) as (k & Hk & E). apply uuid_inj in E. lia.
Qed.

Lemma ids_ok_push_message st m :
  m_id m = uuidv4 P (uuid_calls st) →
  keeps_ids P st {| bookings := bookings st; messages := messages st ++ [m];
                    uuid_calls := S (uuid_calls st) |}.
Proof.
  intros E (Hb & Hm & Nb & Nm). unfold ids_ok. simpl. rewrite fmap_app. simpl.
  split_and!.
  - eapply Forall_impl; [exact Hb|]. intros i. apply drawn_mono. simpl. lia.
  - apply Forall_app. split.
    + eapply Forall_impl; [exact Hm|]. intros i. apply drawn_mono. simpl. lia.
    + repeat constructor. exists (uuid_calls st). simpl. split; [lia|done].
  - done.
  - apply NoDup_app. split_and!; [done| |apply NoDup_singleton].
    intros i Hi Hi'. apply list_elem_of_singleton in Hi'. subst i. rewrite E in Hi.
    by apply (fresh_not_drawn st _ Hm).
Qed.

Lemma ids_ok_push_booking st b :
  b_id b = uuidv4 P (uuid_calls st) →
  keeps_ids P st {| bookings := bookings st ++ [b]; messages := messages st;
                    uuid_calls := S (uuid_calls st) |}.
Proof.
  intros E (Hb & Hm & Nb & Nm). unfold ids_ok. simpl. rewrite fmap_app. simpl.
  split_and!.
  - apply Forall_app. split.
    + eapply Forall_impl; [exact Hb|]. intros i. apply drawn_mono. simpl. lia.
    + repeat constructor. exists (uuid_calls st). simpl. split; [lia|done].
  - eapply Forall_impl; [exact Hm|]. intros i. apply drawn_mono. simpl. lia.
  - apply NoDup_app. split_and!; [done| |apply NoDup_singleton].
    intros i Hi Hi'. apply list_elem_of_singleton in Hi'. subst i. rewrite E in Hi.
    by apply (fresh_not_drawn st _ Hb).
  - done.
Qed.

Lemma fmap_insert_same {A B : Type} (f : A → B) (l : list A) (i : nat) (x y : A) :
  l !! i = Some x → f y = f x → f <$> <[i := y]> l = f <$> l.
Proof.
  intros Hi E. rewrite list_fmap_insert, E. apply list_insert_id.
  by rewrite list_lookup_fmap, Hi.
Qed.

Lemma keeps_ids_refl st : keeps_ids P st st.
Proof. by intros H. Qed.

Lemma keeps_ids_trans a b c : keeps_ids P a b → keeps_ids P b c → keeps_ids P a c.
Proof. unfold keeps_ids. auto. Qed.

Lemma keeps_ids_post_booking_confirm : respects (keeps_ids P) post_booking_confirm.
Proof.
  settle post_booking_confirm; try apply keeps_ids_refl.
  apply ids_ok_same; simpl; [|done|lia]. by eapply fmap_insert_same.
Qed.

Lemma keeps_ids_get_message_by_id : respects (keeps_ids P) get_message_by_id.
Proof.
  settle get_message_by_id; try apply keeps_ids_refl.
  apply ids_ok_same; simpl; [done| |lia]. by eapply fmap_insert_same.
Qed.

Lemma keeps_ids_post_message_mark_read : respects (keeps_ids P) post_message_mark_read.
Proof.
  settle post_message_mark_read; try apply keeps_ids_refl.
  apply ids_ok_same; simpl; [done| |lia]. by eapply fmap_insert_same.
Qed.

Lemma keeps_ids_post_submit_contact : respects (keeps_ids P) (post_submit_contact P).
Proof.
  settle post_submit_contact; unfold call_uuidv4, push_message in *; simplify_eq/=;
    try apply keeps_ids_refl;
    first [ by apply ids_ok_push_message
          | apply ids_ok_same; simpl; [done|done|lia] ].
Qed.

Lemma keeps_ids_post_submit_booking : respects (keeps_ids P) (post_submit_booking P).
Proof.
  settle post_submit_booking; unfold call_uuidv4, push_booking in *; simplify_eq/=;
    try apply keeps_ids_refl;
    first [ by apply ids_ok_push_booking
          | apply ids_ok_same; simpl; [done|done|lia] ].
Qed.

Lemma ids_ok_start t0 : ids_ok P (initializeSampleData P t0).
Proof.
  unfold ids_ok. simpl. split_and!.
  - repeat constructor; [exists 0%nat|exists 1%nat]; simpl; split; (lia || done).
  - repeat constructor; [exists 2%nat|exists 3%nat]; simpl; split; (lia || done).
  - apply NoDup_cons. split; [|apply NoDup_singleton].
    intros H. apply list_elem_of_singleton in H. apply uuid_inj in H. lia.
  - apply NoDup_cons. split; [|apply NoDup_singleton].
    intros H. apply list_elem_of_singleton in H. apply uuid_inj in H. lia.
Qed.

Lemma reachable_ids_ok st : reachable P cfg st → ids_ok P st.
Proof.
  induction 1 as [t0|env r sess st _ IH]; [apply ids_ok_start|].
  revert IH. apply (handle_respects P cfg (keeps_ids P));
    auto using keeps_ids_refl, keeps_ids_post_booking_confirm, keeps_ids_get_message_by_id,
      keeps_ids_post_message_mark_read, keeps_ids_post_submit_contact,
      keeps_ids_post_submit_booking.
  apply keeps_ids_trans.
Qed.

End Identifiers.

(** ** Accepted contact forms *)

(** C5, as the code has it.  A contact form with a valid CSRF token whose
    name, email and message are non-empty strings, whose phone is empty or
    a string and whose subject can be written into the email, appends
    exactly one record at the end of the messages collection.  The record is
    unread and not archived, its identifier is that of no record already
    there (the generator never repeating an identifier), and the response
    reports that identifier with status 201. *)
Theorem contact_accepted (P : Platform) (cfg : Config) (env : Env) (r : Request)
  (sess : Session) (st : Store) :
  (∀ j k, uuidv4 P j = uuidv4 P k → j = k) →
  reachable P cfg st →
  addressed P SubmitContact r →
  csrf_ok P env r sess = true →
  valid_contact P (body r) = true →
  ∃ m, messages (store_after (handle P cfg env r sess st)) = messages st ++ [m]
       ∧ bookings (store_after (handle P cfg env r sess st)) = bookings st
       ∧ m_read m = false
       ∧ m_archived m = false
       ∧ (∀ m0, m0 ∈ messages st → m_id m0 ≠ m_id m)
       ∧ status (response (handle P cfg env r sess st)) = 201%nat
       ∧ body_field "messageId" (payload (response (handle P cfg env r sess st)))
         = Some (JStr (m_id m)).
Proof.
  intros Hinj Hreach H Hok Hvalid.
  rewrite (handle_endpoint_cases P cfg env SubmitContact r sess st H), Hok.
  cbn [admin_only andb endpoint_handler].
  destruct (contact_accepts P env (entered P env SubmitContact r sess) (settled env sess) st
              Hvalid) as (m & Hm & Hid & Hread & Harch).
  rewrite (Hm env eq_refl). exists m. simpl. split_and!; try done.
  intros m0 Hm0 E.
  destruct (reachable_ids_ok P cfg Hinj st Hreach) as (_ & Hdrawn & _).
  apply (fresh_not_drawn P Hinj st _ Hdrawn).
  rewrite <- Hid, <- E. by apply list_elem_of_fmap_2.
Qed.

Lemma sample_uuid_inj j k :
  uuidv4 sample_platform j = uuidv4 sample_platform k → j = k.
Proof. simpl. intros [= H]. by apply pretty_nat_inj in H. Qed.

Lemma contact_accepted_witness :
  let r := request POST ["api"; "submit-contact"] [] (Some "salt-s3")
             [("name", JStr "Ann"); ("email", JStr "a@b.c"); ("message", JStr "hello")] in
  let res := handle sample_platform sample_config sample_env r visitor_session sample_store in
  ∃ m, messages (store_after res) = messages sample_store ++ [m]
       ∧ bookings (store_after res) = bookings sample_store
       ∧ m_read m = false
       ∧ m_archived m = false
       ∧ (∀ m0, m0 ∈ messages sample_store → m_id m0 ≠ m_id m)
       ∧ status (response res) = 201%nat
       ∧ body_field "messageId" (payload (response res)) = Some (JStr (m_id m)).
Proof.
  apply (contact_accepted sample_platform sample_config sample_env).
  - exact sample_uuid_inj.
  - apply reachable_start.
  - repeat split.
  - vm_compute. reflexivity.
  - vm_compute. reflexivity.
Defined.

(** C5 as the specification words it fails: a name that is present but
    empty, with email, message and a valid token, is answered 400 and
    nothing is appended. *)
Lemma contact_present_but_empty_rejected :
  let r := request POST ["api"; "submit-contact"] [] (Some "salt-s3")
             [("name", JStr ""); ("email", JStr "a@b.c"); ("message", JStr "hello")] in
  let res := handle sample_platform sample_config sample_env r visitor_session sample_store in
  is_Some (body r !! "name") ∧ is_Some (body r !! "email") ∧ is_Some (body r !! "message")
  ∧ csrf_ok sample_platform sample_env r visitor_session = true
  ∧ messages (store_after res) = messages sample_store
  ∧ status (response res) = 400%nat.
Proof. split_and!; try (by eexists); vm_compute; reflexivity. Qed.

(** A name that is present but not a string makes the handler throw: 500,
    and nothing is appended either. *)
Lemma contact_name_not_a_string :
  let r := request POST ["api"; "submit-contact"] [] (Some "salt-s3")
             [("name", JNum 5); ("email", JStr "a@b.c"); ("message", JStr "hello")] in
  let res := handle sample_platform sample_config sample_env r visitor_session sample_store in
  messages (store_after res) = messages sample_store
  ∧ status (response res) = 500%nat.
Proof. split; vm_compute; reflexivity. Qed.

(** ** The confirmation email *)

(** X29.  For a valid contact or booking form with a valid CSRF token,
    whether the mail relay accepts the email ([ok]) or not, the response is
    201 with [success: true], the record is appended, and the store is the
    same as with the opposite outcome; [emailSent] alone tells the two
    apart. *)
Theorem email_outcome_is_informational (P : Platform) (cfg : Config) (env : Env)
  (e : Endpoint) (r : Request) (sess : Session) (st : Store) (ok : bool) :
  addressed P e r →
  csrf_ok P env r sess = true →
  valid_form P e (body r) = true →
  status (response (handle P cfg (with_mail ok env) r sess st)) = 201%nat
  ∧ body_field "success" (payload (response (handle P cfg (with_mail ok env) r sess st)))
    = Some (JBool true)
  ∧ body_field "emailSent" (payload (response (handle P cfg (with_mail ok env) r sess st)))
    = Some (JBool ok)
  ∧ one_more e st (store_after (handle P cfg (with_mail ok env) r sess st))
  ∧ store_after (handle P cfg (with_mail ok env) r sess st)
    = store_after (handle P cfg (with_mail (negb ok) env) r sess st).
Proof.
  intros H Hok Hvalid.
  rewrite !(handle_endpoint_cases P cfg _ e r sess st H).
  change (csrf_ok P (with_mail ok env) r sess) with (csrf_ok P env r sess).
  change (csrf_ok P (with_mail (negb ok) env) r sess) with (csrf_ok P env r sess).
  change (entered P (with_mail ok env) e r sess) with (entered P env e r sess).
  change (entered P (with_mail (negb ok) env) e r sess) with (entered P env e r sess).
  change (settled (with_mail ok env) sess) with (settled env sess).
  change (settled (with_mail (negb ok) env) sess) with (settled env sess).
  rewrite Hok. destruct e as [seg|seg| |]; try done; cbn [admin_only andb endpoint_handler].
  - destruct (contact_accepts P env (entered P env SubmitContact r sess) (settled env sess) st
                Hvalid) as (m & Hm & _).
    rewrite !Hm by done. simpl. split_and!; eauto.
  - destruct (booking_accepts P env (entered P env SubmitBooking r sess) (settled env sess) st
                Hvalid) as (b & Hb & _).
    rewrite !Hb by done. simpl. split_and!; eauto.
Qed.

Lemma email_outcome_is_informational_witness :
  let r := request POST ["submit-booking"] [] (Some "salt-s3")
             [("name", JStr "A"); ("email", JStr "a@b.com"); ("phone", JStr "1");
              ("eventType", JStr "Portrait"); ("date", JStr "2025-01-01");
              ("startTime", JStr "10:00"); ("endTime", JStr "11:00");
              ("location", JStr "Park"); ("package", JStr "Basic")] in
  let failing := handle sample_platform sample_config (with_mail false sample_env) r
                   visitor_session sample_store in
  status (response failing) = 201%nat
  ∧ body_field "success" (payload (response failing)) = Some (JBool true)
  ∧ body_field "emailSent" (payload (response failing)) = Some (JBool false)
  ∧ one_more SubmitBooking sample_store (store_after failing)
  ∧ store_after failing
    = store_after (handle sample_platform sample_config (with_mail (negb false) sample_env) r
                     visitor_session sample_store).
Proof.
  apply (email_outcome_is_informational sample_platform sample_config sample_env
           SubmitBooking).
  - repeat split.
  - vm_compute. reflexivity.
  - vm_compute. reflexivity.
Defined.

(** C9 fails on the code.  The confirmation email is part of the email
    step, and its template is built outside the [try] of
    [sendConfirmationEmail].  A contact form with every required field and
    a subject that cannot be converted to a string is stored, and then,
    whatever the relay would do, answered 500 with [success: false]. *)
Theorem email_step_failure_answers_500 :
  let r := request POST ["api"; "submit-contact"] [] (Some "salt-s3") odd_subject_form in
  let sent := handle sample_platform sample_config (with_mail true sample_env) r
                visitor_session sample_store in
  let unsent := handle sample_platform sample_config (with_mail false sample_env) r
                  visitor_session sample_store in
  status (response sent) = 500%nat
  ∧ body_field "success" (payload (response sent)) = Some (JBool false)
  ∧ (∃ m, messages (store_after sent) = messages sample_store ++ [m])
  ∧ status (response unsent) = 500%nat
  ∧ body_field "success" (payload (response unsent)) = Some (JBool false)
  ∧ (∃ m, messages (store_after unsent) = messages sample_store ++ [m]).
Proof. vm_compute. split_and!; try done; by eexists. Qed.

(** ** Confirming a booking *)

Lemma findIndex_NoDup {A : Type} (f : A → string) (l : list A) (i : nat) (x : A) :
  NoDup (f <$> l) → l !! i = Some x →
  findIndex (λ y, String.eqb (f x) (f y)) l = Some i.
Proof.
  revert i. induction l as [|a l IH]; intros i Hnd Hi; [done|].
  rewrite fmap_cons in Hnd. apply NoDup_cons in Hnd as [Ha Hnd].
  destruct i as [|i]; simpl in *.
  - simplify_eq. by rewrite String.eqb_refl.
  - destruct (String.eqb (f x) (f a)) eqn:E.
    + apply String.eqb_eq in E. destruct Ha. rewrite <- E.
      apply list_elem_of_fmap_2. by eapply list_elem_of_lookup_2.
    + by rewrite (IH i Hnd Hi).
Qed.

Lemma confirm_found env c sess st i b :
  NoDup (b_id <$> bookings st) →
  bookings st !! i = Some b →
  param_id c = JStr (b_id b) →
  post_booking_confirm env c sess st =
    answer sess
      {| bookings := <[i := confirm (now env) b]> (bookings st);
         messages := messages st;
         uuid_calls := uuid_calls st |}
      (json c 200 (booking_json (confirm (now env) b) ++ [("csrfToken", csrfToken c)])).
Proof.
  intros Hnd Hi Hp. unfold post_booking_confirm. rewrite Hp. cbn [strict_eq_str].
  by rewrite (findIndex_NoDup b_id _ i b Hnd Hi), Hi.
Qed.

Lemma param_id_entered P env e r sess seg x :
  e = ConfirmBooking seg ∨ e = MarkRead seg →
  decodeURIComponent P seg = Some x →
  param_id (entered P env e r sess) = JStr x.
Proof. intros [->| ->] H; unfold param_id; simpl; by rewrite H. Qed.

Lemma handle_confirm P cfg env r seg sess st i b :
  NoDup (b_id <$> bookings st) →
  bookings st !! i = Some b →
  addressed P (ConfirmBooking seg) r →
  decodeURIComponent P seg = Some (b_id b) →
  admin sess = true →
  csrf_ok P env r sess = true →
  store_after (handle P cfg env r sess st) =
    {| bookings := <[i := confirm (now env) b]> (bookings st);
       messages := messages st;
       uuid_calls := uuid_calls st |}
  ∧ status (response (handle P cfg env r sess st)) = 200%nat
  ∧ body_field "status" (payload (response (handle P cfg env r sess st)))
    = Some (JStr "confirmed").
Proof.
  intros Hnd Hi H Hdec Hadmin Hok.
  rewrite (handle_endpoint_cases P cfg env _ r sess st H), Hadmin, Hok.
  cbn [admin_only andb negb endpoint_handler].
  rewrite (confirm_found env _ _ st i b Hnd Hi); [done|].
  eapply param_id_entered; eauto.
Qed.

(** C6.  For a booking of a store the server can be in (the generator
    never repeating an identifier), confirming it twice, each time as an
    admin with a valid CSRF token, gives the same status as confirming it
    once: both responses report [confirmed] and the stored booking is
    confirmed after each call.  The update time is that of the latest call,
    and every other field of the booking is as before; no other booking and
    no message changes. *)
Theorem confirm_twice (P : Platform) (cfg : Config) (env1 env2 : Env) (r1 r2 : Request)
  (seg1 seg2 : string) (sess1 sess2 : Session) (st : Store) (i : nat) (b : Booking) :
  (∀ j k, uuidv4 P j = uuidv4 P k → j = k) →
  reachable P cfg st →
  bookings st !! i = Some b →
  addressed P (ConfirmBooking seg1) r1 ∧ decodeURIComponent P seg1 = Some (b_id b) →
  addressed P (ConfirmBooking seg2) r2 ∧ decodeURIComponent P seg2 = Some (b_id b) →
  admin sess1 = true ∧ csrf_ok P env1 r1 sess1 = true →
  admin sess2 = true ∧ csrf_ok P env2 r2 sess2 = true →
  let once := handle P cfg env1 r1 sess1 st in
  let twice := handle P cfg env2 r2 sess2 (store_after once) in
  ∃ b1 b2,
    bookings (store_after once) !! i = Some b1
    ∧ bookings (store_after twice) !! i = Some b2
    ∧ b_status b1 = "confirmed" ∧ b_status b2 = "confirmed"
    ∧ body_field "status" (payload (response once)) = Some (JStr "confirmed")
    ∧ body_field "status" (payload (response twice)) = Some (JStr "confirmed")
    ∧ b_updatedAt b1 = Some (now env1) ∧ b_updatedAt b2 = Some (now env2)
    ∧ same_details b b1 ∧ same_details b1 b2
    ∧ (∀ j, j ≠ i → bookings (store_after twice) !! j = bookings st !! j)
    ∧ messages (store_after twice) = messages st.
Proof.
  intros Hinj Hreach Hi [H1 Hd1] [H2 Hd2] [Ha1 Hok1] [Ha2 Hok2] once twice.
  destruct (reachable_ids_ok P cfg Hinj st Hreach) as (_ & _ & Hnd & _).
  destruct (handle_confirm P cfg env1 r1 seg1 sess1 st i b Hnd Hi H1 Hd1 Ha1 Hok1)
    as (E1 & _ & S1).
  fold once in E1, S1.
  assert (bookings (store_after once) !! i = Some (confirm (now env1) b)) as Hi1.
  { rewrite E1. simpl. apply list_lookup_insert_eq. by eapply lookup_lt_Some. }
  assert (NoDup (b_id <$> bookings (store_after once))) as Hnd1.
  { rewrite E1. simpl. by rewrite (fmap_insert_same b_id _ i b). }
  destruct (handle_confirm P cfg env2 r2 seg2 sess2 (store_after once) i
              (confirm (now env1) b) Hnd1 Hi1 H2 Hd2 Ha2 Hok2) as (E2 & _ & S2).
  fold twice in E2, S2.
  exists (confirm (now env1) b), (confirm (now env2) (confirm (now env1) b)).
  split_and!; try done.
  - rewrite E2. simpl. apply list_lookup_insert_eq. by eapply lookup_lt_Some.
  - intros j Hj. rewrite E2, E1. simpl. by rewrite !list_lookup_insert_ne.
  - by rewrite E2, E1.
Qed.

Lemma confirm_twice_witness :
  let r := request POST ["api"; "admin"; "bookings"; "uuid-0"; "confirm"] []
             (Some "salt-s3") [] in
  let once := handle sample_platform sample_config sample_env r admin_session sample_store in
  let twice := handle sample_platform sample_config later_env r admin_session
                 (store_after once) in
  ∃ b1 b2,
    bookings (store_after once) !! 0%nat = Some b1
    ∧ bookings (store_after twice) !! 0%nat = Some b2
    ∧ b_status b1 = "confirmed" ∧ b_status b2 = "confirmed"
    ∧ body_field "status" (payload (response once)) = Some (JStr "confirmed")
    ∧ body_field "status" (payload (response twice)) = Some (JStr "confirmed")
    ∧ b_updatedAt b1 = Some (now sample_env) ∧ b_updatedAt b2 = Some (now later_env)
    ∧ same_details john_doe b1 ∧ same_details b1 b2
    ∧ (∀ j, j ≠ 0%nat → bookings (store_after twice) !! j = bookings sample_store !! j)
    ∧ messages (store_after twice) = messages sample_store.
Proof.
  apply (confirm_twice sample_platform sample_config sample_env later_env _ _
           "uuid-0" "uuid-0").
  - exact sample_uuid_inj.
  - apply reachable_start.
  - reflexivity.
  - repeat split; try done; by eexists.
  - repeat split; try done; by eexists.
  - split; vm_compute; reflexivity.
  - split; vm_compute; reflexivity.
Defined.

(** ** Listing messages *)

Lemma filter_filter {A : Type} (f g : A → bool) (l : list A) :
  List.filter f (List.filter g l) = List.filter (λ x, g x && f x) l.
Proof.
  induction l as [|x l IH]; simpl; [done|].
  destruct (g x); simpl; [destruct (f x)|]; by rewrite IH.
Qed.

Lemma filter_true {A : Type} (l : list A) : List.filter (λ _, true) l = l.
Proof. induction l as [|x l IH]; simpl; by rewrite ?IH. Qed.

Lemma filter_messages_listed q l : filter_messages q l = List.filter (listed q) l.
Proof.
  unfold filter_messages, listed.
  destruct (strict_eq_str (field q "includeArchived") "true"),
    (strict_eq_str (field q "unread") "true"); simpl.
  - done.
  - by rewrite filter_true.
  - apply filter_filter.
  - apply filter_ext. intros m. by rewrite andb_true_r.
Qed.

Lemma handle_get_messages P cfg env r sess st :
  method r = GET → path r = ["api"; "admin"; "messages"] → admin sess = true →
  handle P cfg env r sess st =
    {| store_after := st; session_after := sess;
       response :=
         {| status := 200;
            headers := [("Cache-Control", "no-store")];
            payload := BJson (JArr (messages_array
                         (js_sort by_date_desc (filter_messages (query r) (messages st))))) |} |}.
Proof.
  intros Hm Hp Ha. destruct r as [m p q h b]; simpl in Hm, Hp; subst.
  unfold handle, app. cbn [List.app].
  enter (@nil string).
  cbn [run_stack l_stack use route cors method req with_params].
  skip.
  do 5 skip. enter (@nil string).
  cbn [run_stack l_stack use route noCache method req with_params].
  unfold authenticate. rewrite Ha. cbn [negb].
  do 4 skip. enter (@nil string). reflexivity.
Qed.

(** C8.  For an admin, the message list is the records the query selects,
    newest first, each written out with all its fields: with no parameters
    exactly those that are not archived, with [unread=true] only the unread
    among them, with [includeArchived=true] the archived ones too.  The
    collection is not changed by listing it. *)
Theorem list_messages (P : Platform) (cfg : Config) (env : Env) (r : Request)
  (sess : Session) (st : Store) :
  method r = GET →
  path r = ["api"; "admin"; "messages"] →
  admin sess = true →
  ∃ l, payload (response (handle P cfg env r sess st)) =
         BJson (JArr ((λ m, JObj [("id", JStr (m_id m));
                                  ("name", JStr (m_name m));
                                  ("email", JStr (m_email m));
                                  ("phone", m_phone m);
                                  ("subject", m_subject m);
                                  ("message", JStr (m_message m));
                                  ("date", JDate (Some (m_date m)));
                                  ("read", JBool (m_read m));
                                  ("archived", JBool (m_archived m));
                                  ("readAt", match m_readAt m with
                                             | Some t => JDate (Some t)
                                             | None => JUndef
                                             end)]) <$> l))
       ∧ status (response (handle P cfg env r sess st)) = 200%nat
       ∧ store_after (handle P cfg env r sess st) = st
       ∧ l ≡ₚ List.filter (listed (query r)) (messages st)
       ∧ StronglySorted (λ a b, m_date b ≤ m_date a) l
       ∧ (query r = ∅ → ∀ m, m ∈ l ↔ m ∈ messages st ∧ m_archived m = false)
       ∧ (field (query r) "unread" = JStr "true" →
          field (query r) "includeArchived" = JUndef →
          ∀ m, m ∈ l ↔ m ∈ messages st ∧ m_archived m = false ∧ m_read m = false)
       ∧ (field (query r) "includeArchived" = JStr "true" →
          field (query r) "unread" = JUndef →
          ∀ m, m ∈ l ↔ m ∈ messages st).
Proof.
  intros Hm Hp Ha. rewrite (handle_get_messages P cfg env r sess st Hm Hp Ha).
  eexists. split_and!; try reflexivity.
  - rewrite js_sort_perm. by rewrite filter_messages_listed.
  - apply js_sort_sorted; unfold by_date_desc; intros; lia.
  - intros Hq m. rewrite js_sort_perm, filter_messages_listed, Hq.
    rewrite list_elem_of_In, filter_In, <- list_elem_of_In.
    unfold listed, field. rewrite !lookup_empty. simpl.
    by rewrite andb_true_r, negb_true_iff.
  - intros Hu Hi m. rewrite js_sort_perm, filter_messages_listed.
    rewrite list_elem_of_In, filter_In, <- list_elem_of_In.
    unfold listed. rewrite Hu, Hi. simpl.
    rewrite andb_true_iff, !negb_true_iff. tauto.
  - intros Hi Hu m. rewrite js_sort_perm, filter_messages_listed.
    rewrite list_elem_of_In, filter_In, <- list_elem_of_In.
    unfold listed. rewrite Hu, Hi. simpl. tauto.
Qed.

Lemma list_messages_witness :
  let r := request GET ["api"; "admin"; "messages"] [] None [] in
  let res := handle sample_platform sample_config sample_env r admin_session busy_store in
  ∃ l, payload (response res) =
         BJson (JArr ((λ m, JObj [("id", JStr (m_id m));
                                  ("name", JStr (m_name m));
                                  ("email", JStr (m_email m));
                                  ("phone", m_phone m);
                                  ("subject", m_subject m);
                                  ("message", JStr (m_message m));
                                  ("date", JDate (Some (m_date m)));
                                  ("read", JBool (m_read m));
                                  ("archived", JBool (m_archived m));
                                  ("readAt", match m_readAt m with
                                             | Some t => JDate (Some t)
                                             | None => JUndef
                                             end)]) <$> l))
       ∧ status (response res) = 200%nat
       ∧ store_after res = busy_store
       ∧ l ≡ₚ List.filter (listed (query r)) (messages busy_store)
       ∧ StronglySorted (λ a b, m_date b ≤ m_date a) l
       ∧ (query r = ∅ → ∀ m, m ∈ l ↔ m ∈ messages busy_store ∧ m_archived m = false)
       ∧ (field (query r) "unread" = JStr "true" →
          field (query r) "includeArchived" = JUndef →
          ∀ m, m ∈ l ↔ m ∈ messages busy_store ∧ m_archived m = false ∧ m_read m = false)
       ∧ (field (query r) "includeArchived" = JStr "true" →
          field (query r) "unread" = JUndef →
          ∀ m, m ∈ l ↔ m ∈ messages busy_store).
Proof.
  apply (list_messages sample_platform sample_config sample_env); reflexivity.
Defined.

(** On that store the archived message is left out and the others come
    newest first; with [unread=true] the read one goes too. *)
Lemma list_messages_runs :
  (m_id <$> js_sort by_date_desc (filter_messages ∅ (messages busy_store)))
  = ["m4"; "m2"; "m1"]
  ∧ (m_id <$> js_sort by_date_desc
       (filter_messages {[ "unread" := JStr "true" ]} (messages busy_store)))
    = ["m4"; "m1"]
  ∧ (m_id <$> js_sort by_date_desc
       (filter_messages {[ "includeArchived" := JStr "true" ]} (messages busy_store)))
    = ["m4"; "m2"; "m3"; "m1"].
Proof. by vm_compute. Qed.

(** What the three forms of the query select. *)
Lemma listed_no_parameters m : listed ∅ m = negb (m_archived m).
Proof. unfold listed, field. rewrite !lookup_empty. simpl. by rewrite andb_true_r. Qed.

Lemma listed_unread m :
  listed {[ "unread" := JStr "true" ]} m = negb (m_archived m) && negb (m_read m).
Proof. reflexivity. Qed.

Lemma listed_includeArchived m :
  listed {[ "includeArchived" := JStr "true" ]} m = true.
Proof. reflexivity. Qed.

(** ** The export route *)

(** The route [/api/admin/bookings/:id] is registered before
    [/api/admin/bookings/export] and matches its path with [id = "export"]:
    a GET for the export is answered by the get-by-id handler, never by the
    export handler. *)
Lemma get_booking_by_id_answers env c sess st :
  ∃ res, get_booking_by_id env c sess st = Done res.
Proof. unfold get_booking_by_id, answer. case_match; eauto. Qed.

Lemma export_is_shadowed P cfg env r sess st x :
  method r = GET →
  path r = ["api"; "admin"; "bookings"; "export"] →
  admin sess = true →
  decodeURIComponent P "export" = Some x →
  handle P cfg env r sess st =
    conclude cfg env
      (get_booking_by_id env
         {| req := r; params := [x]; out_headers := [("Cache-Control", "no-store")];
            csrf_token := None |} sess st).
Proof.
  intros Hm Hp Ha Hx. destruct r as [m p q h b]; simpl in Hm, Hp; subst.
  unfold handle, app. cbn [List.app].
  enter (@nil string).
  cbn [run_stack l_stack use route cors method req with_params].
  skip.
  do 5 skip. enter (@nil string).
  cbn [run_stack l_stack use route noCache method req with_params].
  unfold authenticate. rewrite Ha. cbn [negb].
  skip. enter_param Hx.
  cbn [run_stack l_stack route with_params with_header req params out_headers csrf_token
       List.app].
  match goal with
  | |- context [get_booking_by_id env ?c sess st] =>
      destruct (get_booking_by_id_answers env c sess st) as [res E]; rewrite E
  end.
  exact (eq_sym (f_equal (conclude cfg env) E)).
Qed.

(** With no booking stored under the identifier ["export"], the answer is
    404 whatever the query says. *)
Lemma export_not_found P cfg env r sess st :
  method r = GET →
  path r = ["api"; "admin"; "bookings"; "export"] →
  admin sess = true →
  decodeURIComponent P "export" = Some "export" →
  (∀ b, b ∈ bookings st → b_id b ≠ "export") →
  response (handle P cfg env r sess st) =
    {| status := 404; headers := [("Cache-Control", "no-store")];
       payload := BJson (JObj [("error", JStr "Booking not found")]) |}.
Proof.
  intros Hm Hp Ha Hx Hno.
  rewrite (export_is_shadowed P cfg env r sess st "export" Hm Hp Ha Hx).
  unfold get_booking_by_id.
  destruct (List.find _ (bookings st)) as [b|] eqn:E; [|done].
  apply find_some in E as [Hin Heq]. cbn [param_id params strict_eq_str] in Heq.
  apply String.eqb_eq in Heq. symmetry in Heq.
  by apply Hno in Heq; [|apply list_elem_of_In].
Qed.

(** C1 fails on the code.  An authenticated admin's GET of
    [/api/admin/bookings/export] without an [id] is answered 404 "Booking
    not found" and not with the collection. *)
Theorem export_all_answers_404 :
  response
    (handle sample_platform sample_config sample_env
       (request GET ["api"; "admin"; "bookings"; "export"] [] None [])
       admin_session sample_store)
  = {| status := 404; headers := [("Cache-Control", "no-store")];
       payload := BJson (JObj [("error", JStr "Booking not found")]) |}.
Proof. vm_compute. reflexivity. Qed.

(** The same with the [id] of a stored booking. *)
Lemma export_one_answers_404 :
  response
    (handle sample_platform sample_config sample_env
       (request GET ["api"; "admin"; "bookings"; "export"] [("id", JStr "uuid-0")] None [])
       admin_session sample_store)
  = {| status := 404; headers := [("Cache-Control", "no-store")];
       payload := BJson (JObj [("error", JStr "Booking not found")]) |}.
Proof. vm_compute. reflexivity. Qed.

(** The export handler itself does what the specification says. *)
Lemma export_handler_one P env c sess st i b :
  field (query (req c)) "id" = JStr i →
  i ≠ "" →
  List.find (λ b, String.eqb i (b_id b)) (bookings st) = Some b →
  get_bookings_export P env c sess st =
    answer sess st
      {| status := 200;
         headers := out_headers c ++
           [("Content-Type", "application/json");
            ("Content-Disposition", "attachment; filename=booking-" +:+ i +:+ ".json")];
         payload := BText (JObj (booking_json b)) 2 |}.
Proof.
  intros Hq Hi Hb. unfold get_bookings_export. rewrite Hq. cbn [truthy strict_eq_str].
  apply String.eqb_neq in Hi. rewrite Hi. cbn [negb]. by rewrite Hb.
Qed.

Lemma export_handler_all P env c sess st :
  field (query (req c)) "id" = JUndef →
  get_bookings_export P env c sess st =
    answer sess st
      {| status := 200;
         headers := out_headers c ++
           [("Content-Type", "application/json");
            ("Content-Disposition", "attachment; filename=bookings.json")];
         payload := BText (JArr (bookings_array (bookings st))) 2 |}.
Proof. intros H. unfold get_bookings_export. by rewrite H. Qed.

(** ** The CSRF token in responses *)

Lemma handler_token P e env c sess st t res :
  csrf_token c = Some t →
  endpoint_handler P e env c sess st = Done res →
  (status (response res) = 404%nat
   ∧ body_field "csrfToken" (payload (response res)) = None)
  ∨ (status (response res) ∈ [200; 201; 400; 500]%nat
     ∧ body_field "csrfToken" (payload (response res)) = Some (JStr t)).
Proof.
  intros Ht. unfold csrfToken. destruct e; simpl;
    unfold post_booking_confirm, post_message_mark_read, post_submit_contact,
      post_submit_booking, try_catch, answer, csrfToken;
    cbv [mbind mret Try_bind Try_ret lift]; rewrite Ht;
    repeat (case_match; simplify_eq/=); intros; simplify_eq/=;
    first [ by left | right; split; [member|done] ].
Qed.

(** C2, as the code has it.  On the four endpoints the response carries a
    freshly minted CSRF token whenever its status is 200, 201, 400, 403 or
    500: on success, on a validation failure, on a rejected token and on a
    handler error.  The 401 of the authentication guard carries none: the
    guard answers before the CSRF middleware has run.  (Nothing is said
    here about the 404 of an unknown identifier.) *)
Theorem token_in_responses (P : Platform) (cfg : Config) (env : Env) (e : Endpoint)
  (r : Request) (sess : Session) (st : Store) :
  addressed P e r →
  status (response (handle P cfg env r sess st)) ∈ [200; 201; 400; 401; 403; 404; 500]%nat
  ∧ (status (response (handle P cfg env r sess st)) ∈ [200; 201; 400; 403; 500]%nat →
     body_field "csrfToken" (payload (response (handle P cfg env r sess st)))
     = Some (JStr (tokens_create P (default (fresh_secret env) (csrfSecret sess))
                     (salt env))))
  ∧ (status (response (handle P cfg env r sess st)) = 401%nat →
     body_field "csrfToken" (payload (response (handle P cfg env r sess st))) = None).
Proof.
  intros H. rewrite (handle_endpoint_cases P cfg env e r sess st H).
  destruct (admin_only e && negb (admin sess)).
  { simpl. split_and!; [member| |done].
    intros Hin. repeat (apply elem_of_cons in Hin as [Hin|Hin]; [done|]).
    by apply not_elem_of_nil in Hin. }
  destruct (csrf_ok P env r sess).
  - destruct (endpoint_handler_answers P e env (entered P env e r sess) (settled env sess) st)
      as [res E].
    rewrite E. simpl.
    destruct (handler_token P e env (entered P env e r sess) (settled env sess) st _ res
                eq_refl E) as [[H404 Hnone]|[Hin Htok]].
    + rewrite H404. split_and!; [member| |done].
      intros Hin. repeat (apply elem_of_cons in Hin as [Hin|Hin]; [done|]).
      by apply not_elem_of_nil in Hin.
    + split_and!; [|done|].
      * repeat (apply elem_of_cons in Hin as [->|Hin]; [member|]).
        by apply not_elem_of_nil in Hin.
      * intros E401. rewrite E401 in Hin.
        repeat (apply elem_of_cons in Hin as [Hin|Hin]; [done|]).
        by apply not_elem_of_nil in Hin.
  - simpl. split_and!; [member|done|done].
Qed.

Lemma token_in_responses_witness :
  let r := request POST ["api"; "submit-contact"] [] (Some "salt-s3")
             [("name", JStr "Ann"); ("email", JStr "a@b.c"); ("message", JStr "hello")] in
  let res := handle sample_platform sample_config sample_env r visitor_session sample_store in
  status (response res) ∈ [200; 201; 400; 401; 403; 404; 500]%nat
  ∧ (status (response res) ∈ [200; 201; 400; 403; 500]%nat →
     body_field "csrfToken" (payload (response res)) = Some (JStr "salt-s3"))
  ∧ (status (response res) = 401%nat →
     body_field "csrfToken" (payload (response res)) = None).
Proof.
  apply (token_in_responses sample_platform sample_config sample_env SubmitContact).
  repeat split.
Defined.

(** C2 as the specification words it fails: a POST to the confirm endpoint
    from a session that is not an admin's is answered 401, a failure
    outcome whose body holds no token. *)
Lemma guard_answer_carries_no_token :
  let r := request POST ["api"; "admin"; "bookings"; "uuid-0"; "confirm"] []
             (Some "salt-s3") [] in
  let res := handle sample_platform sample_config sample_env r visitor_session sample_store in
  status (response res) = 401%nat
  ∧ body_field "csrfToken" (payload (response res)) = None.
Proof. split; vm_compute; reflexivity. Qed.

(** The 404 of an unknown identifier holds no token either, although the
    other failure branches of the same handlers send one: confirming a
    booking that does not exist, as an admin with a valid CSRF token. *)
Lemma not_found_carries_no_token :
  let r := request POST ["api"; "admin"; "bookings"; "nope"; "confirm"] []
             (Some "salt-s3") [] in
  let res := handle sample_platform sample_config sample_env r admin_session sample_store in
  csrf_ok sample_platform sample_env r admin_session = true
  ∧ status (response res) = 404%nat
  ∧ payload (response res) = BJson (JObj [("error", JStr "Booking not found")])
  ∧ body_field "csrfToken" (payload (response res)) = None.
Proof. split_and!; vm_compute; reflexivity. Qed.

(** The same on the mark-read endpoint. *)
Lemma message_not_found_carries_no_token :
  let r := request POST ["api"; "admin"; "messages"; "nope"; "mark-read"] []
             (Some "salt-s3") [] in
  let res := handle sample_platform sample_config sample_env r admin_session sample_store in
  status (response res) = 404%nat
  ∧ body_field "csrfToken" (payload (response res)) = None.
Proof. split; vm_compute; reflexivity. Qed.

Lemma read_flag_monotonic_witness :
  let r := request GET ["api"; "admin"; "messages"; "uuid-3"] [] None [] in
  let res := handle sample_platform sample_config sample_env r admin_session sample_store in
  ∃ m', messages (store_after res) !! 1%nat = Some m'
        ∧ m_id m' = "uuid-3"
        ∧ (true = true → m_read m' = true).
Proof.
  apply (read_flag_monotonic sample_platform sample_config sample_env
           (request GET ["api"; "admin"; "messages"; "uuid-3"] [] None [])
           admin_session sample_store 1%nat
           {| m_id := "uuid-3"; m_name := "Mike Brown"; m_email := "mike@example.com";
              m_phone := JUndef; m_subject := JStr "Availability Question";
              m_message := "Are you available for a corporate event on June 15th?";
              m_date := 0 - 2 * day; m_read := true; m_archived := false;
              m_readAt := None |}).
  reflexivity.
Defined.

(** * Further properties *)

(** The fields of a request as a handler reads them. *)
Ltac fields :=
  cbn [req params out_headers csrf_token with_header with_params with_token
       method path query x_csrf_token body csrfToken param_id].

(** Projections of a result that has been computed, leaving the layers that
    were not reached alone. *)
Ltac observe :=
  cbv beta iota delta [store_after session_after response status payload headers admin
                       csrfSecret json answer].

(** ** Logging in and out *)

(** X1.  The login route needs neither an admin session nor a CSRF token.
    It never touches the collections.  With the configured credentials and
    a working session store the session is replaced by a new admin session
    without a CSRF secret; if the store fails the session is replaced by an
    empty one and the answer is 500; with other credentials the answer is
    401 and the session stays as it was. *)
Theorem login_outcome (P : Platform) (cfg : Config) (env : Env) (r : Request)
  (sess : Session) (st : Store) :
  method r = POST →
  path r = ["api"; "admin"; "login"] →
  store_after (handle P cfg env r sess st) = st
  ∧ (credentials_match cfg r = true → session_store_ok env = true →
     status (response (handle P cfg env r sess st)) = 200%nat
     ∧ session_after (handle P cfg env r sess st) = admin_fresh)
  ∧ (credentials_match cfg r = true → session_store_ok env = false →
     status (response (handle P cfg env r sess st)) = 500%nat
     ∧ session_after (handle P cfg env r sess st) = empty_session)
  ∧ (credentials_match cfg r = false →
     status (response (handle P cfg env r sess st)) = 401%nat
     ∧ session_after (handle P cfg env r sess st) = sess).
Proof.
  intros Hm Hp. unfold credentials_match.
  destruct r as [m p q h b]; simpl in Hm, Hp; subst.
  unfold handle, app. cbn [List.app].
  enter (@nil string).
  cbn [run_stack l_stack use route cors method req with_params].
  skip.
  do 4 skip. enter (@nil string).
  cbn [run_stack l_stack use route noCache method req with_params body with_header].
  unfold post_login, answer. fields.
  destruct (strict_eq_env (field b "username") (ADMIN_USERNAME cfg)
            && strict_eq_env (field b "password") (ADMIN_PASSWORD cfg));
    destruct (session_store_ok env); observe; split_and!; try done.
Qed.

Lemma login_outcome_witness :
  let r := request POST ["api"; "admin"; "login"] [] None
             [("username", JStr "admin"); ("password", JStr "secret")] in
  let res := handle sample_platform sample_config sample_env r visitor_session sample_store in
  store_after res = sample_store
  ∧ (credentials_match sample_config r = true → session_store_ok sample_env = true →
     status (response res) = 200%nat ∧ session_after res = admin_fresh)
  ∧ (credentials_match sample_config r = true → session_store_ok sample_env = false →
     status (response res) = 500%nat ∧ session_after res = empty_session)
  ∧ (credentials_match sample_config r = false →
     status (response res) = 401%nat ∧ session_after res = visitor_session).
Proof.
  apply (login_outcome sample_platform sample_config sample_env); reflexivity.
Defined.

(** X2.  When neither ADMIN_USERNAME nor ADMIN_PASSWORD is set, a login
    request that carries neither field is accepted: both comparisons are
    [undefined === undefined]. *)
Theorem login_without_configuration (P : Platform) (cfg : Config) (env : Env) (r : Request)
  (sess : Session) (st : Store) :
  ADMIN_USERNAME cfg = None →
  ADMIN_PASSWORD cfg = None →
  method r = POST →
  path r = ["api"; "admin"; "login"] →
  body r !! "username" = None →
  body r !! "password" = None →
  session_store_ok env = true →
  status (response (handle P cfg env r sess st)) = 200%nat
  ∧ admin (session_after (handle P cfg env r sess st)) = true.
Proof.
  intros Hu Hw Hm Hp Bu Bw Hok.
  destruct r as [m p q h b]; simpl in Hm, Hp, Bu, Bw; subst.
  unfold handle, app. cbn [List.app].
  enter (@nil string).
  cbn [run_stack l_stack use route cors method req with_params].
  skip.
  do 4 skip. enter (@nil string).
  cbn [run_stack l_stack use route noCache method req with_params body with_header].
  unfold post_login, answer, field. fields.
  rewrite Hu, Hw, Bu, Bw, Hok. observe. done.
Qed.

Lemma login_without_configuration_witness :
  let r := request POST ["api"; "admin"; "login"] [] None [] in
  let res := handle sample_platform unconfigured sample_env r visitor_session sample_store in
  status (response res) = 200%nat ∧ admin (session_after res) = true.
Proof.
  apply (login_without_configuration sample_platform unconfigured sample_env); reflexivity.
Defined.

(** X3.  Logging out needs an admin session and no CSRF token.  With a
    working session store the session becomes an empty one; if the store
    fails the answer is 500 and the session is still an admin's.  A session
    that is not an admin's is answered 401.  The collections are untouched. *)
Theorem logout_outcome (P : Platform) (cfg : Config) (env : Env) (r : Request)
  (sess : Session) (st : Store) :
  method r = POST →
  path r = ["api"; "admin"; "logout"] →
  store_after (handle P cfg env r sess st) = st
  ∧ (admin sess = false →
     status (response (handle P cfg env r sess st)) = 401%nat
     ∧ session_after (handle P cfg env r sess st) = sess)
  ∧ (admin sess = true → session_store_ok env = true →
     status (response (handle P cfg env r sess st)) = 200%nat
     ∧ session_after (handle P cfg env r sess st) = empty_session)
  ∧ (admin sess = true → session_store_ok env = false →
     status (response (handle P cfg env r sess st)) = 500%nat
     ∧ session_after (handle P cfg env r sess st) = sess).
Proof.
  intros Hm Hp. destruct r as [m p q h b]; simpl in Hm, Hp; subst.
  unfold handle, app. cbn [List.app].
  enter (@nil string).
  cbn [run_stack l_stack use route cors method req with_params].
  skip.
  do 5 skip. enter (@nil string).
  cbn [run_stack l_stack use route noCache method req with_params].
  unfold authenticate. destruct (admin sess); cbn [negb].
  - do 7 skip. enter (@nil string).
    cbn [run_stack l_stack route]. unfold post_logout, answer.
    destruct (session_store_ok env); observe; split_and!; done.
  - observe. split_and!; done.
Qed.

Lemma logout_outcome_witness :
  let r := request POST ["api"; "admin"; "logout"] [] None [] in
  let res := handle sample_platform sample_config sample_env r admin_session sample_store in
  store_after res = sample_store
  ∧ (admin admin_session = false →
     status (response res) = 401%nat ∧ session_after res = admin_session)
  ∧ (admin admin_session = true → session_store_ok sample_env = true →
     status (response res) = 200%nat ∧ session_after res = empty_session)
  ∧ (admin admin_session = true → session_store_ok sample_env = false →
     status (response res) = 500%nat ∧ session_after res = admin_session).
Proof.
  apply (logout_outcome sample_platform sample_config sample_env); reflexivity.
Defined.

(** ** The CSRF token, from issue to use *)

Lemma presented_token_accepted P env r sess secret salt :
  tokens_sound P →
  csrfSecret sess = Some secret →
  presents (tokens_create P secret salt) r →
  csrf_ok P env r sess = true.
Proof.
  intros Hs Hsec Hr. destruct (Hs secret salt) as [Hne Hv].
  apply String.eqb_neq in Hne.
  unfold csrf_ok, csrf_value, field. rewrite Hsec. cbn [default from_option id].
  destruct Hr as [E | [E E']]; rewrite E, ?E'.
  - rewrite Hne. unfold verifytoken. by rewrite Hne, Hv.
  - cbn [default from_option id]. unfold verifytoken. by rewrite Hne, Hv.
Qed.

(** X4.  Both token routes answer any session with a token that the CSRF
    middleware accepts afterwards, presented in the header or in the body
    with the session the route leaves behind.  They change neither the
    collections nor the admin flag. *)
Theorem issued_token_is_accepted (P : Platform) (cfg : Config) (env : Env) (r : Request)
  (sess : Session) (st : Store) :
  tokens_sound P →
  method r = GET →
  path r = ["api"; "csrf-token"] ∨ path r = ["csrf-token"] →
  store_after (handle P cfg env r sess st) = st
  ∧ admin (session_after (handle P cfg env r sess st)) = admin sess
  ∧ ∃ t, body_field "token" (payload (response (handle P cfg env r sess st)))
         = Some (JStr t)
         ∧ ∀ env' r', presents t r' →
             csrf_ok P env' r' (session_after (handle P cfg env r sess st)) = true.
Proof.
  intros Hs Hm Hp. destruct r as [m p q h b]; simpl in Hm, Hp; subst.
  unfold handle, app. cbn [List.app].
  destruct Hp as [-> | ->].
  - enter (@nil string).
    cbn [run_stack l_stack use route cors method req with_params].
    skip.
    enter (@nil string).
    cbn [run_stack l_stack route]. unfold csrfProtection, get_csrf_token, answer. fields.
    cbn [ignored_method orb]. observe. split_and!; [done..|].
    eexists. split; [reflexivity|]. intros env' r' Hr.
    by eapply presented_token_accepted.
  - enter (@nil string).
    cbn [run_stack l_stack use route cors method req with_params].
    skip.
    skip. enter (@nil string).
    cbn [run_stack l_stack route]. unfold csrfProtection, get_csrf_token, answer. fields.
    cbn [ignored_method orb]. observe. split_and!; [done..|].
    eexists. split; [reflexivity|]. intros env' r' Hr.
    by eapply presented_token_accepted.
Qed.

Lemma substring_all (s : string) : String.substring 0 (String.length s) s = s.
Proof. induction s as [|a s IH]; simpl; by rewrite ?IH. Qed.

Lemma substring_skip (pre suf : string) :
  String.substring (String.length pre) (String.length suf) (pre +:+ suf) = suf.
Proof. induction pre as [|a pre IH]; simpl; [apply substring_all|done]. Qed.

Lemma length_append (a b : string) :
  String.length (a +:+ b) = (String.length a + String.length b)%nat.
Proof. induction a as [|c a IH]; simpl; by rewrite ?IH. Qed.

Lemma ends_with_append (pre suf : string) : ends_with suf (pre +:+ suf) = true.
Proof.
  unfold ends_with. rewrite length_append.
  replace (String.length pre + String.length suf - String.length suf)%nat
    with (String.length pre) by lia.
  rewrite substring_skip, String.eqb_refl, andb_true_r.
  apply Nat.leb_le. lia.
Qed.

Lemma sample_tokens_sound : tokens_sound sample_platform.
Proof.
  intros secret salt. simpl. split.
  - destruct salt; simpl; [done|done].
  - apply ends_with_append.
Qed.

Lemma issued_token_is_accepted_witness :
  let r := request GET ["api"; "csrf-token"] [] None [] in
  let res := handle sample_platform sample_config sample_env r empty_session sample_store in
  store_after res = sample_store
  ∧ admin (session_after res) = admin empty_session
  ∧ ∃ t, body_field "token" (payload (response res)) = Some (JStr t)
         ∧ ∀ env' r', presents t r' →
             csrf_ok sample_platform env' r' (session_after res) = true.
Proof.
  apply (issued_token_is_accepted sample_platform sample_config sample_env).
  - exact sample_tokens_sound.
  - reflexivity.
  - by left.
Defined.

Lemma endpoint_handler_session P e env c sess st res :
  endpoint_handler P e env c sess st = Done res → session_after res = sess.
Proof.
  destruct e; cbn [endpoint_handler].
  - unfold post_booking_confirm, answer. repeat case_match; by intros [= <-].
  - unfold post_message_mark_read, answer. repeat case_match; by intros [= <-].
  - unfold post_submit_contact, answer. destruct (try_catch _ _ _). by intros [= <-].
  - unfold post_submit_booking, answer. destruct (try_catch _ _ _). by intros [= <-].
Qed.

(** X5.  A token sent back by one of the four POST endpoints (every answer
    but a 401 or a 404) is accepted on the next request of the same
    session: the client need not fetch a new one. *)
Theorem returned_token_is_accepted (P : Platform) (cfg : Config) (env : Env) (e : Endpoint)
  (r : Request) (sess : Session) (st : Store) :
  tokens_sound P →
  addressed P e r →
  status (response (handle P cfg env r sess st)) ≠ 401%nat →
  status (response (handle P cfg env r sess st)) ≠ 404%nat →
  ∃ t, body_field "csrfToken" (payload (response (handle P cfg env r sess st)))
       = Some (JStr t)
       ∧ ∀ env' r', presents t r' →
           csrf_ok P env' r' (session_after (handle P cfg env r sess st)) = true.
Proof.
  intros Hs H. rewrite (handle_endpoint_cases P cfg env e r sess st H).
  destruct (admin_only e && negb (admin sess)); [done|].
  destruct (csrf_ok P env r sess).
  - destruct (endpoint_handler_answers P e env (entered P env e r sess) (settled env sess) st)
      as [res E].
    rewrite E. cbn [conclude]. intros _ H404.
    destruct (handler_token P e env (entered P env e r sess) (settled env sess) st _ res
                eq_refl E) as [[E404 _]|[_ Htok]]; [done|].
    eexists. split; [exact Htok|]. intros env' r' Hr.
    rewrite (endpoint_handler_session P e env _ _ st res E).
    by eapply presented_token_accepted.
  - intros _ _. eexists. split; [reflexivity|]. intros env' r' Hr.
    by eapply presented_token_accepted.
Qed.

Lemma returned_token_is_accepted_witness :
  let r := request POST ["api"; "submit-contact"] [] None [] in
  let res := handle sample_platform sample_config sample_env r empty_session sample_store in
  ∃ t, body_field "csrfToken" (payload (response res)) = Some (JStr t)
       ∧ ∀ env' r', presents t r' →
           csrf_ok sample_platform env' r' (session_after res) = true.
Proof.
  apply (returned_token_is_accepted sample_platform sample_config sample_env SubmitContact).
  - exact sample_tokens_sound.
  - repeat split.
  - vm_compute. lia.
  - vm_compute. lia.
Defined.

(** ** Reasoning along the layers *)

Section Rule.

Context (P : Platform) (cfg : Config) (env : Env).
Context (Q : Result → Prop).

Lemma dispatch_rule_nil (J : Request → bool → Store → Prop) :
  (∀ c sess st, holds J c sess st → Q (default_404 c sess st)) →
  ∀ c sess st, holds J c sess st → Q (dispatch P cfg [] env c sess st).
Proof. intros H c sess st HJ. by apply H. Qed.

Lemma dispatch_rule_cons (J J' : Request → bool → Store → Prop) (L : Layer)
  (rest : list Layer) :
  layer_ok P cfg env J J' Q L →
  (∀ c sess st, holds J' c sess st → Q (dispatch P cfg rest env c sess st)) →
  ∀ c sess st, holds J c sess st → Q (dispatch P cfg (L :: rest) env c sess st).
Proof.
  intros HL Hrest c sess st HJ. specialize (HL c sess st HJ). cbn [dispatch].
  destruct (match_layer _ L (req c)) as [| |ps]; [by apply Hrest|done|].
  destruct (run_stack (l_stack L) env (with_params ps c) sess st); [by apply Hrest|done..].
Qed.

Lemma matched_hit decode m segs stack r ps :
  match_layer decode (route m segs stack) r = Matched ps → hit m segs r = true.
Proof.
  unfold match_layer, hit. cbn [l_pattern l_method route match_pattern].
  destruct (match_exact segs (path r)); [|done].
  destruct (decode_params decode l); [done|]. by case_match.
Qed.

(** A route whose stack is its handler alone, or the handler behind
    [noCache] or behind the CSRF middleware. *)
Context (J J' : Request → bool → Store → Prop).
Context (R : Store → Store → Prop) (V : Session → Session → Prop) (Φ : Response → Prop).
Hypothesis mono : ∀ r a st, J r a st → J' r a st.
Hypothesis on_error : ∀ e c sess st, holds J c sess st →
  Q (error_handler cfg e env c sess st).
Hypothesis on_answer : ∀ c sess sess' st st' resp,
  holds J c sess st → R st st' → V sess sess' → Φ resp →
  Q {| store_after := st'; session_after := sess'; response := resp |}.

Lemma layer_ok_plain m segs h :
  (∀ r, hit m segs r = true → profile R V Φ h) →
  layer_ok P cfg env J J' Q (route m segs [h]).
Proof.
  intros Hh c sess st HJ.
  destruct (match_layer _ _ (req c)) as [|raw|ps] eqn:M; [by apply mono|by apply on_error|].
  apply matched_hit in M. cbn [l_stack route run_stack].
  destruct (Hh _ M env (with_params ps c) sess st) as (sess' & st' & resp & -> & HR & HS & HΦ).
  unfold answer. by eapply on_answer.
Qed.

Lemma layer_ok_noCache m segs h :
  (∀ r, hit m segs r = true → profile R V Φ h) →
  layer_ok P cfg env J J' Q (route m segs [noCache; h]).
Proof.
  intros Hh c sess st HJ.
  destruct (match_layer _ _ (req c)) as [|raw|ps] eqn:M; [by apply mono|by apply on_error|].
  apply matched_hit in M. cbn [l_stack route run_stack noCache].
  destruct (Hh _ M env (with_header ("Cache-Control", "no-store") (with_params ps c)) sess st)
    as (sess' & st' & resp & -> & HR & HS & HΦ).
  unfold answer. by eapply on_answer.
Qed.

Lemma layer_ok_csrf m segs h :
  (∀ r, hit m segs r = true → profile R V Φ h) →
  layer_ok P cfg env J J' Q (route m segs [csrfProtection P; h]).
Proof.
  intros Hh c sess st HJ.
  destruct (match_layer _ _ (req c)) as [|raw|ps] eqn:M; [by apply mono|by apply on_error|].
  apply matched_hit in M. cbn [l_stack route run_stack]. unfold csrfProtection.
  destruct (ignored_method _ || verifytoken _ _ _).
  - match goal with
    | |- context [h env ?c1 ?s1 st] =>
        destruct (Hh _ M env c1 s1 st) as (sess' & st' & resp & -> & HR & HS & HΦ);
        unfold answer; apply (on_answer c1 s1 sess' st st' resp); [exact HJ|done..]
    end.
  - apply on_error. exact HJ.
Qed.

(** The layers that are not routes. *)
Lemma layer_ok_cors :
  (∀ c sess st, holds J c sess st →
     Q {| store_after := st; session_after := sess;
          response := {| status := 204; headers := out_headers c; payload := BEmpty |} |}) →
  layer_ok P cfg env J J Q (use [] [cors]).
Proof.
  intros H c sess st HJ. unfold match_layer.
  cbn [l_pattern l_method use match_pattern match_under decode_params method_ok
       l_stack run_stack].
  unfold cors, answer. cbn [req with_params].
  destruct (method (req c)); first [exact HJ | by apply H].
Qed.

Lemma layer_ok_guard :
  (∀ r a st, J r a st → match_under ["api"; "admin"] (path r) = false ∨ a = true →
     J' r a st) →
  (∀ c sess st, holds J c sess st →
     Q {| store_after := st; session_after := sess;
          response := json c 401 [("error", JStr "Authentication required");
                                  ("authenticated", JBool false)] |}) →
  layer_ok P cfg env J J' Q (use ["api"; "admin"] [authenticate; noCache]).
Proof.
  intros Hpass Hstop c sess st HJ. unfold match_layer.
  cbn [l_pattern l_method use match_pattern].
  destruct (match_under ["api"; "admin"] (path (req c))) eqn:U.
  - cbn [decode_params method_ok l_stack use run_stack]. unfold authenticate, answer, noCache.
    unfold holds in *. destruct (admin sess) eqn:A; cbn [negb].
    + cbn [req with_params with_header]. rewrite A.
      apply Hpass; [exact HJ|by right].
    + apply (Hstop (with_params [] c)). unfold holds. by rewrite A.
  - unfold holds in *. apply Hpass; [exact HJ|by left].
Qed.

Lemma layer_ok_fallback prefix h :
  profile R V Φ h →
  layer_ok P cfg env J J' Q (use prefix [h]).
Proof.
  intros Hh c sess st HJ. unfold match_layer.
  cbn [l_pattern l_method use match_pattern].
  destruct (match_under prefix (path (req c))); [|by apply mono].
  cbn [decode_params method_ok l_stack use run_stack].
  destruct (Hh env (with_params [] c) sess st) as (sess' & st' & resp & -> & HR & HS & HΦ).
  unfold answer. by eapply on_answer.
Qed.

Lemma layer_ok_star h :
  profile R V Φ h →
  layer_ok P cfg env J J' Q {| l_method := Some GET; l_pattern := Star; l_stack := [h] |}.
Proof.
  intros Hh c sess st HJ. unfold match_layer. cbn [l_pattern l_method l_stack].
  destruct (forallb _ (path (req c))); [|by apply on_error].
  destruct (method_ok (Some GET) (method (req c))); [|by apply mono].
  cbn [run_stack].
  destruct (Hh env (with_params [] c) sess st) as (sess' & st' & resp & -> & HR & HS & HΦ).
  unfold answer. by eapply on_answer.
Qed.

Lemma layer_ok_preflight :
  (∀ c sess st, holds J c sess st →
     Q {| store_after := st; session_after := sess;
          response := {| status := 204; headers := out_headers c; payload := BEmpty |} |}) →
  layer_ok P cfg env J J Q {| l_method := Some OPTIONS; l_pattern := Star; l_stack := [cors] |}.
Proof.
  intros H c sess st HJ. unfold match_layer. cbn [l_pattern l_method l_stack].
  destruct (forallb _ (path (req c))); [|by apply on_error].
  destruct (method_ok (Some OPTIONS) (method (req c))) eqn:M; [|exact HJ].
  cbn [run_stack]. unfold cors, answer. cbn [req with_params].
  destruct (method (req c)); try discriminate. by apply H.
Qed.

End Rule.

(** ** What each handler does *)

Lemma profile_weaken (R R' : Store → Store → Prop) (V V' : Session → Session → Prop)
  (Φ Φ' : Response → Prop) h :
  profile R V Φ h →
  (∀ st st', R st st' → R' st st') →
  (∀ s s', V s s' → V' s s') →
  (∀ r, Φ r → Φ' r) →
  profile R' V' Φ' h.
Proof.
  intros H HR HV HΦ env c sess st.
  destruct (H env c sess st) as (sess' & st' & r & E & ? & ? & ?).
  exists sess', st', r. auto.
Qed.

Section TryLogic.

Context (R : Store → Store → Prop) {B : Type} (Φ : B → Prop).
Hypothesis R_refl : ∀ st, R st st.
Hypothesis R_trans : ∀ a b c, R a b → R b c → R a c.

Lemma try_keeps_ret {A : Type} (a : A) : try_keeps R (mret a : Try A).
Proof. intros st. apply R_refl. Qed.

Lemma try_keeps_lift {A : Type} (o : option A) : try_keeps R (lift o).
Proof. intros st. apply R_refl. Qed.

Lemma try_keeps_bind {A C : Type} (m : Try A) (k : A → Try C) :
  try_keeps R m → (∀ a, try_keeps R (k a)) → try_keeps R (m ≫= k).
Proof.
  intros Hm Hk st. specialize (Hm st). unfold mbind, Try_bind.
  destruct (m st) as [st' [a|]]; [|done].
  eapply R_trans; [exact Hm|apply Hk].
Qed.

Lemma try_returns_ret (b : B) : Φ b → try_returns Φ (mret b : Try B).
Proof. intros H st a [= <-]. done. Qed.

Lemma try_returns_bind {A : Type} (m : Try A) (k : A → Try B) :
  (∀ a, try_returns Φ (k a)) → try_returns Φ (m ≫= k).
Proof.
  intros Hk st b. unfold mbind, Try_bind.
  destruct (m st) as [st' [a|]]; [apply Hk|done].
Qed.

Lemma try_catch_spec (body : Try B) (handler : B) (st : Store) :
  try_keeps R body → try_returns Φ body → Φ handler →
  R st (try_catch body handler st).1 ∧ Φ (try_catch body handler st).2.
Proof.
  intros Hk Hr Hh. specialize (Hk st). specialize (Hr st). unfold try_catch.
  destruct (body st) as [st' [b|]]; split; auto.
Qed.

End TryLogic.

Lemma answer_try (R : Store → Store → Prop) (Φ : Response → Prop) (sess : Session)
  (body : Try Response) (handler : Response) (st : Store) :
  try_keeps R body → try_returns Φ body → Φ handler →
  ∃ sess' st' r, (let '(st', r) := try_catch body handler st in answer sess st' r)
                 = answer sess' st' r ∧ R st st' ∧ sess = sess' ∧ Φ r.
Proof.
  intros Hk Hr Hh.
  destruct (try_catch_spec R Φ body handler st Hk Hr Hh) as [H1 H2].
  destruct (try_catch body handler st) as [st' r]. by exists sess, st', r.
Qed.

Lemma extends_refl st : extends st st.
Proof. by split. Qed.

Lemma extends_trans a b c : extends a b → extends b c → extends a c.
Proof. intros [? ?] [? ?]. split; by etrans. Qed.

Lemma keeps_call_uuidv4 P : try_keeps extends (call_uuidv4 P).
Proof. intros st. by split. Qed.

Lemma keeps_push_message m : try_keeps extends (push_message m).
Proof. intros st. split; [done|]. by apply prefix_app_r. Qed.

Lemma keeps_push_booking b : try_keeps extends (push_booking b).
Proof. intros st. split; [|done]. by apply prefix_app_r. Qed.

(** The steps of a [try] block, one after the other. *)
Ltac try_steps :=
  repeat first
    [ apply (try_keeps_ret extends extends_refl)
    | apply (try_keeps_lift extends extends_refl)
    | apply keeps_call_uuidv4
    | apply keeps_push_message
    | apply keeps_push_booking
    | apply try_returns_ret; exact I
    | apply (try_keeps_bind extends extends_trans); [|intros ?]
    | apply try_returns_bind; intros ? ].

Lemma profile_post_submit_contact P : profile extends eq is_json (post_submit_contact P).
Proof.
  intros env c sess st. unfold post_submit_contact. cbv zeta.
  apply answer_try; [| |exact I]; case_match; try_steps.
Qed.

Lemma profile_post_submit_booking P : profile extends eq is_json (post_submit_booking P).
Proof.
  intros env c sess st. unfold post_submit_booking. cbv zeta.
  apply answer_try; [| |exact I]; case_match; try_steps.
Qed.

Lemma profile_get_bookings P : profile eq eq is_json (get_bookings P).
Proof.
  intros env c sess st. unfold get_bookings, try_catch.
  cbv [mbind mret Try_bind Try_ret lift].
  repeat case_match; simplify_eq/=; by eexists _, _, _.
Qed.

Lemma profile_get_csrf_token : profile eq eq is_json get_csrf_token.
Proof. intros env c sess st. by eexists _, _, _. Qed.

Lemma profile_get_health : profile eq eq is_json get_health.
Proof. intros env c sess st. by eexists _, _, _. Qed.

Lemma profile_get_check_auth cfg : profile eq eq is_json (get_check_auth cfg).
Proof. intros env c sess st. by eexists _, _, _. Qed.

Lemma profile_get_messages : profile eq eq is_json get_messages.
Proof. intros env c sess st. by eexists _, _, _. Qed.

Lemma profile_api_not_found : profile eq eq is_json api_not_found.
Proof. intros env c sess st. by eexists _, _, _. Qed.

Lemma profile_serve_index : profile eq eq no_document serve_index.
Proof. intros env c sess st. by eexists _, _, _. Qed.

Lemma profile_get_booking_by_id : profile eq eq is_json get_booking_by_id.
Proof.
  intros env c sess st. unfold get_booking_by_id. case_match; by eexists _, _, _.
Qed.

Lemma profile_get_bookings_export P : profile eq eq (λ _, True) (get_bookings_export P).
Proof.
  intros env c sess st. unfold get_bookings_export. repeat case_match; by eexists _, _, _.
Qed.

Lemma profile_post_booking_confirm : profile (λ _ _, True) eq is_json post_booking_confirm.
Proof.
  intros env c sess st. unfold post_booking_confirm. repeat case_match; by eexists _, _, _.
Qed.

Lemma profile_get_message_by_id : profile (λ _ _, True) eq is_json get_message_by_id.
Proof.
  intros env c sess st. unfold get_message_by_id. repeat case_match; by eexists _, _, _.
Qed.

Lemma profile_post_message_mark_read : profile (λ _ _, True) eq is_json post_message_mark_read.
Proof.
  intros env c sess st. unfold post_message_mark_read. repeat case_match; by eexists _, _, _.
Qed.

Lemma profile_post_login cfg :
  profile eq (λ _ _, True) is_json (post_login cfg).
Proof.
  intros env c sess st. unfold post_login. repeat case_match; by eexists _, _, _.
Qed.

Lemma profile_post_logout :
  profile eq (λ s s', admin s' = true → admin s = true) is_json post_logout.
Proof.
  intros env c sess st. unfold post_logout. case_match; by eexists _, _, _.
Qed.

(** ** Without an admin session *)

Lemma match_exact_outside (segs : list Seg) (p : list string) :
  match_under ["api"; "admin"] p = false →
  match_exact (Lit "api" :: Lit "admin" :: segs) p = None.
Proof.
  destruct p as [|a [|b p]]; cbn [match_under match_exact andb].
  - done.
  - intros _. destruct (ci_eqb "api" a); [|done]. by destruct segs.
  - destruct (ci_eqb "api" a); [|done]. cbn [andb].
    destruct (ci_eqb "admin" b); [|done]. by rewrite andb_true_r.
Qed.

Lemma layer_ok_no_path P cfg env (J : Request → bool → Store → Prop) (Q : Result → Prop)
  m segs stack :
  (∀ r a st, J r a st → match_exact segs (path r) = None) →
  layer_ok P cfg env J J Q (route m segs stack).
Proof.
  intros H c sess st HJ. unfold match_layer. cbn [l_pattern route match_pattern].
  by rewrite (H _ _ _ HJ).
Qed.

Section Anonymous.

Context (P : Platform) (cfg : Config) (env : Env) (r : Request) (st : Store).

Lemma anonymous_error g e c sess st' :
  holds (anonymous_at r st g) c sess st' →
  extends st (store_after (error_handler cfg e env c sess st')).
Proof. intros (_ & _ & -> & _). apply extends_refl. Qed.

Lemma anonymous_answer g c sess sess' st1 st' resp :
  holds (anonymous_at r st g) c sess st1 → extends st1 st' → True → True →
  extends st (store_after {| store_after := st'; session_after := sess';
                             response := resp |}).
Proof. by intros (_ & _ & -> & _) H _ _. Qed.

(** A route whose handler only ever appends. *)
Ltac appends rule known :=
  eapply (rule P cfg env (λ res, extends st (store_after res))
            (anonymous_at r st _) (anonymous_at r st _)
            extends (λ _ _, True) (λ _, True));
  lazymatch goal with
  | |- profile _ _ _ _ =>
      eapply profile_weaken;
      [ apply known
      | intros ? ? ?; subst; first [done | apply extends_refl]
      | done
      | done ]
  | |- ∀ _ : Request, hit _ _ _ = true → _ =>
      intros; eapply profile_weaken;
      [ apply known
      | intros ? ? ?; subst; first [done | apply extends_refl]
      | done
      | done ]
  | |- ∀ e : Error, _ => intros; by eapply anonymous_error
  | |- ∀ (c : Ctx) (sess sess' : Session), _ => intros; by eapply anonymous_answer
  | |- _ => by intros ? ? ? ?
  end.

(** A route under [/api/admin], behind the guard. *)
Ltac behind_guard :=
  apply layer_ok_no_path; intros ? ? ? (-> & _ & _ & H);
  apply match_exact_outside; by apply H.

(** One layer further down. *)
Ltac step g :=
  apply (dispatch_rule_cons P cfg env (λ res, extends st (store_after res))
           (anonymous_at r st _) (anonymous_at r st g)).

Lemma anonymous_layers c sess st' :
  holds (anonymous_at r st false) c sess st' →
  extends st (store_after (dispatch P cfg (app P cfg) env c sess st')).
Proof.
  revert c sess st'. unfold app. cbn [List.app].
  step false.
  { apply layer_ok_cors. intros c sess st' (_ & _ & -> & _). apply extends_refl. }
  step false.
  { apply layer_ok_preflight; [intros; by eapply anonymous_error|].
    intros c sess st' (_ & _ & -> & _). apply extends_refl. }
  step false.
  { appends layer_ok_csrf profile_get_csrf_token. }
  step false.
  { appends layer_ok_csrf profile_get_csrf_token. }
  step false.
  { appends layer_ok_plain profile_get_health. }
  step false.
  { appends layer_ok_noCache (profile_get_check_auth cfg). }
  step false.
  { appends layer_ok_noCache (profile_post_login cfg). }
  step true.
  { apply layer_ok_guard.
    - intros r' a st' (-> & -> & -> & _) [H|H]; [|done]. by split_and!.
    - intros c sess st' (_ & _ & -> & _). apply extends_refl. }
  do 8 (step true; [behind_guard|]).
  step true.
  { appends layer_ok_csrf (profile_post_submit_contact P). }
  step true.
  { appends layer_ok_csrf (profile_post_submit_booking P). }
  case_bool_decide; cbn [List.app].
  - step true.
    { appends layer_ok_star profile_serve_index. }
    step true.
    { appends layer_ok_fallback profile_api_not_found. }
    apply (dispatch_rule_nil P cfg env (λ res, extends st (store_after res))). intros c sess st' (_ & _ & -> & _). apply extends_refl.
  - step true.
    { appends layer_ok_fallback profile_api_not_found. }
    apply (dispatch_rule_nil P cfg env (λ res, extends st (store_after res))). intros c sess st' (_ & _ & -> & _). apply extends_refl.
Qed.

End Anonymous.

(** X6.  A request from a session that is not an admin's never changes or
    removes a record: whatever the request, both collections afterwards
    begin with what they held before. *)
Theorem anonymous_only_appends (P : Platform) (cfg : Config) (env : Env) (r : Request)
  (sess : Session) (st : Store) :
  admin sess = false →
  bookings st `prefix_of` bookings (store_after (handle P cfg env r sess st))
  ∧ messages st `prefix_of` messages (store_after (handle P cfg env r sess st)).
Proof.
  intros Ha. apply (anonymous_layers P cfg env r st). by split_and!.
Qed.

Lemma anonymous_only_appends_witness :
  let r := request POST ["api"; "admin"; "bookings"; "uuid-0"; "confirm"] []
             (Some "salt-s3") [] in
  let res := handle sample_platform sample_config sample_env r visitor_session sample_store in
  bookings sample_store `prefix_of` bookings (store_after res)
  ∧ messages sample_store `prefix_of` messages (store_after res).
Proof.
  apply (anonymous_only_appends sample_platform sample_config sample_env). reflexivity.
Defined.

(** ** Becoming an admin *)

Section Promotion.

Context (P : Platform) (cfg : Config) (env : Env) (r : Request) (st : Store).

Lemma promotion_error e c sess st' :
  holds (anonymous_at r st false) c sess st' →
  admin (session_after (error_handler cfg e env c sess st')) = true → logs_in cfg env r.
Proof. intros (_ & Ha & _). cbn [error_handler session_after]. congruence. Qed.

Lemma promotion_answer c sess sess' st1 st' resp :
  holds (anonymous_at r st false) c sess st1 → True → not_promoted sess sess' → True →
  admin (session_after {| store_after := st'; session_after := sess';
                          response := resp |}) = true →
  logs_in cfg env r.
Proof. intros (_ & Ha & _) _ H _ H'. apply H in H'. congruence. Qed.

Lemma promotion_login :
  layer_ok P cfg env (anonymous_at r st false) (anonymous_at r st false)
    (λ res, admin (session_after res) = true → logs_in cfg env r)
    (route POST [Lit "api"; Lit "admin"; Lit "login"] [noCache; post_login cfg]).
Proof.
  intros c sess st' HJ.
  destruct (match_layer _ _ (req c)) as [|raw|ps] eqn:M;
    [exact HJ|by eapply promotion_error|].
  apply matched_hit in M. destruct HJ as (Hr & Ha & _).
  cbn [l_stack route run_stack noCache]. unfold post_login, answer. fields.
  unfold logs_in, credentials_match. rewrite <- Hr.
  destruct (strict_eq_env _ _ && strict_eq_env _ _);
    destruct (session_store_ok env); cbn [session_after admin empty_session];
    intros; first [congruence | by split_and!].
Qed.

Ltac keeps rule known :=
  eapply (rule P cfg env (λ res, admin (session_after res) = true → logs_in cfg env r)
            (anonymous_at r st false) (anonymous_at r st false)
            (λ _ _, True) not_promoted (λ _, True));
  lazymatch goal with
  | |- profile _ _ _ _ =>
      eapply profile_weaken;
      [ apply known | done | intros ? ? ?; subst; first [done | by intros ?] | done ]
  | |- ∀ _ : Request, hit _ _ _ = true → _ =>
      intros; eapply profile_weaken;
      [ apply known | done | intros ? ? ?; subst; first [done | by intros ?] | done ]
  | |- ∀ e : Error, _ => intros; by eapply promotion_error
  | |- ∀ (c : Ctx) (sess sess' : Session), _ => intros; by eapply promotion_answer
  | |- _ => by intros ? ? ? ?
  end.

Ltac step :=
  apply (dispatch_rule_cons P cfg env
           (λ res, admin (session_after res) = true → logs_in cfg env r)
           (anonymous_at r st false) (anonymous_at r st false)).

Lemma promotion_layers c sess st' :
  holds (anonymous_at r st false) c sess st' →
  admin (session_after (dispatch P cfg (app P cfg) env c sess st')) = true →
  logs_in cfg env r.
Proof.
  revert c sess st'. unfold app. cbn [List.app].
  step. { apply layer_ok_cors. intros c sess st' (_ & Ha & _). cbn [session_after]. congruence. }
  step. { apply layer_ok_preflight; [intros; by eapply promotion_error|].
          intros c sess st' (_ & Ha & _). cbn [session_after]. congruence. }
  step. { keeps layer_ok_csrf profile_get_csrf_token. }
  step. { keeps layer_ok_csrf profile_get_csrf_token. }
  step. { keeps layer_ok_plain profile_get_health. }
  step. { keeps layer_ok_noCache (profile_get_check_auth cfg). }
  step. { apply promotion_login. }
  step. { apply layer_ok_guard; [by intros ? ? ? ? ?|].
          intros c sess st' (_ & Ha & _). cbn [session_after]. congruence. }
  step. { keeps layer_ok_plain (profile_get_bookings P). }
  step. { keeps layer_ok_plain profile_get_booking_by_id. }
  step. { keeps layer_ok_csrf profile_post_booking_confirm. }
  step. { keeps layer_ok_plain (profile_get_bookings_export P). }
  step. { keeps layer_ok_plain profile_get_messages. }
  step. { keeps layer_ok_plain profile_get_message_by_id. }
  step. { keeps layer_ok_csrf profile_post_message_mark_read. }
  step. { keeps layer_ok_plain profile_post_logout. }
  step. { keeps layer_ok_csrf (profile_post_submit_contact P). }
  step. { keeps layer_ok_csrf (profile_post_submit_booking P). }
  case_bool_decide; cbn [List.app].
  - step. { keeps layer_ok_star profile_serve_index. }
    step. { keeps layer_ok_fallback profile_api_not_found. }
    apply (dispatch_rule_nil P cfg env
             (λ res, admin (session_after res) = true → logs_in cfg env r)).
    intros c sess st' (_ & Ha & _). cbn [default_404 session_after]. congruence.
  - step. { keeps layer_ok_fallback profile_api_not_found. }
    apply (dispatch_rule_nil P cfg env
             (λ res, admin (session_after res) = true → logs_in cfg env r)).
    intros c sess st' (_ & Ha & _). cbn [default_404 session_after]. congruence.
Qed.

End Promotion.

(** X7.  A session becomes an admin's in one way only: a POST to the login
    route that carries the configured credentials, with the session store
    working.  No other request turns the flag on. *)
Theorem admin_only_by_login (P : Platform) (cfg : Config) (env : Env) (r : Request)
  (sess : Session) (st : Store) :
  admin sess = false →
  admin (session_after (handle P cfg env r sess st)) = true →
  hit POST [Lit "api"; Lit "admin"; Lit "login"] r = true
  ∧ credentials_match cfg r = true
  ∧ session_store_ok env = true.
Proof.
  intros Ha. apply (promotion_layers P cfg env r st). by split_and!.
Qed.

Lemma admin_only_by_login_witness :
  let r := request POST ["api"; "admin"; "login"] [] None
             [("username", JStr "admin"); ("password", JStr "secret")] in
  hit POST [Lit "api"; Lit "admin"; Lit "login"] r = true
  ∧ credentials_match sample_config r = true
  ∧ session_store_ok sample_env = true.
Proof.
  apply (admin_only_by_login sample_platform sample_config sample_env _
           visitor_session sample_store); reflexivity.
Defined.

(** ** The export route *)

Lemma missed_hit decode m segs stack r :
  match_layer decode (route m segs stack) r = NoMatch → hit m segs r = false.
Proof.
  unfold match_layer, hit. cbn [l_pattern l_method route match_pattern].
  destruct (match_exact segs (path r)); [|done].
  destruct (decode_params decode l); [done|]. by case_match.
Qed.

(** Whatever the export route matches, the route with [:id] registered
    before it matches too. *)
Lemma export_behind_booking_by_id decode stack r :
  hit GET [Lit "api"; Lit "admin"; Lit "bookings"; Param] r = false →
  match_layer decode
    (route GET [Lit "api"; Lit "admin"; Lit "bookings"; Lit "export"] stack) r = NoMatch.
Proof.
  unfold match_layer, hit. cbn [l_pattern l_method route match_pattern].
  destruct (path r) as [|a [|b [|c [|d p]]]]; cbn [match_exact]; try done;
    repeat (case_match; try done).
  all: destruct (String.eqb d "") eqn:E;
    [apply String.eqb_eq in E; subst d; discriminate|].
  all: destruct p as [|e [|? ?]]; cbn [match_exact fmap option_fmap option_map] in *;
    repeat (case_match; simplify_eq/=); try done.
  all: cbn [decode_params] in *; by simplify_eq.
Qed.

Lemma is_json_no_document r : is_json r → no_document r.
Proof. unfold is_json, no_document. by destruct (payload r). Qed.

Section ExportRoute.

Context (P : Platform) (cfg : Config) (env : Env).

Lemma export_error g e c sess st :
  holds (past_booking_by_id g) c sess st →
  no_document (response (error_handler cfg e env c sess st)).
Proof. intros _. unfold no_document. cbn [error_handler response]. by case_bool_decide. Qed.

Lemma export_answer g c sess sess' st st' resp :
  holds (past_booking_by_id g) c sess st → True → True → no_document resp →
  no_document (response {| store_after := st'; session_after := sess';
                           response := resp |}).
Proof. by intros _ _ _ H. Qed.

Lemma export_booking_by_id :
  layer_ok P cfg env (past_booking_by_id false) (past_booking_by_id true)
    (λ res, no_document (response res))
    (route GET [Lit "api"; Lit "admin"; Lit "bookings"; Param] [get_booking_by_id]).
Proof.
  intros c sess st HJ.
  destruct (match_layer _ _ (req c)) as [|raw|ps] eqn:M.
  - intros _. by eapply missed_hit.
  - by eapply export_error.
  - cbn [l_stack route run_stack].
    destruct (profile_get_booking_by_id env (with_params ps c) sess st)
      as (sess' & st' & resp & -> & _ & _ & H).
    by apply is_json_no_document.
Qed.

Lemma export_skipped :
  layer_ok P cfg env (past_booking_by_id true) (past_booking_by_id true)
    (λ res, no_document (response res))
    (route GET [Lit "api"; Lit "admin"; Lit "bookings"; Lit "export"]
       [get_bookings_export P]).
Proof.
  intros c sess st HJ. by rewrite (export_behind_booking_by_id _ _ _ (HJ eq_refl)).
Qed.

Ltac sends_json rule known :=
  eapply (rule P cfg env (λ res, no_document (response res))
            (past_booking_by_id _) (past_booking_by_id _)
            (λ _ _, True) (λ _ _, True) no_document);
  lazymatch goal with
  | |- profile _ _ _ _ =>
      eapply profile_weaken;
      [ apply known | done | done | first [done | apply is_json_no_document] ]
  | |- ∀ _ : Request, hit _ _ _ = true → _ =>
      intros; eapply profile_weaken;
      [ apply known | done | done | first [done | apply is_json_no_document] ]
  | |- ∀ e : Error, _ => intros; by eapply export_error
  | |- ∀ (c : Ctx) (sess sess' : Session), _ => intros; by eapply export_answer
  | |- _ => by intros ? ? ? ?
  end.

Ltac step g :=
  apply (dispatch_rule_cons P cfg env (λ res, no_document (response res))
           (past_booking_by_id _) (past_booking_by_id g)).

Lemma export_layers c sess st :
  no_document (response (dispatch P cfg (app P cfg) env c sess st)).
Proof.
  cut (holds (past_booking_by_id false) c sess st); [|done].
  revert c sess st. unfold app. cbn [List.app].
  step false. { by apply layer_ok_cors. }
  step false. { apply layer_ok_preflight; [intros; by eapply export_error|done]. }
  step false. { sends_json layer_ok_csrf profile_get_csrf_token. }
  step false. { sends_json layer_ok_csrf profile_get_csrf_token. }
  step false. { sends_json layer_ok_plain profile_get_health. }
  step false. { sends_json layer_ok_noCache (profile_get_check_auth cfg). }
  step false. { sends_json layer_ok_noCache (profile_post_login cfg). }
  step false. { by apply layer_ok_guard. }
  step false. { sends_json layer_ok_plain (profile_get_bookings P). }
  step true. { apply export_booking_by_id. }
  step true. { sends_json layer_ok_csrf profile_post_booking_confirm. }
  step true. { apply export_skipped. }
  step true. { sends_json layer_ok_plain profile_get_messages. }
  step true. { sends_json layer_ok_plain profile_get_message_by_id. }
  step true. { sends_json layer_ok_csrf profile_post_message_mark_read. }
  step true. { sends_json layer_ok_plain profile_post_logout. }
  step true. { sends_json layer_ok_csrf (profile_post_submit_contact P). }
  step true. { sends_json layer_ok_csrf (profile_post_submit_booking P). }
  case_bool_decide; cbn [List.app].
  - step true. { sends_json layer_ok_star profile_serve_index. }
    step true. { sends_json layer_ok_fallback profile_api_not_found. }
    by apply (dispatch_rule_nil P cfg env (λ res, no_document (response res))).
  - step true. { sends_json layer_ok_fallback profile_api_not_found. }
    by apply (dispatch_rule_nil P cfg env (λ res, no_document (response res))).
Qed.

End ExportRoute.

(** X8.  No request is ever answered with the export document.  Whatever
    the method, path, query, session and store, the response body is never
    the indented JSON text that only the export handler sends: the route
    registered before it for [/api/admin/bookings/:id] answers every request
    the export route would match. *)
Theorem export_is_never_served (P : Platform) (cfg : Config) (env : Env) (r : Request)
  (sess : Session) (st : Store) :
  match payload (response (handle P cfg env r sess st)) with
  | BText _ _ => False
  | _ => True
  end.
Proof. apply (export_layers P cfg env). Qed.

(** ** The authentication guard *)

(** A route without parameters that is not hit is passed over. *)
Lemma literal_route_missed decode m a b c stack r :
  hit m [Lit a; Lit b; Lit c] r = false →
  match_layer decode (route m [Lit a; Lit b; Lit c] stack) r = NoMatch.
Proof.
  unfold match_layer, hit. cbn [l_pattern l_method route match_pattern].
  destruct (path r) as [|x [|y [|z [|w [|? ?]]]]]; cbn [match_exact]; try done;
    repeat (case_match; simplify_eq/=); try done;
    cbn [decode_params] in *; by simplify_eq.
Qed.

Lemma ci_eqb_other s t x : lower s ≠ lower t → ci_eqb t x = true → ci_eqb s x = false.
Proof.
  unfold ci_eqb. intros Hne H. apply String.eqb_eq in H. apply String.eqb_neq. congruence.
Qed.

(** The two token routes are not under [/api/admin]. *)
Lemma token_routes_outside decode stack r :
  match_under ["api"; "admin"] (path r) = true →
  match_layer decode (route GET [Lit "api"; Lit "csrf-token"] stack) r = NoMatch
  ∧ match_layer decode (route GET [Lit "csrf-token"] stack) r = NoMatch.
Proof.
  unfold match_layer. cbn [l_pattern l_method route match_pattern].
  destruct (path r) as [|x [|y p]]; cbn [match_under match_exact andb]; try done.
  - by rewrite andb_false_r.
  - rewrite andb_true_r. intros [Hx Hy]%andb_true_iff.
    rewrite Hx, (ci_eqb_other "csrf-token" "admin" y), (ci_eqb_other "csrf-token" "api" x);
      done.
Qed.

(** X9.  Under [/api/admin] everything but the health, check-auth and login
    routes is behind the guard: from a session that is not an admin's, and
    whatever the method (a preflight apart) and the rest of the path, as
    long as its escapes can be decoded, the answer is 401 "Authentication
    required", before any token check, and session and store stay as they
    were. *)
Theorem guard_rejects (P : Platform) (cfg : Config) (env : Env) (r : Request)
  (sess : Session) (st : Store) :
  admin sess = false →
  method r ≠ OPTIONS →
  (∀ seg, seg ∈ path r → has_percent seg = true → is_Some (decodeURIComponent P seg)) →
  match_under ["api"; "admin"] (path r) = true →
  hit GET [Lit "api"; Lit "admin"; Lit "health"] r = false →
  hit GET [Lit "api"; Lit "admin"; Lit "check-auth"] r = false →
  hit POST [Lit "api"; Lit "admin"; Lit "login"] r = false →
  handle P cfg env r sess st =
    {| store_after := st; session_after := sess;
       response := {| status := 401; headers := [];
                      payload := BJson (JObj [("error", JStr "Authentication required");
                                              ("authenticated", JBool false)]) |} |}.
Proof.
  intros Ha Hm Hd Hu H1 H2 H3. unfold handle, app. cbn [List.app].
  rewrite (dispatch_enter _ _ _ _ _ _ _ _ []) by done.
  cbn [run_stack l_stack use]. unfold cors. fields.
  destruct (token_routes_outside (decodeURIComponent P) [csrfProtection P; get_csrf_token] r Hu)
    as [T1 T2].
  assert (Forall (λ seg, has_percent seg = false ∨ is_Some (decodeURIComponent P seg))
            (path r)) as Hd'.
  { apply Forall_forall. intros seg Hseg.
    destruct (has_percent seg) eqn:E; [right; by apply Hd|by left]. }
  destruct (method r) eqn:M; try (exfalso; by apply Hm).
  all: cbv beta iota.
  all: rewrite dispatch_skip by (apply star_passed; [fields; by rewrite M|done]).
  all: rewrite dispatch_skip by exact T1.
  all: rewrite dispatch_skip by exact T2.
  all: rewrite dispatch_skip by (by apply literal_route_missed).
  all: rewrite dispatch_skip by (by apply literal_route_missed).
  all: rewrite dispatch_skip by (by apply literal_route_missed).
  all: rewrite (dispatch_enter _ _ _ _ _ _ _ _ [])
    by (unfold match_layer; cbn [l_pattern l_method use match_pattern]; fields; by rewrite Hu).
  all: cbn [run_stack l_stack use]; unfold authenticate; rewrite Ha; done.
Qed.

Lemma guard_rejects_witness :
  handle sample_platform sample_config sample_env
    (request GET ["api"; "admin"; "messages"; "uuid-2"] [] None []) visitor_session sample_store
  = {| store_after := sample_store; session_after := visitor_session;
       response := {| status := 401; headers := [];
                      payload := BJson (JObj [("error", JStr "Authentication required");
                                              ("authenticated", JBool false)]) |} |}.
Proof.
  apply (guard_rejects sample_platform sample_config sample_env); try done.
  intros seg Hseg. repeat (apply elem_of_cons in Hseg as [->|Hseg]); try done.
  by apply elem_of_nil in Hseg.
Defined.

(** ** What a public submission stores *)

Ltac outcome :=
  eexists; split; [reflexivity|];
  cbn [store_after response status json bookings messages andb orb negb is_str to_string];
  rewrite ?andb_false_r, ?andb_true_r;
  split; intros; try discriminate; split; eauto.

Lemma contact_stores P env c sess st :
  ∃ res, post_submit_contact P env c sess st = Done res
    ∧ (stored_form P SubmitContact (body (req c)) = true →
       one_more SubmitContact st (store_after res)
       ∧ (valid_form P SubmitContact (body (req c)) = false →
          status (response res) = 500%nat))
    ∧ (stored_form P SubmitContact (body (req c)) = false →
       unchanged st (store_after res)
       ∧ (status (response res) = 400%nat ∨ status (response res) = 500%nat)).
Proof.
  unfold post_submit_contact, stored_form, valid_form, valid_contact, nonempty_str, printable,
    try_catch, answer, getContactEmailTemplate, call_uuidv4, push_message, js_trim,
    one_more, unchanged.
  cbv [mbind mret Try_bind Try_ret lift option_bind].
  destruct (truthy (field (body (req c)) "name")) eqn:Tn; cbn [negb orb andb];
    [|by outcome].
  destruct (truthy (field (body (req c)) "email")) eqn:Te; cbn [negb orb andb];
    [|by outcome].
  destruct (truthy (field (body (req c)) "message")) eqn:Tm; cbn [negb orb andb];
    [|by outcome].
  destruct (field (body (req c)) "name") as [| | | |name| | |]; try by outcome.
  destruct (field (body (req c)) "email") as [| | | |email| | |]; try by outcome.
  destruct (truthy (field (body (req c)) "phone")) eqn:Tp;
    [destruct (field (body (req c)) "phone") as [| | | |phone| | |]; try by outcome|];
    (destruct (field (body (req c)) "message") as [| | | |message| | |]; try by outcome);
    cbn [to_string fmap option_fmap option_map];
    (destruct (to_string P (js_or (field (body (req c)) "subject") (JStr "General Inquiry")));
       by outcome).
Qed.

Lemma booking_stores P env c sess st :
  ∃ res, post_submit_booking P env c sess st = Done res
    ∧ (stored_form P SubmitBooking (body (req c)) = true →
       one_more SubmitBooking st (store_after res)
       ∧ (valid_form P SubmitBooking (body (req c)) = false →
          status (response res) = 500%nat))
    ∧ (stored_form P SubmitBooking (body (req c)) = false →
       unchanged st (store_after res)
       ∧ (status (response res) = 400%nat ∨ status (response res) = 500%nat)).
Proof.
  unfold post_submit_booking, stored_form, valid_form, valid_booking, booking_required,
    booking_printed, printable, try_catch, answer, getBookingEmailTemplate, call_uuidv4,
    push_booking, one_more, unchanged.
  cbv [mbind mret Try_bind Try_ret lift option_bind forallb].
  destruct (truthy (field (body (req c)) "name")); cbn [negb orb andb]; [|by outcome].
  destruct (truthy (field (body (req c)) "email")); cbn [negb orb andb]; [|by outcome].
  destruct (truthy (field (body (req c)) "phone")); cbn [negb orb andb]; [|by outcome].
  destruct (truthy (field (body (req c)) "eventType")); cbn [negb orb andb]; [|by outcome].
  destruct (truthy (field (body (req c)) "date")); cbn [negb orb andb]; [|by outcome].
  destruct (truthy (field (body (req c)) "package")); cbn [negb orb andb]; [|by outcome].
  destruct (truthy (field (body (req c)) "startTime")); cbn [negb orb andb]; [|by outcome].
  destruct (truthy (field (body (req c)) "endTime")); cbn [negb orb andb]; [|by outcome].
  destruct (truthy (field (body (req c)) "location")); cbn [negb orb andb]; [|by outcome].
  destruct (to_string P (field (body (req c)) "date")) eqn:Ed; [|by outcome].
  destruct (to_string P (field (body (req c)) "startTime")); [|by outcome].
  destruct (new_Date_printable P _ _ Ed) as [d ->].
  destruct (to_string P (field (body (req c)) "name")); [|by outcome].
  destruct (to_string P (field (body (req c)) "eventType")); [|by outcome].
  destruct (to_string P (field (body (req c)) "endTime")); [|by outcome].
  destruct (to_string P (field (body (req c)) "location")); [|by outcome].
  destruct (to_string P (field (body (req c)) "package")); [|by outcome].
  destruct (to_string P (js_or (field (body (req c)) "details") (JStr "None")));
    by outcome.
Qed.

Lemma submission_stores P e env c sess st :
  admin_only e = false →
  ∃ res, endpoint_handler P e env c sess st = Done res
    ∧ (stored_form P e (body (req c)) = true →
       one_more e st (store_after res)
       ∧ (valid_form P e (body (req c)) = false → status (response res) = 500%nat))
    ∧ (stored_form P e (body (req c)) = false →
       unchanged st (store_after res)
       ∧ (status (response res) = 400%nat ∨ status (response res) = 500%nat)).
Proof.
  destruct e; try done; intros _; [apply contact_stores|apply booking_stores].
Qed.

(** X10.  When a public form leaves a record behind.  With a valid CSRF
    token, the record is appended exactly when the form passes the checks
    and conversions made before the [push]; a failure after it (a field that
    cannot be written into the confirmation email) is answered 500 although
    the record has been stored, and a failure before it leaves both
    collections as they were. *)
Theorem submission_stores_before_answering (P : Platform) (cfg : Config) (env : Env)
  (e : Endpoint) (r : Request) (sess : Session) (st : Store) :
  addressed P e r →
  admin_only e = false →
  csrf_ok P env r sess = true →
  (stored_form P e (body r) = true →
     one_more e st (store_after (handle P cfg env r sess st))
     ∧ (valid_form P e (body r) = false →
        status (response (handle P cfg env r sess st)) = 500%nat))
  ∧ (stored_form P e (body r) = false →
     unchanged st (store_after (handle P cfg env r sess st))
     ∧ (status (response (handle P cfg env r sess st)) = 400%nat
        ∨ status (response (handle P cfg env r sess st)) = 500%nat)).
Proof.
  intros H Hpub Hok.
  rewrite (handle_endpoint_cases P cfg env e r sess st H), Hpub, Hok. cbn [andb].
  destruct (submission_stores P e env (entered P env e r sess) (settled env sess) st Hpub)
    as (res & -> & Hres).
  exact Hres.
Qed.

Lemma submission_stores_before_answering_witness :
  let r := request POST ["api"; "submit-contact"] [] (Some "salt-s3")
             [("name", JStr "A"); ("email", JStr "a@b.com"); ("message", JStr "Hello");
              ("subject", JObj [("toString", JNum 1)])] in
  let res := handle sample_platform sample_config sample_env r visitor_session sample_store in
  (stored_form sample_platform SubmitContact (body r) = true →
     one_more SubmitContact sample_store (store_after res)
     ∧ (valid_form sample_platform SubmitContact (body r) = false →
        status (response res) = 500%nat))
  ∧ (stored_form sample_platform SubmitContact (body r) = false →
     unchanged sample_store (store_after res)
     ∧ (status (response res) = 400%nat ∨ status (response res) = 500%nat)).
Proof.
  apply (submission_stores_before_answering sample_platform sample_config sample_env
           SubmitContact).
  - repeat split.
  - reflexivity.
  - vm_compute. reflexivity.
Defined.

(** An instance: a contact form whose subject cannot be converted to a
    string is answered 500, and its message is in the collection. *)
Lemma contact_stored_and_answered_500 :
  let r := request POST ["api"; "submit-contact"] [] (Some "salt-s3")
             [("name", JStr "A"); ("email", JStr "a@b.com"); ("message", JStr "Hello");
              ("subject", JObj [("toString", JNum 1)])] in
  let res := handle sample_platform sample_config sample_env r visitor_session sample_store in
  status (response res) = 500%nat
  ∧ length (messages (store_after res)) = S (length (messages sample_store)).
Proof. vm_compute. done. Qed.

(** X11.  Only a valid form is answered 201, and every valid form is: the
    conditions of [valid_form] are the ones the two handlers impose, no
    more and no less. *)
Theorem created_iff_valid (P : Platform) (cfg : Config) (env : Env) (e : Endpoint)
  (r : Request) (sess : Session) (st : Store) :
  addressed P e r →
  admin_only e = false →
  csrf_ok P env r sess = true →
  status (response (handle P cfg env r sess st)) = 201%nat
  ↔ valid_form P e (body r) = true.
Proof.
  intros H Hpub Hok.
  rewrite (handle_endpoint_cases P cfg env e r sess st H), Hpub, Hok. cbn [andb].
  destruct e as [seg|seg| |]; try done; cbn [endpoint_handler valid_form]; split.
  - destruct (endpoint_handler_answers P SubmitContact env
                (entered P env SubmitContact r sess) (settled env sess) st) as [res E].
    cbn [endpoint_handler] in E. rewrite E. cbn [conclude].
    apply (contact_201_valid P env _ _ _ res E).
  - intros Hv.
    destruct (contact_accepts P env (entered P env SubmitContact r sess) (settled env sess) st
                Hv) as (m & Hm & _).
    by rewrite (Hm env eq_refl).
  - destruct (endpoint_handler_answers P SubmitBooking env
                (entered P env SubmitBooking r sess) (settled env sess) st) as [res E].
    cbn [endpoint_handler] in E. rewrite E. cbn [conclude].
    apply (booking_201_valid P env _ _ _ res E).
  - intros Hv.
    destruct (booking_accepts P env (entered P env SubmitBooking r sess) (settled env sess) st
                Hv) as (b & Hb & _).
    by rewrite (Hb env eq_refl).
Qed.

Lemma created_iff_valid_witness :
  let r := request POST ["api"; "submit-contact"] [] (Some "salt-s3")
             [("name", JStr "A"); ("email", JStr "a@b.com"); ("message", JStr "Hello")] in
  status (response (handle sample_platform sample_config sample_env r visitor_session
                      sample_store)) = 201%nat
  ↔ valid_form sample_platform SubmitContact (body r) = true.
Proof.
  apply (created_iff_valid sample_platform sample_config sample_env SubmitContact).
  - repeat split.
  - reflexivity.
  - vm_compute. reflexivity.
Defined.

(** ** Looking a record up by its identifier *)

Lemma get_message_by_id_answers env c sess st :
  ∃ res, get_message_by_id env c sess st = Done res.
Proof. unfold get_message_by_id, answer. repeat case_match; eauto. Qed.

Lemma handle_get_booking P cfg env r seg x sess st :
  method r = GET →
  path r = ["api"; "admin"; "bookings"; seg] →
  seg ≠ "" →
  decodeURIComponent P seg = Some x →
  admin sess = true →
  Done (handle P cfg env r sess st) =
    get_booking_by_id env
      {| req := r; params := [x]; out_headers := [("Cache-Control", "no-store")];
         csrf_token := None |} sess st.
Proof.
  intros Hm Hp Hne Hx Ha. destruct r as [m p q h b]; simpl in Hm, Hp; subst.
  destruct seg as [|a seg]; [done|].
  unfold handle, app. cbn [List.app].
  enter (@nil string).
  cbn [run_stack l_stack use route cors method req with_params].
  skip.
  do 5 skip. enter (@nil string).
  cbn [run_stack l_stack use route noCache method req with_params].
  unfold authenticate. rewrite Ha. cbn [negb].
  skip. enter_param Hx.
  cbn [run_stack l_stack route with_params with_header req params out_headers csrf_token
       List.app].
  match goal with
  | |- context [get_booking_by_id env ?c sess st] =>
      destruct (get_booking_by_id_answers env c sess st) as [res E]; rewrite E
  end.
  by rewrite <- E.
Qed.

Lemma handle_get_message P cfg env r seg x sess st :
  method r = GET →
  path r = ["api"; "admin"; "messages"; seg] →
  seg ≠ "" →
  decodeURIComponent P seg = Some x →
  admin sess = true →
  Done (handle P cfg env r sess st) =
    get_message_by_id env
      {| req := r; params := [x]; out_headers := [("Cache-Control", "no-store")];
         csrf_token := None |} sess st.
Proof.
  intros Hm Hp Hne Hx Ha. destruct r as [m p q h b]; simpl in Hm, Hp; subst.
  destruct seg as [|a seg]; [done|].
  unfold handle, app. cbn [List.app].
  enter (@nil string).
  cbn [run_stack l_stack use route cors method req with_params].
  skip.
  do 5 skip. enter (@nil string).
  cbn [run_stack l_stack use route noCache method req with_params].
  unfold authenticate. rewrite Ha. cbn [negb].
  do 5 skip. enter_param Hx.
  cbn [run_stack l_stack route with_params with_header req params out_headers csrf_token
       List.app].
  match goal with
  | |- context [get_message_by_id env ?c sess st] =>
      destruct (get_message_by_id_answers env c sess st) as [res E]; rewrite E
  end.
  by rewrite <- E.
Qed.

Lemma find_none_iff {A : Type} (f : A → bool) (l : list A) :
  List.find f l = None ↔ ∀ x, x ∈ l → f x = false.
Proof.
  split.
  - intros H x Hx. apply (find_none f l H). by apply list_elem_of_In.
  - intros H. destruct (List.find f l) as [x|] eqn:E; [|done].
    apply find_some in E as [Hin Hf]. apply list_elem_of_In in Hin.
    by rewrite (H x Hin) in Hf.
Qed.

Lemma find_NoDup {A : Type} (f : A → string) (l : list A) (i : nat) (x : A) :
  NoDup (f <$> l) → l !! i = Some x →
  List.find (λ y, String.eqb (f x) (f y)) l = Some x.
Proof.
  revert i. induction l as [|a l IH]; intros i Hnd Hi; [done|].
  rewrite fmap_cons in Hnd. apply NoDup_cons in Hnd as [Ha Hnd].
  destruct i as [|i]; simpl in *.
  - simplify_eq. by rewrite String.eqb_refl.
  - destruct (String.eqb (f x) (f a)) eqn:E.
    + apply String.eqb_eq in E. destruct Ha. rewrite <- E.
      apply list_elem_of_fmap_2. by eapply list_elem_of_lookup_2.
    + by rewrite (IH i Hnd Hi).
Qed.

(** X12.  An admin's GET of [/api/admin/bookings/:id] changes neither the
    store nor the session.  It is answered 404 exactly when no booking has
    the identifier; in a store the server can be in (the generator never
    repeating an identifier) a booking is returned under its own
    identifier, with status 200. *)
Theorem booking_lookup (P : Platform) (cfg : Config) (env : Env) (r : Request)
  (seg x : string) (sess : Session) (st : Store) :
  method r = GET →
  path r = ["api"; "admin"; "bookings"; seg] →
  seg ≠ "" →
  decodeURIComponent P seg = Some x →
  admin sess = true →
  store_after (handle P cfg env r sess st) = st
  ∧ session_after (handle P cfg env r sess st) = sess
  ∧ (status (response (handle P cfg env r sess st)) = 404%nat
     ↔ ∀ b, b ∈ bookings st → b_id b ≠ x)
  ∧ ((∀ j k, uuidv4 P j = uuidv4 P k → j = k) → reachable P cfg st →
     ∀ b, b ∈ bookings st → b_id b = x →
       status (response (handle P cfg env r sess st)) = 200%nat
       ∧ payload (response (handle P cfg env r sess st)) = BJson (JObj (booking_json b))).
Proof.
  intros Hm Hp Hne Hx Ha.
  pose proof (handle_get_booking P cfg env r seg x sess st Hm Hp Hne Hx Ha) as E.
  unfold get_booking_by_id, answer in E. cbn [param_id params strict_eq_str] in E.
  split_and!.
  - destruct (List.find _ (bookings st)); by injection E as ->.
  - destruct (List.find _ (bookings st)); by injection E as ->.
  - destruct (List.find _ (bookings st)) as [b|] eqn:F; injection E as ->;
      cbn [response status json]; split; try done.
    + intros H. apply find_some in F as [Hin Hb]. apply String.eqb_eq in Hb.
      apply list_elem_of_In in Hin. by destruct (H b Hin).
    + intros _ b Hb Hbx. subst x. rewrite find_none_iff in F. specialize (F b Hb).
      by rewrite String.eqb_refl in F.
  - intros Hinj Hreach b Hb Hbx. subst x.
    destruct (reachable_ids_ok P cfg Hinj st Hreach) as (_ & _ & Hnd & _).
    apply list_elem_of_lookup_1 in Hb as [i Hi].
    rewrite (find_NoDup b_id _ i b Hnd Hi) in E. by injection E as ->.
Qed.

Lemma booking_lookup_witness :
  let r := request GET ["api"; "admin"; "bookings"; "uuid-1"] [] None [] in
  let res := handle sample_platform sample_config sample_env r admin_session sample_store in
  store_after res = sample_store
  ∧ session_after res = admin_session
  ∧ (status (response res) = 404%nat ↔ ∀ b, b ∈ bookings sample_store → b_id b ≠ "uuid-1")
  ∧ ((∀ j k, uuidv4 sample_platform j = uuidv4 sample_platform k → j = k) →
     reachable sample_platform sample_config sample_store →
     ∀ b, b ∈ bookings sample_store → b_id b = "uuid-1" →
       status (response res) = 200%nat
       ∧ payload (response res) = BJson (JObj (booking_json b))).
Proof.
  apply (booking_lookup sample_platform sample_config sample_env _ "uuid-1"); done.
Defined.

(** ** Reading a message *)

(** X13.  An admin's GET of [/api/admin/messages/:id] is not a pure read.
    For a message of a store the server can be in it puts in that message's
    place a message that is read, carries the time of the request as its
    read time and is otherwise the same; it leaves every other record
    alone, and answers 200 with the message, [read: true] and the read time
    included.  It is answered 404, with nothing changed, exactly when no
    message has the identifier. *)
Theorem reading_marks_read (P : Platform) (cfg : Config) (env : Env) (r : Request)
  (seg x : string) (sess : Session) (st : Store) :
  method r = GET →
  path r = ["api"; "admin"; "messages"; seg] →
  seg ≠ "" →
  decodeURIComponent P seg = Some x →
  admin sess = true →
  (status (response (handle P cfg env r sess st)) = 404%nat
   ↔ ∀ m, m ∈ messages st → m_id m ≠ x)
  ∧ (status (response (handle P cfg env r sess st)) = 404%nat →
     store_after (handle P cfg env r sess st) = st)
  ∧ ((∀ j k, uuidv4 P j = uuidv4 P k → j = k) → reachable P cfg st →
     ∀ i m, messages st !! i = Some m → m_id m = x →
       ∃ m', store_after (handle P cfg env r sess st) =
               {| bookings := bookings st;
                  messages := <[i := m']> (messages st);
                  uuid_calls := uuid_calls st |}
             ∧ m_read m' = true
             ∧ m_readAt m' = Some (now env)
             ∧ same_message m m'
             ∧ status (response (handle P cfg env r sess st)) = 200%nat
             ∧ payload (response (handle P cfg env r sess st)) =
                 BJson (JObj [("id", JStr (m_id m));
                                 ("name", JStr (m_name m));
                                 ("email", JStr (m_email m));
                                 ("phone", m_phone m);
                                 ("subject", m_subject m);
                                 ("message", JStr (m_message m));
                                 ("date", JDate (Some (m_date m)));
                                 ("read", JBool true);
                                 ("archived", JBool (m_archived m));
                                 ("readAt", JDate (Some (now env)))])).
Proof.
  intros Hm Hp Hne Hx Ha.
  pose proof (handle_get_message P cfg env r seg x sess st Hm Hp Hne Hx Ha) as E.
  unfold get_message_by_id, answer in E. cbn [param_id params strict_eq_str] in E.
  split_and!.
  - destruct (findIndex _ (messages st)) as [i|] eqn:F.
    + apply findIndex_Some in F as (m & Hi & Hf & _). apply String.eqb_eq in Hf.
      rewrite Hi in E. injection E as ->. cbn [response status json]. split; [done|].
      intros H. by destruct (H m (list_elem_of_lookup_2 _ _ _ Hi)).
    + injection E as ->. cbn [response status json]. split; [|done].
      intros _ m [i Hi]%list_elem_of_lookup_1 Hmx. subst x.
      assert (findIndex (λ m0, String.eqb (m_id m) (m_id m0)) (messages st) ≠ None) as Hn;
        [|done].
      clear F. revert i Hi. induction (messages st) as [|a l IH]; intros i Hi; [done|].
      cbn [findIndex]. destruct (String.eqb (m_id m) (m_id a)) eqn:Ea; [done|].
      destruct i as [|i]; simpl in Hi.
      * simplify_eq. by rewrite String.eqb_refl in Ea.
      * specialize (IH i Hi). by destruct (findIndex _ l).
  - destruct (findIndex _ (messages st)) as [i|] eqn:F; [|by injection E as ->].
    apply findIndex_Some in F as (m & Hi & _). rewrite Hi in E. by injection E as ->.
  - intros Hinj Hreach i m Hi Hmx. subst x.
    destruct (reachable_ids_ok P cfg Hinj st Hreach) as (_ & _ & _ & Hnd).
    rewrite (findIndex_NoDup m_id _ i m Hnd Hi), Hi in E. injection E as ->.
    exists (mark_read (now env) m). by split_and!.
Qed.

Lemma reading_marks_read_witness :
  let r := request GET ["api"; "admin"; "messages"; "uuid-2"] [] None [] in
  let res := handle sample_platform sample_config sample_env r admin_session sample_store in
  (status (response res) = 404%nat
   ↔ ∀ m, m ∈ messages sample_store → m_id m ≠ "uuid-2")
  ∧ (status (response res) = 404%nat →
     store_after res = sample_store)
  ∧ ((∀ j k, uuidv4 sample_platform j = uuidv4 sample_platform k → j = k) → reachable sample_platform sample_config sample_store →
     ∀ i m, messages sample_store !! i = Some m → m_id m = "uuid-2" →
       ∃ m', store_after res =
               {| bookings := bookings sample_store;
                  messages := <[i := m']> (messages sample_store);
                  uuid_calls := uuid_calls sample_store |}
             ∧ m_read m' = true
             ∧ m_readAt m' = Some (now sample_env)
             ∧ same_message m m'
             ∧ status (response res) = 200%nat
             ∧ payload (response res) =
                 BJson (JObj [("id", JStr (m_id m));
                                 ("name", JStr (m_name m));
                                 ("email", JStr (m_email m));
                                 ("phone", m_phone m);
                                 ("subject", m_subject m);
                                 ("message", JStr (m_message m));
                                 ("date", JDate (Some (m_date m)));
                                 ("read", JBool true);
                                 ("archived", JBool (m_archived m));
                                 ("readAt", JDate (Some (now sample_env)))])).
Proof.
  apply (reading_marks_read sample_platform sample_config sample_env _ "uuid-2"); done.
Defined.

Lemma same_marking env c1 c2 sess1 sess2 st res1 res2 :
  param_id c1 = param_id c2 →
  get_message_by_id env c1 sess1 st = Done res1 →
  post_message_mark_read env c2 sess2 st = Done res2 →
  store_after res1 = store_after res2.
Proof.
  unfold get_message_by_id, post_message_mark_read, answer. intros ->.
  repeat case_match; intros; by simplify_eq.
Qed.

(** X14.  Whatever the store, reading a message through GET changes the
    store in exactly the way the POST to its [mark-read] route does: the
    GET performs the state change without the CSRF token the POST must
    carry. *)
Theorem reading_is_marking (P : Platform) (cfg : Config) (env : Env) (r1 r2 : Request)
  (seg1 seg2 x : string) (sess1 sess2 : Session) (st : Store) :
  method r1 = GET →
  path r1 = ["api"; "admin"; "messages"; seg1] →
  seg1 ≠ "" →
  decodeURIComponent P seg1 = Some x →
  addressed P (MarkRead seg2) r2 →
  decodeURIComponent P seg2 = Some x →
  admin sess1 = true →
  admin sess2 = true →
  csrf_ok P env r2 sess2 = true →
  store_after (handle P cfg env r1 sess1 st) = store_after (handle P cfg env r2 sess2 st).
Proof.
  intros Hm Hp Hne Hx1 H2 Hx2 Ha1 Ha2 Hok.
  pose proof (handle_get_message P cfg env r1 seg1 x sess1 st Hm Hp Hne Hx1 Ha1) as E1.
  rewrite (handle_endpoint_cases P cfg env _ r2 sess2 st H2), Ha2, Hok.
  cbn [admin_only andb negb endpoint_handler].
  destruct (endpoint_handler_answers P (MarkRead seg2) env
              (entered P env (MarkRead seg2) r2 sess2) (settled env sess2) st) as [res2 E2].
  cbn [endpoint_handler] in E2. rewrite E2. cbn [conclude].
  eapply same_marking; [|symmetry; exact E1|exact E2].
  rewrite (param_id_entered P env _ r2 sess2 seg2 x); [done|by right|done].
Qed.

Lemma reading_is_marking_witness :
  store_after
    (handle sample_platform sample_config sample_env
       (request GET ["api"; "admin"; "messages"; "uuid-2"] [] None [])
       admin_session sample_store)
  = store_after
      (handle sample_platform sample_config sample_env
         (request POST ["api"; "admin"; "messages"; "uuid-2"; "mark-read"] []
            (Some "salt-s3") [])
         admin_session sample_store).
Proof.
  apply (reading_is_marking sample_platform sample_config sample_env _ _
           "uuid-2" "uuid-2" "uuid-2"); done.
Defined.

(** ** From a booking request to the admin's view of it *)

(** The booking a valid form adds, field by field. *)
Lemma booking_record P env c sess st :
  valid_booking P (body (req c)) = true →
  ∃ b, post_submit_booking P env c sess st =
         answer sess
           {| bookings := bookings st ++ [b]; messages := messages st;
              uuid_calls := S (uuid_calls st) |}
           (json c 201 [("success", JBool true);
                        ("message", JStr "Booking request received successfully!");
                        ("bookingId", JStr (b_id b));
                        ("emailSent", JBool (mail_ok env));
                        ("csrfToken", csrfToken c)])
       ∧ b_status b = "pending"
       ∧ b_clientName b = field (body (req c)) "name"
       ∧ b_clientEmail b = field (body (req c)) "email"
       ∧ b_clientPhone b = field (body (req c)) "phone"
       ∧ b_eventType b = field (body (req c)) "eventType"
       ∧ b_package b = field (body (req c)) "package"
       ∧ b_startTime b = field (body (req c)) "startTime"
       ∧ b_endTime b = field (body (req c)) "endTime"
       ∧ b_location b = field (body (req c)) "location"
       ∧ b_additionalNotes b = js_or (field (body (req c)) "details") (JStr "")
       ∧ b_createdAt b = now env
       ∧ b_updatedAt b = None.
Proof.
  unfold valid_booking. rewrite !andb_true_iff. intros [[Ht Hp] Hd].
  pose proof (λ k, forallb_elem _ _ k Ht) as Ht'.
  unfold booking_required in Ht'.
  assert (∀ k, k ∈ booking_printed → ∃ s, to_string P (field (body (req c)) k) = Some s)
    as Hs.
  { intros k Hk. pose proof (forallb_elem _ _ k Hp Hk) as H. unfold printable in H.
    destruct (to_string P (field (body (req c)) k)); [eauto|done]. }
  unfold booking_printed in Hs. unfold printable in Hd.
  destruct (Hs "name" ltac:(member)) as [s1 E1].
  destruct (Hs "eventType" ltac:(member)) as [s2 E2].
  destruct (Hs "date" ltac:(member)) as [s3 E3].
  destruct (Hs "package" ltac:(member)) as [s4 E4].
  destruct (Hs "startTime" ltac:(member)) as [s5 E5].
  destruct (Hs "endTime" ltac:(member)) as [s6 E6].
  destruct (Hs "location" ltac:(member)) as [s7 E7].
  destruct (new_Date_printable P _ _ E3) as [d Ed].
  destruct (to_string P (js_or (field (body (req c)) "details") (JStr "None")))
    as [s8|] eqn:E8; [|done].
  eexists. split.
  - unfold post_submit_booking.
    rewrite !Ht' by member. cbn [negb orb].
    unfold getBookingEmailTemplate, try_catch, call_uuidv4, push_booking,
      sendConfirmationEmail.
    cbv [mbind mret Try_bind Try_ret lift option_bind].
    rewrite E1, E2, E3, E4, E5, E6, E7, E8, Ed. reflexivity.
  - by split_and!.
Qed.

(** X15.  A booking request that was accepted can be fetched by the
    identifier its response reported: in a store the server can be in, an
    admin's GET of [/api/admin/bookings/<bookingId>] afterwards answers 200
    with a booking of that identifier that is pending, was never updated,
    and carries the fields of the form as they were sent. *)
Theorem booking_round_trip (P : Platform) (cfg : Config) (env env' : Env)
  (r r' : Request) (seg i : string) (sess sess' : Session) (st : Store) :
  (∀ j k, uuidv4 P j = uuidv4 P k → j = k) →
  reachable P cfg st →
  addressed P SubmitBooking r →
  csrf_ok P env r sess = true →
  valid_booking P (body r) = true →
  body_field "bookingId" (payload (response (handle P cfg env r sess st))) = Some (JStr i) →
  method r' = GET →
  path r' = ["api"; "admin"; "bookings"; seg] →
  seg ≠ "" →
  decodeURIComponent P seg = Some i →
  admin sess' = true →
  ∃ b, response (handle P cfg env' r' sess' (store_after (handle P cfg env r sess st))) =
         {| status := 200; headers := [("Cache-Control", "no-store")];
            payload := BJson (JObj (booking_json b)) |}
       ∧ b_id b = i
       ∧ b_status b = "pending"
       ∧ b_updatedAt b = None
       ∧ b_createdAt b = now env
       ∧ b_clientName b = field (body r) "name"
       ∧ b_clientEmail b = field (body r) "email"
       ∧ b_clientPhone b = field (body r) "phone"
       ∧ b_eventType b = field (body r) "eventType"
       ∧ b_package b = field (body r) "package"
       ∧ b_location b = field (body r) "location".
Proof.
  intros Hinj Hreach H Hok Hv Hi Hm Hp Hne Hx Ha.
  pose proof (reachable_step P cfg env r sess st Hreach) as Hreach'.
  pose proof (handle_get_booking P cfg env' r' seg i sess'
                (store_after (handle P cfg env r sess st)) Hm Hp Hne Hx Ha) as E.
  revert Hi Hreach' E.
  rewrite (handle_endpoint_cases P cfg env SubmitBooking r sess st H), Hok.
  cbn [admin_only andb endpoint_handler].
  destruct (booking_record P env (entered P env SubmitBooking r sess) (settled env sess) st Hv)
    as (b & -> & Hb).
  cbn [conclude answer store_after response payload json body_field].
  intros Hi Hreach' E. exists b.
  assert (b_id b = i) as Hbi.
  { revert Hi. clear. vm_compute. congruence. }
  destruct (reachable_ids_ok P cfg Hinj _ Hreach') as (_ & _ & Hnd & _).
  cbn [bookings] in Hnd.
  unfold get_booking_by_id, answer in E. cbn [param_id params strict_eq_str bookings] in E.
  rewrite <- Hbi in E.
  rewrite (find_NoDup b_id _ (length (bookings st)) b Hnd) in E.
  - injection E as ->. cbn [response json]. destruct Hb as (?&?&?&?&?&?&?&?&?&?&?&?).
    by split_and!.
  - by rewrite lookup_app_r, Nat.sub_diag.
Qed.

Lemma booking_round_trip_witness :
  let r := request POST ["submit-booking"] [] (Some "salt-s3")
             [("name", JStr "A"); ("email", JStr "a@b.com"); ("phone", JStr "1");
              ("eventType", JStr "Portrait"); ("date", JStr "2025-01-01");
              ("startTime", JStr "10:00"); ("endTime", JStr "11:00");
              ("location", JStr "Park"); ("package", JStr "Basic")] in
  let r' := request GET ["api"; "admin"; "bookings"; "uuid-4"] [] None [] in
  ∃ b, response (handle sample_platform sample_config later_env r' admin_session
                   (store_after (handle sample_platform sample_config sample_env r
                                   visitor_session sample_store))) =
         {| status := 200; headers := [("Cache-Control", "no-store")];
            payload := BJson (JObj (booking_json b)) |}
       ∧ b_id b = "uuid-4"
       ∧ b_status b = "pending"
       ∧ b_updatedAt b = None
       ∧ b_createdAt b = now sample_env
       ∧ b_clientName b = field (body r) "name"
       ∧ b_clientEmail b = field (body r) "email"
       ∧ b_clientPhone b = field (body r) "phone"
       ∧ b_eventType b = field (body r) "eventType"
       ∧ b_package b = field (body r) "package"
       ∧ b_location b = field (body r) "location".
Proof.
  apply (booking_round_trip sample_platform sample_config sample_env later_env _ _
           "uuid-4" "uuid-4").
  - exact sample_uuid_inj.
  - apply reachable_start.
  - repeat split.
  - vm_compute. reflexivity.
  - vm_compute. reflexivity.
  - vm_compute. reflexivity.
  - reflexivity.
  - reflexivity.
  - done.
  - reflexivity.
  - reflexivity.
Defined.

(** ** Records are kept as they are *)

Lemma same_details_refl b : same_details b b.
Proof. by repeat split. Qed.

Lemma same_details_trans a b c : same_details a b → same_details b c → same_details a c.
Proof. unfold same_details. intros H1 H2. destruct_and!. split_and!; congruence. Qed.

Lemma same_message_refl m : same_message m m.
Proof. by repeat split. Qed.

Lemma same_message_trans a b c : same_message a b → same_message b c → same_message a c.
Proof. unfold same_message. intros H1 H2. destruct_and!. split_and!; congruence. Qed.

Lemma persists_refl st : persists st st.
Proof.
  split; intros i x Hx; exists x; eauto using same_details_refl, same_message_refl.
Qed.

Lemma persists_trans a b c : persists a b → persists b c → persists a c.
Proof.
  intros [Hb1 Hm1] [Hb2 Hm2]. split.
  - intros i x Hx. destruct (Hb1 i x Hx) as (y & Hy & Hd1 & Hs1).
    destruct (Hb2 i y Hy) as (z & Hz & Hd2 & Hs2).
    exists z. split_and!; [done|by eapply same_details_trans|].
    destruct Hs1 as [<-|E1], Hs2 as [E2|E2]; auto. right. congruence.
  - intros i x Hx. destruct (Hm1 i x Hx) as (y & Hy & Hd1).
    destruct (Hm2 i y Hy) as (z & Hz & Hd2).
    exists z. split; [done|by eapply same_message_trans].
Qed.

Lemma persists_append st st' lb lm :
  bookings st' = bookings st ++ lb → messages st' = messages st ++ lm → persists st st'.
Proof.
  intros Eb Em. split; intros i x Hx; exists x; rewrite ?Eb, ?Em;
    (split; [by apply lookup_app_l_Some|]);
    eauto using same_details_refl, same_message_refl.
Qed.

Lemma persists_confirm st st' k t b :
  bookings st !! k = Some b →
  bookings st' = <[k := confirm t b]> (bookings st) →
  messages st' = messages st →
  persists st st'.
Proof.
  intros Hk Eb Em. split.
  - intros i x Hx. rewrite Eb. destruct (decide (i = k)) as [->|Hne].
    + exists (confirm t b). simplify_eq. split_and!.
      * apply list_lookup_insert_eq. by eapply lookup_lt_Some.
      * by repeat split.
      * by right.
    + exists x. rewrite list_lookup_insert_ne by done.
      eauto using same_details_refl.
  - intros i x Hx. exists x. rewrite Em. eauto using same_message_refl.
Qed.

Lemma persists_mark_read st st' k t m :
  messages st !! k = Some m →
  messages st' = <[k := mark_read t m]> (messages st) →
  bookings st' = bookings st →
  persists st st'.
Proof.
  intros Hk Em Eb. split.
  - intros i x Hx. exists x. rewrite Eb. eauto using same_details_refl.
  - intros i x Hx. rewrite Em. destruct (decide (i = k)) as [->|Hne].
    + exists (mark_read t m). simplify_eq. split.
      * apply list_lookup_insert_eq. by eapply lookup_lt_Some.
      * by repeat split.
    + exists x. rewrite list_lookup_insert_ne by done.
      eauto using same_message_refl.
Qed.

Lemma persists_same st st' :
  bookings st' = bookings st → messages st' = messages st → persists st st'.
Proof.
  intros Eb Em. apply (persists_append st st' [] []); by rewrite app_nil_r.
Qed.

Lemma persists_post_booking_confirm : respects persists post_booking_confirm.
Proof.
  settle post_booking_confirm; try (by apply persists_same).
  by eapply persists_confirm.
Qed.

Lemma persists_get_message_by_id : respects persists get_message_by_id.
Proof.
  settle get_message_by_id; try (by apply persists_same).
  by eapply persists_mark_read.
Qed.

Lemma persists_post_message_mark_read : respects persists post_message_mark_read.
Proof.
  settle post_message_mark_read; try (by apply persists_same).
  by eapply persists_mark_read.
Qed.

Lemma persists_post_submit_contact (P : Platform) : respects persists (post_submit_contact P).
Proof.
  intros env c sess st.
  destruct (profile_post_submit_contact P env c sess st) as (sess' & st' & r & -> & [Hb Hm] & _).
  cbn [answer store_after]. destruct Hb as [lb Hb], Hm as [lm Hm].
  by apply (persists_append st st' lb lm).
Qed.

Lemma persists_post_submit_booking (P : Platform) : respects persists (post_submit_booking P).
Proof.
  intros env c sess st.
  destruct (profile_post_submit_booking P env c sess st) as (sess' & st' & r & -> & [Hb Hm] & _).
  cbn [answer store_after]. destruct Hb as [lb Hb], Hm as [lm Hm].
  by apply (persists_append st st' lb lm).
Qed.

Lemma handle_persists (P : Platform) (cfg : Config) env r sess st :
  persists st (store_after (handle P cfg env r sess st)).
Proof.
  apply handle_respects;
    auto using persists_refl, persists_post_booking_confirm, persists_get_message_by_id,
      persists_post_message_mark_read, persists_post_submit_contact,
      persists_post_submit_booking.
  apply persists_trans.
Qed.

(** X16.  No request removes a record, moves it, or rewrites what was
    submitted.  Whatever the request, a booking that is in the collection
    is still at its place afterwards with the same identifier, client,
    event, package, notes and creation time, and its status is what it was
    or has become [confirmed]: nothing leads back from [confirmed]. *)
Theorem bookings_persist (P : Platform) (cfg : Config) (env : Env) (r : Request)
  (sess : Session) (st : Store) (i : nat) (b : Booking) :
  bookings st !! i = Some b →
  ∃ b', bookings (store_after (handle P cfg env r sess st)) !! i = Some b'
        ∧ same_details b b'
        ∧ (b_status b' = b_status b ∨ b_status b' = "confirmed").
Proof. apply handle_persists. Qed.

Lemma bookings_persist_witness :
  let r := request POST ["api"; "admin"; "bookings"; "uuid-0"; "confirm"] []
             (Some "salt-s3") [] in
  ∃ b', bookings (store_after (handle sample_platform sample_config sample_env r
                                 admin_session sample_store)) !! 0%nat = Some b'
        ∧ same_details john_doe b'
        ∧ (b_status b' = b_status john_doe ∨ b_status b' = "confirmed").
Proof.
  apply (bookings_persist sample_platform sample_config sample_env). reflexivity.
Defined.

(** X17.  Nor does any request rewrite a message: a message that is in the
    collection is still at its place afterwards with the same identifier,
    sender, subject, text, date and archived flag.  Only the read flag and
    the read time can differ. *)
Theorem messages_persist (P : Platform) (cfg : Config) (env : Env) (r : Request)
  (sess : Session) (st : Store) (i : nat) (m : Message) :
  messages st !! i = Some m →
  ∃ m', messages (store_after (handle P cfg env r sess st)) !! i = Some m'
        ∧ same_message m m'.
Proof. apply handle_persists. Qed.

Lemma messages_persist_witness :
  let r := request GET ["api"; "admin"; "messages"; "uuid-2"] [] None [] in
  ∃ m', messages (store_after (handle sample_platform sample_config sample_env r
                                 admin_session sample_store)) !! 0%nat = Some m'
        ∧ same_message
            {| m_id := "uuid-2";
               m_name := "Sarah Johnson";
               m_email := "sarah@example.com";
               m_phone := JUndef;
               m_subject := JStr "Wedding Inquiry";
               m_message := "I would like information about your wedding packages.";
               m_date := 0;
               m_read := false;
               m_archived := false;
               m_readAt := None |} m'.
Proof.
  apply (messages_persist sample_platform sample_config sample_env). reflexivity.
Defined.

(** ** The shape of the records of a running server *)

Lemma keeps_form_refl st : keeps_form st st.
Proof. by intros H. Qed.

Lemma keeps_form_trans a b c : keeps_form a b → keeps_form b c → keeps_form a c.
Proof. unfold keeps_form. auto. Qed.

Lemma keeps_form_same st st' :
  bookings st' = bookings st → messages st' = messages st → keeps_form st st'.
Proof. unfold keeps_form, well_formed. by intros -> ->. Qed.

Lemma elem_of_insert_inv {A : Type} (l : list A) (k : nat) (x y : A) :
  y ∈ <[k := x]> l → y = x ∨ y ∈ l.
Proof.
  intros [i Hi]%list_elem_of_lookup_1.
  destruct (decide (i = k)) as [->|Hne].
  - left. apply list_lookup_insert_Some in Hi as [(_ & -> & _)|[? _]]; done.
  - right. rewrite list_lookup_insert_ne in Hi by done. by eapply list_elem_of_lookup_2.
Qed.

Lemma keeps_form_confirm st st' k t b :
  bookings st' = <[k := confirm t b]> (bookings st) →
  messages st' = messages st →
  keeps_form st st'.
Proof.
  intros Eb Em (H1 & H2 & H3 & H4). unfold well_formed. rewrite Eb, Em.
  split_and!; try done.
  - intros x [->|Hx]%elem_of_insert_inv; [by right|auto].
  - intros x [->|Hx]%elem_of_insert_inv; [done|auto].
Qed.

Lemma keeps_form_mark_read st st' k t m :
  messages st !! k = Some m →
  messages st' = <[k := mark_read t m]> (messages st) →
  bookings st' = bookings st →
  keeps_form st st'.
Proof.
  intros Hk Em Eb (H1 & H2 & H3 & H4). unfold well_formed. rewrite Eb, Em.
  split_and!; try done.
  - intros x [->|Hx]%elem_of_insert_inv; [|auto].
    apply (H3 m). by eapply list_elem_of_lookup_2.
  - intros x [->|Hx]%elem_of_insert_inv; [done|auto].
Qed.

Lemma keeps_form_push_message st st' m :
  messages st' = messages st ++ [m] →
  bookings st' = bookings st →
  m_archived m = false → m_readAt m = None →
  keeps_form st st'.
Proof.
  intros Em Eb Ha Hr (H1 & H2 & H3 & H4). unfold well_formed. rewrite Eb, Em.
  split_and!; try done.
  - intros x [Hx|Hx%list_elem_of_singleton]%elem_of_app; [auto|by subst x].
  - intros x [Hx|Hx%list_elem_of_singleton]%elem_of_app; [auto|]. subst x. by rewrite Hr.
Qed.

Lemma keeps_form_push_booking st st' b :
  bookings st' = bookings st ++ [b] →
  messages st' = messages st →
  b_status b = "pending" → b_updatedAt b = None →
  keeps_form st st'.
Proof.
  intros Eb Em Hs Hu (H1 & H2 & H3 & H4). unfold well_formed. rewrite Eb, Em.
  split_and!; try done.
  - intros x [Hx|Hx%list_elem_of_singleton]%elem_of_app; [auto|subst x; auto].
  - intros x [Hx|Hx%list_elem_of_singleton]%elem_of_app; [auto|]. subst x. by rewrite Hu.
Qed.

Lemma keeps_form_post_booking_confirm : respects keeps_form post_booking_confirm.
Proof.
  settle post_booking_confirm; try (by apply keeps_form_same).
  by eapply keeps_form_confirm.
Qed.

Lemma keeps_form_get_message_by_id : respects keeps_form get_message_by_id.
Proof.
  settle get_message_by_id; try (by apply keeps_form_same).
  by eapply keeps_form_mark_read.
Qed.

Lemma keeps_form_post_message_mark_read : respects keeps_form post_message_mark_read.
Proof.
  settle post_message_mark_read; try (by apply keeps_form_same).
  by eapply keeps_form_mark_read.
Qed.

Lemma keeps_form_post_submit_contact (P : Platform) :
  respects keeps_form (post_submit_contact P).
Proof.
  settle post_submit_contact; unfold call_uuidv4, push_message in *; simplify_eq/=;
    try (by apply keeps_form_same); by eapply keeps_form_push_message.
Qed.

Lemma keeps_form_post_submit_booking (P : Platform) :
  respects keeps_form (post_submit_booking P).
Proof.
  settle post_submit_booking; unfold call_uuidv4, push_booking in *; simplify_eq/=;
    try (by apply keeps_form_same); by eapply keeps_form_push_booking.
Qed.

Lemma well_formed_start P t0 : well_formed (initializeSampleData P t0).
Proof.
  unfold well_formed, initializeSampleData. cbn [bookings messages].
  split_and!; intros x Hx; repeat (apply elem_of_cons in Hx as [->|Hx]); cbn;
    try done; try (by apply elem_of_nil in Hx); auto.
Qed.

Lemma reachable_well_formed P cfg st : reachable P cfg st → well_formed st.
Proof.
  induction 1 as [t0|env r sess st _ IH]; [apply well_formed_start|].
  revert IH. change (keeps_form st (store_after (handle P cfg env r sess st))).
  apply handle_respects;
    auto using keeps_form_refl, keeps_form_post_booking_confirm,
      keeps_form_get_message_by_id, keeps_form_post_message_mark_read,
      keeps_form_post_submit_contact, keeps_form_post_submit_booking.
  apply keeps_form_trans.
Qed.

(** X18.  In every store the server can be in, from the sample data on and
    after any sequence of requests: a booking is pending or confirmed, and
    confirmed if it was ever updated; no message is archived; and a message
    with a read time is read. *)
Theorem records_well_formed (P : Platform) (cfg : Config) (st : Store) :
  reachable P cfg st →
  (∀ b, b ∈ bookings st → b_status b = "pending" ∨ b_status b = "confirmed")
  ∧ (∀ b, b ∈ bookings st → b_updatedAt b ≠ None → b_status b = "confirmed")
  ∧ (∀ m, m ∈ messages st → m_archived m = false)
  ∧ (∀ m, m ∈ messages st → m_readAt m ≠ None → m_read m = true).
Proof. apply reachable_well_formed. Qed.

Lemma records_well_formed_witness :
  let st := store_after
              (handle sample_platform sample_config sample_env
                 (request GET ["api"; "admin"; "messages"; "uuid-2"] [] None [])
                 admin_session sample_store) in
  (∀ b, b ∈ bookings st → b_status b = "pending" ∨ b_status b = "confirmed")
  ∧ (∀ b, b ∈ bookings st → b_updatedAt b ≠ None → b_status b = "confirmed")
  ∧ (∀ m, m ∈ messages st → m_archived m = false)
  ∧ (∀ m, m ∈ messages st → m_readAt m ≠ None → m_read m = true).
Proof.
  apply (records_well_formed sample_platform sample_config).
  apply reachable_step, reachable_start.
Defined.

(** X19.  Since no message of a running server is archived, asking the
    message list for the archived ones too changes nothing: in a store the
    server can be in, an admin gets the same list whatever the parameter
    [includeArchived] is set to. *)
Theorem includeArchived_has_no_effect (P : Platform) (cfg : Config) (env : Env)
  (r r' : Request) (sess : Session) (st : Store) (v : Json) :
  reachable P cfg st →
  method r = GET → path r = ["api"; "admin"; "messages"] →
  method r' = GET → path r' = ["api"; "admin"; "messages"] →
  query r' = <["includeArchived" := v]> (query r) →
  admin sess = true →
  response (handle P cfg env r' sess st) = response (handle P cfg env r sess st).
Proof.
  intros Hreach Hm Hp Hm' Hp' Hq Ha.
  destruct (reachable_well_formed P cfg st Hreach) as (_ & _ & Harch & _).
  rewrite (handle_get_messages P cfg env r sess st Hm Hp Ha),
    (handle_get_messages P cfg env r' sess st Hm' Hp' Ha), Hq.
  cbn [response]. do 5 f_equal.
  rewrite !filter_messages_listed. apply filter_ext_in. intros m Hm0%list_elem_of_In.
  unfold listed. rewrite (Harch m Hm0). cbn [negb]. rewrite !orb_true_r.
  unfold field. by rewrite lookup_insert_ne.
Qed.

Lemma includeArchived_has_no_effect_witness :
  response (handle sample_platform sample_config sample_env
              (request GET ["api"; "admin"; "messages"] [("includeArchived", JStr "true")]
                 None [])
              admin_session sample_store)
  = response (handle sample_platform sample_config sample_env
                (request GET ["api"; "admin"; "messages"] [] None [])
                admin_session sample_store).
Proof.
  apply (includeArchived_has_no_effect sample_platform sample_config sample_env _ _ _ _
           (JStr "true")); try reflexivity.
  apply reachable_start.
Defined.

(** X20.  In every store the server can be in, the generator never
    repeating an identifier, no two bookings and no two messages share an
    identifier. *)
Theorem identifiers_are_unique (P : Platform) (cfg : Config) (st : Store) :
  (∀ j k, uuidv4 P j = uuidv4 P k → j = k) →
  reachable P cfg st →
  NoDup (b_id <$> bookings st) ∧ NoDup (m_id <$> messages st).
Proof.
  intros Hinj Hreach. by destruct (reachable_ids_ok P cfg Hinj st Hreach) as (_ & _ & ? & ?).
Qed.

Lemma identifiers_are_unique_witness :
  NoDup (b_id <$> bookings sample_store) ∧ NoDup (m_id <$> messages sample_store).
Proof.
  apply (identifiers_are_unique sample_platform sample_config).
  - exact sample_uuid_inj.
  - apply reachable_start.
Defined.

(** ** Listing bookings *)

Lemma get_bookings_answers P env c sess st :
  ∃ res, get_bookings P env c sess st = Done res.
Proof.
  destruct (profile_get_bookings P env c sess st) as (sess' & st' & r & -> & _). by eexists.
Qed.

Lemma handle_get_bookings P cfg env r sess st :
  method r = GET → path r = ["api"; "admin"; "bookings"] → admin sess = true →
  Done (handle P cfg env r sess st) =
    get_bookings P env
      {| req := r; params := []; out_headers := [("Cache-Control", "no-store")];
         csrf_token := None |} sess st.
Proof.
  intros Hm Hp Ha. destruct r as [m p q h b]; simpl in Hm, Hp; subst.
  unfold handle, app. cbn [List.app].
  enter (@nil string).
  cbn [run_stack l_stack use route cors method req with_params].
  skip.
  do 5 skip. enter (@nil string).
  cbn [run_stack l_stack use route noCache method req with_params].
  unfold authenticate. rewrite Ha. cbn [negb].
  enter (@nil string).
  cbn [run_stack l_stack route with_params with_header req params out_headers csrf_token
       List.app].
  match goal with
  | |- context [get_bookings P env ?c sess st] =>
      destruct (get_bookings_answers P env c sess st) as [res E]; rewrite E
  end.
  by rewrite <- E.
Qed.

(** Sorting a list whose elements all have a valid event date. *)
Lemma insert_dated (x : Booking) (l : list Booking) :
  is_Some (b_eventDate x) →
  Forall (λ b, is_Some (b_eventDate b)) l →
  StronglySorted later_event_first l →
  StronglySorted later_event_first (insert_sorted by_eventDate_desc x l).
Proof.
  intros [dx Hx] Hl Hs. induction Hs as [|y l Hs IH Hy]; simpl.
  - repeat constructor.
  - apply Forall_cons in Hl as [[dy Hdy] Hl].
    assert (by_eventDate_desc x y = dy - dx) as Hc.
    { unfold by_eventDate_desc. by rewrite Hx, Hdy. }
    rewrite Hc. destruct (dy - dx <=? 0) eqn:Hle.
    + apply Z.leb_le in Hle. constructor; [by constructor|].
      constructor.
      * unfold later_event_first. rewrite Hx, Hdy. lia.
      * rewrite Forall_forall in Hy, Hl. apply Forall_forall. intros z Hz.
        specialize (Hy z Hz). destruct (Hl z Hz) as [dz Hdz].
        unfold later_event_first in *. rewrite Hx, Hdz. rewrite Hdy, Hdz in Hy. lia.
    + apply Z.leb_gt in Hle. constructor; [by apply IH|].
      rewrite insert_sorted_perm. constructor; [|done].
      unfold later_event_first. rewrite Hx, Hdy. lia.
Qed.

Lemma js_sort_dated (l : list Booking) :
  Forall (λ b, is_Some (b_eventDate b)) l →
  StronglySorted later_event_first (js_sort by_eventDate_desc l).
Proof.
  induction 1 as [|x l Hx Hl IH]; simpl; [constructor|].
  apply insert_dated; [done| |done].
  by rewrite js_sort_perm.
Qed.

(** X21.  An admin's list of bookings, each written out with all its
    fields.  With no [status] parameter (or an empty one) it shows every
    booking; with a string it shows those whose status is that string up to
    case.  The order is by event date, latest first, as far as the dates
    are valid.  A [status] that is not a string (a repeated parameter,
    parsed as an array) is answered 500 as soon as there is a booking to
    test.  The store is never changed. *)
Theorem list_bookings (P : Platform) (cfg : Config) (env : Env) (r : Request)
  (sess : Session) (st : Store) :
  method r = GET →
  path r = ["api"; "admin"; "bookings"] →
  admin sess = true →
  bookings (store_after (handle P cfg env r sess st)) = bookings st
  ∧ messages (store_after (handle P cfg env r sess st)) = messages st
  ∧ (truthy (field (query r) "status") = false →
     ∃ l, payload (response (handle P cfg env r sess st)) =
            BJson (JArr ((λ b, JObj [("id", JStr (b_id b));
                           ("clientName", b_clientName b);
                           ("clientEmail", b_clientEmail b);
                           ("clientPhone", b_clientPhone b);
                           ("eventType", b_eventType b);
                           ("eventDate", JDate (b_eventDate b));
                           ("package", b_package b);
                           ("startTime", b_startTime b);
                           ("endTime", b_endTime b);
                           ("location", b_location b);
                           ("additionalNotes", b_additionalNotes b);
                           ("status", JStr (b_status b));
                           ("createdAt", JDate (Some (b_createdAt b)));
                           ("updatedAt", match b_updatedAt b with
                                         | Some t => JDate (Some t)
                                         | None => JUndef
                                         end)]) <$> l))
          ∧ status (response (handle P cfg env r sess st)) = 200%nat
          ∧ l ≡ₚ bookings st
          ∧ (Forall (λ b, is_Some (b_eventDate b)) (bookings st) →
             StronglySorted later_event_first l))
  ∧ (∀ s, field (query r) "status" = JStr s → s ≠ "" →
     ∃ l, payload (response (handle P cfg env r sess st)) =
            BJson (JArr ((λ b, JObj [("id", JStr (b_id b));
                           ("clientName", b_clientName b);
                           ("clientEmail", b_clientEmail b);
                           ("clientPhone", b_clientPhone b);
                           ("eventType", b_eventType b);
                           ("eventDate", JDate (b_eventDate b));
                           ("package", b_package b);
                           ("startTime", b_startTime b);
                           ("endTime", b_endTime b);
                           ("location", b_location b);
                           ("additionalNotes", b_additionalNotes b);
                           ("status", JStr (b_status b));
                           ("createdAt", JDate (Some (b_createdAt b)));
                           ("updatedAt", match b_updatedAt b with
                                         | Some t => JDate (Some t)
                                         | None => JUndef
                                         end)]) <$> l))
          ∧ status (response (handle P cfg env r sess st)) = 200%nat
          ∧ l ≡ₚ List.filter (λ b, String.eqb (toLowerCase P (b_status b))
                                      (toLowerCase P s)) (bookings st)
          ∧ (Forall (λ b, is_Some (b_eventDate b)) (bookings st) →
             StronglySorted later_event_first l))
  ∧ (truthy (field (query r) "status") = true → is_str (field (query r) "status") = false →
     bookings st ≠ [] →
     status (response (handle P cfg env r sess st)) = 500%nat).
Proof.
  intros Hm Hp Ha.
  pose proof (handle_get_bookings P cfg env r sess st Hm Hp Ha) as E.
  unfold get_bookings, try_catch, answer in E.
  cbv [mbind mret Try_bind Try_ret lift] in E. cbn [req query] in E.
  destruct (truthy (field (query r) "status")) eqn:T.
  - destruct (field (query r) "status") as [| | | |s| | |] eqn:Q;
      try (destruct (bookings st) eqn:B; injection E as ->; cbn [store_after];
           split_and!; try done; by rewrite ?B).
    injection E as ->. cbn [store_after response payload status json_array].
    split_and!; try done.
    intros s' [= <-] Hne. eexists. split_and!; try done.
    + by rewrite js_sort_perm.
    + intros Hd. apply js_sort_dated. rewrite Forall_forall in Hd |- *.
      intros b Hb%list_elem_of_In. apply filter_In in Hb as [Hb _].
      apply Hd. by apply list_elem_of_In.
  - injection E as ->. cbn [store_after response payload status json_array].
    split_and!; try done.
    + intros _. eexists. split_and!; try done.
      * by rewrite js_sort_perm.
      * apply js_sort_dated.
    + intros s Hs Hne. rewrite Hs in T. cbn in T. destruct s; [done|discriminate].
Qed.

Lemma list_bookings_witness :
  let r := request GET ["api"; "admin"; "bookings"] [("status", JStr "PENDING")] None [] in
  let res := handle sample_platform sample_config sample_env r admin_session busy_store in
  bookings (store_after res) = bookings busy_store
  ∧ messages (store_after res) = messages busy_store
  ∧ (truthy (field (query r) "status") = false →
     ∃ l, payload (response res) =
            BJson (JArr ((λ b, JObj [("id", JStr (b_id b));
                           ("clientName", b_clientName b);
                           ("clientEmail", b_clientEmail b);
                           ("clientPhone", b_clientPhone b);
                           ("eventType", b_eventType b);
                           ("eventDate", JDate (b_eventDate b));
                           ("package", b_package b);
                           ("startTime", b_startTime b);
                           ("endTime", b_endTime b);
                           ("location", b_location b);
                           ("additionalNotes", b_additionalNotes b);
                           ("status", JStr (b_status b));
                           ("createdAt", JDate (Some (b_createdAt b)));
                           ("updatedAt", match b_updatedAt b with
                                         | Some t => JDate (Some t)
                                         | None => JUndef
                                         end)]) <$> l))
          ∧ status (response res) = 200%nat
          ∧ l ≡ₚ bookings busy_store
          ∧ (Forall (λ b, is_Some (b_eventDate b)) (bookings busy_store) →
             StronglySorted later_event_first l))
  ∧ (∀ s, field (query r) "status" = JStr s → s ≠ "" →
     ∃ l, payload (response res) =
            BJson (JArr ((λ b, JObj [("id", JStr (b_id b));
                           ("clientName", b_clientName b);
                           ("clientEmail", b_clientEmail b);
                           ("clientPhone", b_clientPhone b);
                           ("eventType", b_eventType b);
                           ("eventDate", JDate (b_eventDate b));
                           ("package", b_package b);
                           ("startTime", b_startTime b);
                           ("endTime", b_endTime b);
                           ("location", b_location b);
                           ("additionalNotes", b_additionalNotes b);
                           ("status", JStr (b_status b));
                           ("createdAt", JDate (Some (b_createdAt b)));
                           ("updatedAt", match b_updatedAt b with
                                         | Some t => JDate (Some t)
                                         | None => JUndef
                                         end)]) <$> l))
          ∧ status (response res) = 200%nat
          ∧ l ≡ₚ List.filter (λ b, String.eqb (toLowerCase sample_platform (b_status b))
                                      (toLowerCase sample_platform s)) (bookings busy_store)
          ∧ (Forall (λ b, is_Some (b_eventDate b)) (bookings busy_store) →
             StronglySorted later_event_first l))
  ∧ (truthy (field (query r) "status") = true → is_str (field (query r) "status") = false →
     bookings busy_store ≠ [] →
     status (response res) = 500%nat).
Proof.
  apply (list_bookings sample_platform sample_config sample_env); reflexivity.
Defined.

(** On that store the list comes latest event first, and the filter keeps
    the two pending bookings whatever the case of the parameter. *)
Lemma list_bookings_runs :
  (b_id <$> js_sort by_eventDate_desc (bookings busy_store)) = ["b2"; "b3"; "b1"]
  ∧ (b_id <$> js_sort by_eventDate_desc
       (List.filter (λ b, String.eqb (lower (b_status b)) (lower "PENDING"))
          (bookings busy_store)))
    = ["b3"; "b1"].
Proof. by vm_compute. Qed.

(** ** Requests that no route answers *)



Ltac pass H1 H2 :=
  rewrite dispatch_skip
    by (unfold match_layer;
        cbn [l_pattern l_method route use match_pattern match_exact match_under
             req path method with_params];
        change (ci_eqb "api" "api") with true;
        change (ci_eqb "csrf-token" "api") with false;
        change (ci_eqb "submit-booking" "api") with false;
        rewrite ?H1, ?H2; cbn [andb];
        try destruct (ci_eqb "submit-contact" _); cbn [decode_params method_ok]; done).

Lemma star_entered decode m stack r :
  method_ok (Some m) (method r) = true →
  Forall (λ seg, has_percent seg = false ∨ is_Some (decode seg)) (path r) →
  match_layer decode {| l_method := Some m; l_pattern := Star; l_stack := stack |} r
  = Matched [].
Proof.
  intros Hm Hp. unfold match_layer. cbn [l_pattern l_method]. rewrite Hm.
  replace (forallb (decodes decode) (path r)) with true; [done|].
  symmetry. apply forallb_forall. intros seg Hseg%list_elem_of_In.
  rewrite Forall_forall in Hp. unfold decodes.
  destruct (Hp seg Hseg) as [->|H]; [done|].
  rewrite (bool_decide_eq_true_2 _ H). apply orb_true_r.
Qed.

(** X23.  A GET under [/api] that no route answers.  Outside production it
    gets the JSON 404 "Endpoint not found".  In production the catch-all
    that serves the front end is registered before that handler and
    answers first: the same request gets [index.html] with status 200 and
    the [Cache-Control] header that [sendFile] sets. *)
Theorem unknown_api_path (P : Platform) (cfg : Config) (env : Env) (r : Request)
  (x : string) (sess : Session) (st : Store) :
  method r = GET →
  path r = ["api"; x] →
  (has_percent x = true → is_Some (decodeURIComponent P x)) →
  ci_eqb "csrf-token" x = false →
  ci_eqb "admin" x = false →
  response (handle P cfg env r sess st) =
    if bool_decide (NODE_ENV cfg = Some "production")
    then {| status := 200; headers := [("Cache-Control", "public, max-age=0")];
            payload := BFile "index.html" |}
    else {| status := 404; headers := [];
            payload := BJson (JObj [("error", JStr "Endpoint not found")]) |}.
Proof.
  intros Hm Hp Hd H1 H2. destruct r as [m p q h b]; simpl in Hm, Hp; subst.
  assert (has_percent x = false ∨ is_Some (decodeURIComponent P x)) as Hx.
  { destruct (has_percent x); [right; by apply Hd|by left]. }
  unfold handle, app. cbn [List.app].
  enter (@nil string).
  cbn [run_stack l_stack use route cors method req with_params].
  rewrite dispatch_skip
    by (apply star_passed; [reflexivity|];
        apply List.Forall_cons; [by left|]; apply List.Forall_cons; [exact Hx|];
        apply List.Forall_nil).
  do 16 pass H1 H2.
  case_bool_decide; cbn [List.app].
  - rewrite (dispatch_enter _ _ _ _ _ _ _ _ []); [reflexivity|].
    apply star_entered; [reflexivity|].
    apply List.Forall_cons; [by left|]. apply List.Forall_cons; [exact Hx|].
    apply List.Forall_nil.
  - enter (@nil string). reflexivity.
Qed.

Lemma unknown_api_path_witness :
  response (handle sample_platform sample_config sample_env
              (request GET ["api"; "submit-contact"] [] None []) visitor_session sample_store)
  = if bool_decide (NODE_ENV sample_config = Some "production")
    then {| status := 200; headers := [("Cache-Control", "public, max-age=0")];
            payload := BFile "index.html" |}
    else {| status := 404; headers := [];
            payload := BJson (JObj [("error", JStr "Endpoint not found")]) |}.
Proof.
  apply (unknown_api_path sample_platform sample_config sample_env _ "submit-contact");
    done.
Defined.

(** ** A path that cannot be decoded *)

Lemma dispatch_bad_param P cfg L rest env c sess st raw :
  match_layer (decodeURIComponent P) L (req c) = BadParam raw →
  dispatch P cfg (L :: rest) env c sess st = error_handler cfg (decode_error raw) env c sess st.
Proof. intros H. cbn [dispatch]. by rewrite H. Qed.

Lemma star_refuses decode m stack r seg :
  seg ∈ path r → has_percent seg = true → decode seg = None →
  match_layer decode {| l_method := Some m; l_pattern := Star; l_stack := stack |} r
  = BadParam (path_string (path r)).
Proof.
  intros Hseg Hp Hd. unfold match_layer. cbn [l_pattern].
  replace (forallb (decodes decode) (path r)) with false; [done|].
  symmetry. apply not_true_is_false. intros H.
  rewrite forallb_forall in H. specialize (H seg (proj1 (list_elem_of_In _ _) Hseg)).
  unfold decodes in H. rewrite Hp, Hd in H. cbn [negb orb] in H.
  apply bool_decide_eq_true_1 in H. by destruct H.
Qed.

(** X24.  The layer of [app.options('*')] decodes the whole path of every
    request, before the guard and every route.  A request (a preflight
    apart) whose path holds an escape that cannot be decoded is answered
    400 by the error handler, whoever sends it and whatever its method; the
    message names the whole path, the stack trace is in the body in
    development only, no header is set and nothing changes. *)
Theorem undecodable_path (P : Platform) (cfg : Config) (env : Env) (r : Request)
  (seg : string) (sess : Session) (st : Store) :
  method r ≠ OPTIONS →
  seg ∈ path r →
  has_percent seg = true →
  decodeURIComponent P seg = None →
  handle P cfg env r sess st =
    {| store_after := st; session_after := sess;
       response :=
         {| status := 400; headers := [];
            payload :=
              BJson (JObj ([("error", JStr ("Failed to decode param '"
                                            +:+ path_string (path r) +:+ "'"))]
                           ++ (if bool_decide (NODE_ENV cfg = Some "development")
                               then [("details", JStr (stack env))] else []))) |} |}.
Proof.
  intros Hm Hseg Hp Hd. unfold handle, app. cbn [List.app].
  rewrite (dispatch_enter _ _ _ _ _ _ _ _ []) by done.
  cbn [run_stack l_stack use]. unfold cors. fields.
  destruct (method r) eqn:M; try (exfalso; by apply Hm).
  all: cbv beta iota.
  all: rewrite (dispatch_bad_param _ _ _ _ _ _ _ _ (path_string (path r)))
    by (by apply (star_refuses _ _ _ _ seg)).
  all: unfold error_handler, decode_error, json.
  all: cbn [err_code err_status err_message out_headers with_params String.eqb String.append
            Ascii.eqb Bool.eqb].
  all: by rewrite bool_decide_eq_false_2.
Qed.

Lemma undecodable_path_witness :
  let r := request POST ["api"; "admin"; "bookings"; "%zz"] [] None [] in
  handle sample_platform sample_config sample_env r visitor_session sample_store =
    {| store_after := sample_store; session_after := visitor_session;
       response :=
         {| status := 400; headers := [];
            payload :=
              BJson (JObj ([("error", JStr ("Failed to decode param '"
                                            +:+ path_string (path r) +:+ "'"))]
                           ++ (if bool_decide (NODE_ENV sample_config = Some "development")
                               then [("details", JStr (stack sample_env))] else []))) |} |}.
Proof.
  apply (undecodable_path sample_platform sample_config sample_env _ "%zz"); try done.
  repeat constructor.
Defined.

(** On the sample platform the message reads as the server's does. *)
Lemma undecodable_path_message :
  body_field "error"
    (payload (response (handle sample_platform sample_config sample_env
                          (request GET ["api"; "admin"; "bookings"; "%zz"] [] None [])
                          visitor_session sample_store)))
  = Some (JStr "Failed to decode param '/api/admin/bookings/%zz'").
Proof. by vm_compute. Qed.

(** ** A session from login to logout *)

Lemma handle_post_login P cfg env r sess st :
  method r = POST → path r = ["api"; "admin"; "login"] →
  Done (handle P cfg env r sess st) =
    post_login cfg env
      {| req := r; params := []; out_headers := [("Cache-Control", "no-store")];
         csrf_token := None |} sess st.
Proof.
  intros Hm Hp. destruct r as [m p q h b]; simpl in Hm, Hp; subst.
  unfold handle, app. cbn [List.app].
  enter (@nil string).
  cbn [run_stack l_stack use route cors method req with_params].
  skip.
  do 4 skip. enter (@nil string).
  cbn [run_stack l_stack use route noCache method req with_params body with_header].
  unfold post_login, answer. fields.
  destruct (strict_eq_env (field b "username") (ADMIN_USERNAME cfg)
            && strict_eq_env (field b "password") (ADMIN_PASSWORD cfg));
    by destruct (session_store_ok env).
Qed.

Lemma handle_get_check_auth P cfg env r sess st :
  method r = GET → path r = ["api"; "admin"; "check-auth"] →
  Done (handle P cfg env r sess st) =
    get_check_auth cfg env
      {| req := r; params := []; out_headers := [("Cache-Control", "no-store")];
         csrf_token := None |} sess st.
Proof.
  intros Hm Hp. destruct r as [m p q h b]; simpl in Hm, Hp; subst.
  unfold handle, app. cbn [List.app].
  enter (@nil string).
  cbn [run_stack l_stack use route cors method req with_params].
  skip.
  do 3 skip. enter (@nil string). reflexivity.
Qed.

Lemma handle_post_logout P cfg env r sess st :
  method r = POST → path r = ["api"; "admin"; "logout"] → admin sess = true →
  Done (handle P cfg env r sess st) =
    post_logout env
      {| req := r; params := []; out_headers := [("Cache-Control", "no-store")];
         csrf_token := None |} sess st.
Proof.
  intros Hm Hp Ha. destruct r as [m p q h b]; simpl in Hm, Hp; subst.
  unfold handle, app. cbn [List.app].
  enter (@nil string).
  cbn [run_stack l_stack use route cors method req with_params].
  skip.
  do 5 skip. enter (@nil string).
  cbn [run_stack l_stack use route noCache method req with_params].
  unfold authenticate. rewrite Ha. cbn [negb].
  do 7 skip. enter (@nil string).
  cbn [run_stack l_stack route]. unfold post_logout, answer. fields.
  by destruct (session_store_ok env).
Qed.

(** X25.  The session between login and logout.  After a login with the
    configured credentials, [check-auth] reports the session as
    authenticated, with the configured user name, and leaves it as it is;
    after the logout that follows it reports it as not authenticated, and
    the guard answers 401 again.  The session store is taken to work. *)
Theorem session_life_cycle (P : Platform) (cfg : Config) (env : Env)
  (login check logout : Request) (sess : Session) (st : Store) :
  session_store_ok env = true →
  method login = POST → path login = ["api"; "admin"; "login"] →
  credentials_match cfg login = true →
  method check = GET → path check = ["api"; "admin"; "check-auth"] →
  method logout = POST → path logout = ["api"; "admin"; "logout"] →
  let inside := session_after (handle P cfg env login sess st) in
  let outside := session_after (handle P cfg env logout inside st) in
  body_field "authenticated" (payload (response (handle P cfg env check inside st)))
    = Some (JBool true)
  ∧ body_field "username" (payload (response (handle P cfg env check inside st)))
    = Some (env_json (ADMIN_USERNAME cfg))
  ∧ session_after (handle P cfg env check inside st) = inside
  ∧ body_field "authenticated" (payload (response (handle P cfg env check outside st)))
    = Some (JBool false)
  ∧ status (response (handle P cfg env logout outside st)) = 401%nat.
Proof.
  intros Hok Hm1 Hp1 Hc Hm2 Hp2 Hm3 Hp3 inside outside.
  pose proof (handle_post_login P cfg env login sess st Hm1 Hp1) as E1.
  unfold post_login, answer in E1. unfold credentials_match in Hc.
  cbn [req body] in E1. rewrite Hc, Hok in E1.
  assert (inside = admin_fresh) as Hin by (unfold inside; by injection E1 as ->).
  clearbody inside. subst inside. clear E1.
  pose proof (handle_post_logout P cfg env logout admin_fresh st Hm3 Hp3 eq_refl) as E2.
  unfold post_logout, answer in E2. rewrite Hok in E2.
  assert (outside = empty_session) as Hout by (unfold outside; by injection E2 as ->).
  clearbody outside. subst outside. clear E2.
  pose proof (handle_get_check_auth P cfg env check admin_fresh st Hm2 Hp2) as E3.
  pose proof (handle_get_check_auth P cfg env check empty_session st Hm2 Hp2) as E4.
  unfold get_check_auth, answer in E3, E4.
  injection E3 as ->. injection E4 as ->.
  split_and!; try done.
  destruct logout as [m p q h b]; simpl in Hm3, Hp3; subst.
  unfold handle, app. cbn [List.app].
  enter (@nil string).
  cbn [run_stack l_stack use route cors method req with_params].
  skip.
  do 5 skip. enter (@nil string). reflexivity.
Qed.

Lemma session_life_cycle_witness :
  let login := request POST ["api"; "admin"; "login"] [] None
                 [("username", JStr "admin"); ("password", JStr "secret")] in
  let check := request GET ["api"; "admin"; "check-auth"] [] None [] in
  let logout := request POST ["api"; "admin"; "logout"] [] None [] in
  let inside := session_after (handle sample_platform sample_config sample_env login
                                 visitor_session sample_store) in
  let outside := session_after (handle sample_platform sample_config sample_env logout
                                  inside sample_store) in
  body_field "authenticated"
    (payload (response (handle sample_platform sample_config sample_env check inside
                          sample_store)))
    = Some (JBool true)
  ∧ body_field "username"
      (payload (response (handle sample_platform sample_config sample_env check inside
                            sample_store)))
    = Some (env_json (ADMIN_USERNAME sample_config))
  ∧ session_after (handle sample_platform sample_config sample_env check inside sample_store)
    = inside
  ∧ body_field "authenticated"
      (payload (response (handle sample_platform sample_config sample_env check outside
                            sample_store)))
    = Some (JBool false)
  ∧ status (response (handle sample_platform sample_config sample_env logout outside
                        sample_store)) = 401%nat.
Proof.
  apply (session_life_cycle sample_platform sample_config sample_env); reflexivity.
Defined.

(** ** The health route *)

(** X26.  The health route is registered before the guard: it answers any
    session, also one that is not an admin's, with status 200 and the state
    of the database connection, and changes nothing.  Unlike the other
    routes under [/api/admin] its answer carries no [Cache-Control]
    header. *)
Theorem health_is_public (P : Platform) (cfg : Config) (env : Env) (r : Request)
  (sess : Session) (st : Store) :
  method r = GET →
  path r = ["api"; "admin"; "health"] →
  store_after (handle P cfg env r sess st) = st
  ∧ session_after (handle P cfg env r sess st) = sess
  ∧ status (response (handle P cfg env r sess st)) = 200%nat
  ∧ headers (response (handle P cfg env r sess st)) = []
  ∧ body_field "database" (payload (response (handle P cfg env r sess st)))
    = Some (JStr (if db_connected env then "connected" else "disconnected")).
Proof.
  intros Hm Hp. destruct r as [m p q h b]; simpl in Hm, Hp; subst.
  unfold handle, app. cbn [List.app].
  enter (@nil string).
  cbn [run_stack l_stack use route cors method req with_params].
  skip.
  do 2 skip. enter (@nil string).
  cbn [run_stack l_stack route]. unfold get_health, answer. observe. by split_and!.
Qed.

Lemma health_is_public_witness :
  let r := request GET ["api"; "admin"; "health"] [] None [] in
  let res := handle sample_platform sample_config sample_env r visitor_session sample_store in
  store_after res = sample_store
  ∧ session_after res = visitor_session
  ∧ status (response res) = 200%nat
  ∧ headers (response res) = []
  ∧ body_field "database" (payload (response res))
    = Some (JStr (if db_connected sample_env then "connected" else "disconnected")).
Proof.
  apply (health_is_public sample_platform sample_config sample_env); reflexivity.
Defined.

(** ** Where the token is looked for *)

(** X27.  The CSRF middleware reads the token from the [X-CSRF-Token]
    header and turns to the [_csrf] field of the body only when the header
    is absent or empty.  A POST to one of the four endpoints whose header
    carries a token that does not verify is rejected with 403 and changes
    nothing, whatever the body holds, also a valid token. *)
Theorem header_token_takes_precedence (P : Platform) (cfg : Config) (env : Env)
  (e : Endpoint) (r : Request) (sess : Session) (st : Store) (h : string) :
  addressed P e r →
  (admin_only e = true → admin sess = true) →
  x_csrf_token r = Some h →
  h ≠ "" →
  tokens_verify P (default (fresh_secret env) (csrfSecret sess)) h = false →
  status (response (handle P cfg env r sess st)) = 403%nat
  ∧ store_after (handle P cfg env r sess st) = st.
Proof.
  intros H Hadm Hh Hne Hv.
  rewrite (handle_endpoint_cases P cfg env e r sess st H).
  assert (admin_only e && negb (admin sess) = false) as ->.
  { destruct (admin_only e); [|done]. by rewrite Hadm. }
  assert (csrf_ok P env r sess = false) as ->; [|done].
  unfold csrf_ok, csrf_value. rewrite Hh.
  apply String.eqb_neq in Hne. rewrite Hne. unfold verifytoken. by rewrite Hne, Hv.
Qed.

Lemma header_token_takes_precedence_witness :
  let r := request POST ["api"; "submit-contact"] [] (Some "forged")
             [("_csrf", JStr "salt-s3"); ("name", JStr "A"); ("email", JStr "a@b.com");
              ("message", JStr "Hello")] in
  let res := handle sample_platform sample_config sample_env r visitor_session sample_store in
  status (response res) = 403%nat ∧ store_after res = sample_store.
Proof.
  apply (header_token_takes_precedence sample_platform sample_config sample_env
           SubmitContact _ _ _ "forged"); done.
Defined.

(** ** An identifier that no record has *)

Lemma findIndex_none {A : Type} (f : A → bool) (l : list A) :
  (∀ x, x ∈ l → f x = false) → findIndex f l = None.
Proof.
  induction l as [|a l IH]; intros H; [done|].
  cbn [findIndex]. rewrite (H a) by apply list_elem_of_here.
  rewrite IH; [done|]. intros x Hx. apply H. by apply list_elem_of_further.
Qed.

(** X28.  Confirming a booking or marking a message read under an
    identifier that no record has: for an admin with a valid CSRF token the
    answer is 404, the store is exactly as it was, and the body carries no
    [csrfToken]. *)
Theorem unknown_identifier (P : Platform) (cfg : Config) (env : Env) (e : Endpoint)
  (r : Request) (seg x : string) (sess : Session) (st : Store) :
  addressed P e r →
  admin sess = true →
  csrf_ok P env r sess = true →
  decodeURIComponent P seg = Some x →
  (e = ConfirmBooking seg ∧ ∀ b, b ∈ bookings st → b_id b ≠ x)
  ∨ (e = MarkRead seg ∧ ∀ m, m ∈ messages st → m_id m ≠ x) →
  status (response (handle P cfg env r sess st)) = 404%nat
  ∧ store_after (handle P cfg env r sess st) = st
  ∧ body_field "csrfToken" (payload (response (handle P cfg env r sess st))) = None.
Proof.
  intros H Ha Hok Hx He.
  rewrite (handle_endpoint_cases P cfg env e r sess st H), Ha, Hok.
  rewrite andb_false_r.
  destruct He as [[-> Hno]|[-> Hno]]; cbn [endpoint_handler].
  - unfold post_booking_confirm.
    rewrite (param_id_entered P env _ r sess seg x (or_introl eq_refl) Hx).
    cbn [strict_eq_str]. rewrite findIndex_none; [done|].
    intros b Hb. apply String.eqb_neq. intros E. by apply (Hno b Hb).
  - unfold post_message_mark_read.
    rewrite (param_id_entered P env _ r sess seg x (or_intror eq_refl) Hx).
    cbn [strict_eq_str]. rewrite findIndex_none; [done|].
    intros m Hm. apply String.eqb_neq. intros E. by apply (Hno m Hm).
Qed.

Lemma unknown_identifier_witness :
  let r := request POST ["api"; "admin"; "bookings"; "nobody"; "confirm"] []
             (Some "salt-s3") [] in
  let res := handle sample_platform sample_config sample_env r admin_session sample_store in
  status (response res) = 404%nat
  ∧ store_after res = sample_store
  ∧ body_field "csrfToken" (payload (response res)) = None.
Proof.
  apply (unknown_identifier sample_platform sample_config sample_env
           (ConfirmBooking "nobody") _ "nobody" "nobody").
  - repeat split; try done.
  - reflexivity.
  - vm_compute. reflexivity.
  - reflexivity.
  - left. split; [done|]. intros b Hb.
    repeat (apply elem_of_cons in Hb as [->|Hb]); try done. by apply elem_of_nil in Hb.
Defined.
